(** * Workout CSV utilities (Main.py): catalog, set log, importer, summary

    A shallow embedding of the data-integrity layer of [Main.py]:
    [slugify], the movement catalog ([load_movements], [append_movement]),
    the set log ([append_set_record]), the summary export
    ([export_summary]) and the importer ([import_movements_file]).

    Text.  A Python [str] is a sequence of code points.  The embedding
    covers the strings whose code points are all below 256: a [string]
    of this file is such a [str], each [ascii] being one code point
    (Latin-1).  On that range [str.lower], [str.isalnum], [str.isspace]
    and [str.splitlines] are the finite tables written out below.

    Files.  movements.csv and workouts.csv are held as the records the
    [csv] module reads from them and writes to them; the source of an
    import is held as its text, and [csv.reader] on its lines is a
    parameter of the importer.  Dicts that are only looked up are
    [gmap]s; the dict whose order [export_summary] writes out is an
    association list in insertion order.

    Effects.  A program is a function from the files to a result or an
    exception and the files it leaves.  The clock is read by the
    caller and passed in. *)

From Stdlib Require Import ZArith NArith Ascii String DecimalNat DecimalString PrimFloat.
From stdpp Require Import gmap strings list fin_maps.

Local Open Scope N_scope.

(** ** Characters *)

Definition code (c : ascii) : N := N_of_ascii c.

Definition in_range (lo hi : N) (c : ascii) : bool :=
  (lo <=? code c) && (code c <=? hi).

Definition is_code (n : N) (c : ascii) : bool := code c =? n.

(** [ch.isspace()]: TAB..CR, FS..US, SPACE, NEL, NBSP. *)
Definition isspace (c : ascii) : bool :=
  in_range 9 13 c || in_range 28 32 c || is_code 133 c || is_code 160 c.

(** [ch.isalnum()]: the ASCII digits and letters, and in the upper half
    the letters (all of 192..255 but the two operators 215 and 247, and
    170, 181, 186) and the numeric signs 178, 179, 185, 188..190. *)
Definition isalnum (c : ascii) : bool :=
  in_range 48 57 c || in_range 65 90 c || in_range 97 122 c
  || is_code 170 c || is_code 178 c || is_code 179 c || is_code 181 c
  || is_code 185 c || is_code 186 c || in_range 188 190 c
  || in_range 192 214 c || in_range 216 246 c || in_range 248 255 c.

(** The upper-case letters, those [str.lower] moves (by 32). *)
Definition isupper (c : ascii) : bool :=
  in_range 65 90 c || in_range 192 214 c || in_range 216 222 c.

Definition lower_char (c : ascii) : ascii :=
  if isupper c then ascii_of_N (code c + 32) else c.

(** The line boundaries of [str.splitlines] (CR LF counts once). *)
Definition is_linebreak (c : ascii) : bool :=
  in_range 10 13 c || in_range 28 30 c || is_code 133 c.

Definition all_chars : list ascii :=
  map (fun n => ascii_of_N (N.of_nat n)) (seq 0 256).

Local Close Scope N_scope.

(** ** Strings *)

Fixpoint str_map (f : ascii -> ascii) (s : string) : string :=
  match s with
  | EmptyString => EmptyString
  | String c s' => String (f c) (str_map f s')
  end.

Fixpoint str_filter (p : ascii -> bool) (s : string) : string :=
  match s with
  | EmptyString => EmptyString
  | String c s' => if p c then String c (str_filter p s') else str_filter p s'
  end.

(** [s[:n]] *)
Fixpoint str_take (n : nat) (s : string) : string :=
  match n, s with
  | S n', String c s' => String c (str_take n' s')
  | _, _ => EmptyString
  end.

Fixpoint str_forall (p : ascii -> bool) (s : string) : bool :=
  match s with
  | EmptyString => true
  | String c s' => p c && str_forall p s'
  end.

Fixpoint lstrip (s : string) : string :=
  match s with
  | String c s' => if isspace c then lstrip s' else s
  | EmptyString => EmptyString
  end.

Fixpoint rstrip (s : string) : string :=
  match s with
  | EmptyString => EmptyString
  | String c s' =>
      match rstrip s' with
      | EmptyString => if isspace c then EmptyString else String c EmptyString
      | r => String c r
      end
  end.

(** [s.strip()] *)
Definition strip (s : string) : string := rstrip (lstrip s).

(** [s.lower()] *)
Definition lower (s : string) : string := str_map lower_char s.

(** [s.replace(a, b)] for one-character [a] and [b]. *)
Definition replace_char (a b : ascii) (s : string) : string :=
  str_map (fun c => if Ascii.eqb c a then b else c) s.

(** A Python truth test on a [str]: the empty string is false. *)
Definition truthy (s : string) : bool :=
  match s with EmptyString => false | _ => true end.

(** ** slugify *)

Definition slug_char (ch : ascii) : bool := isalnum ch || Ascii.eqb ch "_".

Definition slugify (name : string) : string :=
  let s := replace_char " " "_" (lower (strip name)) in
  let s := str_filter slug_char s in
  str_take 40 s.

(** ** normalize, as the specification words it

    Lower-case, trim, replace each run of interior whitespace by one
    joining character, strip what is neither alphanumeric nor the
    joining character, truncate to 40. *)

Fixpoint collapse_ws (in_run : bool) (s : string) : string :=
  match s with
  | EmptyString => EmptyString
  | String c s' =>
      if isspace c
      then if in_run then collapse_ws true s'
           else String "_" (collapse_ws true s')
      else String c (collapse_ws false s')
  end.

Definition normalize_spec (name : string) : string :=
  str_take 40 (str_filter slug_char (collapse_ws false (strip (lower name)))).

(** Every whitespace character of [s] is a SPACE, and no two are
    adjacent ([prev] tells whether the character before [s] was one). *)
Fixpoint single_spaced (prev : bool) (s : string) : bool :=
  match s with
  | EmptyString => true
  | String c s' =>
      if isspace c
      then Ascii.eqb c " " && negb prev && single_spaced true s'
      else single_spaced false s'
  end.

(** The same with the replacement as [slugify] makes it: each SPACE
    becomes one joining character, whatever stands next to it, and the
    other whitespace is left to the stripping step. *)
Definition normalize_each_space (name : string) : string :=
  str_take 40 (str_filter slug_char (replace_char " " "_" (strip (lower name)))).

(** A character that [slugify] keeps and [str.lower] leaves alone. *)
Definition settled (c : ascii) : bool :=
  slug_char c && Ascii.eqb (lower_char c) c.

(** ** Decimal text of integers *)

(** [str(i)] for a non-negative [int]. *)
Definition str_of_nat (i : nat) : string :=
  NilEmpty.string_of_uint (Nat.to_uint i).

(** [str(z)] for an [int]. *)
Definition str_of_Z (z : Z) : string :=
  NilEmpty.string_of_int (Z.to_int z).

(** ** Values that may be None, CSV tables, DictReader

    A CSV file is held as the list of records that [csv.reader] yields
    on it, the header record first; [csv.writer.writerow] on a file
    opened for appending adds one record at its end.  (The text of the
    files, quoting and line ends are the [csv] module's business; a
    file is assumed to end with a line end, as every file written here
    does.)  [None] stands for a file that does not exist. *)

Abbreviation pyval := (option string) (only parsing).

(** [f"{v}"] *)
Definition fmt (v : pyval) : string :=
  match v with Some s => s | None => "None" end.

(** What [csv.writer] writes for [v]: None gives the empty field. *)
Definition cell (v : pyval) : string :=
  match v with Some s => s | None => "" end.

Abbreviation csv_row := (list string) (only parsing).
Abbreviation csv_table := (list (list string)) (only parsing).

(** One row of a [csv.DictReader]: a dict from the field names to the
    cells.  A row shorter than the header has None for the missing
    cells; the cells beyond the header go under the key None, which
    this program never reads and which is left out. *)
Abbreviation dict_row := (gmap string (option string)) (only parsing).

Definition dict_of_pairs (kvs : list (string * pyval)) : dict_row :=
  fold_left (fun d kv => <[kv.1 := kv.2]> d) kvs ∅.

Definition mk_dict_row (fieldnames : csv_row) (row : csv_row) : dict_row :=
  let d := dict_of_pairs (zip fieldnames (map Some row)) in
  fold_left (fun d key => <[key := None]> d) (drop (length row) fieldnames) d.

Definition is_blank (row : csv_row) : bool :=
  match row with [] => true | _ => false end.

(** The rows [for row in csv.DictReader(...)] goes through: the first
    record gives the field names, blank records are skipped. *)
Definition dict_reader (records : csv_table) : list dict_row :=
  match records with
  | [] => []
  | fieldnames :: rows =>
      map (mk_dict_row fieldnames) (filter (fun r => is_blank r = false) rows)
  end.

(** [row.get(key)] *)
Definition row_get (row : dict_row) (key : string) : pyval :=
  match row !! key with Some v => v | None => None end.

(** [row.get(key, default)] *)
Definition row_get_default (row : dict_row) (key default : string) : pyval :=
  match row !! key with Some v => v | None => Some default end.

(** The value of [a] when [a] is true: a non-empty [str]. *)
Definition if_true (a : pyval) : option string :=
  match a with
  | Some s => if truthy s then Some s else None
  | None => None
  end.

(** [a or b] where [a] may be None or a [str]. *)
Definition py_or (a : pyval) (b : pyval) : pyval :=
  match if_true a with
  | Some s => Some s
  | None => b
  end.

(** ** The two files, exceptions, and programs over the files *)

Record files := Files {
  MOVEMENTS_CSV : option csv_table;
  WORKOUTS_CSV : option csv_table
}.

(** The exceptions raised here.  [NoneCell] and [LoopFuel] are the
    model's own: see [as_str] and [unique_loop]. *)
Inductive exn :=
  | ValueError (msg : string)
  | FileNotFoundError
  | IndexError
  | KeyError (key : string)
  | NoneCell
  | LoopFuel.

Inductive outcome (A : Type) :=
  | Return (a : A)
  | Raise (e : exn).
Arguments Return {A} a.
Arguments Raise {A} e.

(** A program reads and writes the files and returns or raises; what
    it wrote before raising stays written.  Printing is not modelled. *)
Definition prog (A : Type) : Type := files -> outcome A * files.

#[global] Instance prog_ret : MRet prog := fun A a fs => (Return a, fs).

#[global] Instance prog_bind : MBind prog := fun A B f c fs =>
  match c fs with
  | (Return a, fs') => f a fs'
  | (Raise e, fs') => (Raise e, fs')
  end.

Definition raise {A} (e : exn) : prog A := fun fs => (Raise e, fs).
Definition get_files : prog files := fun fs => (Return fs, fs).
Definition put_files (fs : files) : prog unit := fun _ => (Return tt, fs).

(** [for x in xs: acc = body(acc, x)] *)
Fixpoint for_each {A S} (body : S -> A -> prog S) (xs : list A) (acc : S) : prog S :=
  match xs with
  | [] => mret acc
  | x :: xs' => acc' ← body acc x; for_each body xs' acc'
  end.

(** ** Movement and the catalog *)

Module Movement.
Record t := Build {
  id : string;
  name : string;
  category : string;
  default_unit : string;
  primary_muscle : string;
  secondary_muscles : string;
  notes : string
}.
End Movement.
Abbreviation Movement := Movement.t.

Definition movements_header : csv_row :=
  ["id"; "name"; "category"; "default_unit"; "primary_muscle";
   "secondary_muscles"; "notes"].

Definition workouts_header : csv_row :=
  ["workout_id"; "date"; "start_time"; "movement_id"; "movement_name";
   "set_number"; "set_type"; "cluster_id"; "reps"; "load"; "unit";
   "rest_seconds"; "rpe"; "tags"; "notes"; "created_at"].

Definition ensure_files_exist : prog unit :=
  fs ← get_files;
  let m := match MOVEMENTS_CSV fs with
           | None => Some [movements_header]
           | Some t => Some t
           end in
  let w := match WORKOUTS_CSV fs with
           | None => Some [workouts_header]
           | Some t => Some t
           end in
  put_files (Files m w).

(** A cell read into a field that the dataclass declares [str].  A
    record shorter than the header makes the cell None: Python then
    carries None in the field, or raises AttributeError at [slugify].
    A [Movement] of this model has no None, and the model stops there
    with [NoneCell]: on a catalog with such a record the model says
    nothing about what [load_movements] returns.  A catalog written
    by [append_movement] or [save_movements] has no such record, and
    the results about loaded catalogs are stated for catalogs without
    one. *)
Definition as_str (v : pyval) : prog string :=
  match v with
  | Some s => mret s
  | None => raise NoneCell
  end.

(** The body of [for row in reader] *)
Definition load_row (movements : gmap string Movement) (row : dict_row)
  : prog (gmap string Movement) :=
  mid ← match if_true (row_get row "id") with
        | Some s => mret s
        | None => name ← as_str (row_get_default row "name" ""); mret (slugify name)
        end;
  name ← as_str (row_get_default row "name" "");
  category ← as_str (row_get_default row "category" "");
  default_unit ← as_str (row_get_default row "default_unit" "");
  primary_muscle ← as_str (row_get_default row "primary_muscle" "");
  secondary_muscles ← as_str (row_get_default row "secondary_muscles" "");
  notes ← as_str (row_get_default row "notes" "");
  mret (<[mid := Movement.Build mid name category default_unit primary_muscle
                               secondary_muscles notes]> movements).

Definition load_movements : prog (gmap string Movement) :=
  fs ← get_files;
  match MOVEMENTS_CSV fs with
  | None => mret ∅
  | Some records => for_each load_row (dict_reader records) ∅
  end.

Definition movement_row (m : Movement) : csv_row :=
  [Movement.id m; Movement.name m; Movement.category m;
   Movement.default_unit m; Movement.primary_muscle m;
   Movement.secondary_muscles m; Movement.notes m].

(** [with path.open("a") ...: writer.writerow(row)] on the catalog *)
Definition append_to_movements (row : csv_row) : prog unit :=
  fs ← get_files;
  put_files (Files (Some (default [] (MOVEMENTS_CSV fs) ++ [row])) (WORKOUTS_CSV fs)).

Definition append_movement (m : Movement) : prog unit :=
  _ ← ensure_files_exist;
  movements ← load_movements;
  match movements !! Movement.id m with
  | Some _ => raise (ValueError ("movement id already exists: " +:+ Movement.id m))
  | None => append_to_movements (movement_row m)
  end.

(** ** Ordered dicts

    A Python dict keeps its keys in the order of their first insertion;
    [export_summary] relies on it.  Keys are unique. *)

Abbreviation odict K V := (list (K * V)) (only parsing).

Fixpoint od_mem {K V} `{EqDecision K} (k : K) (d : odict K V) : bool :=
  match d with
  | [] => false
  | (k', _) :: d' => if decide (k = k') then true else od_mem k d'
  end.

(** [d.setdefault(k, v)], for its effect on [d] *)
Definition od_setdefault {K V} `{EqDecision K} (k : K) (v : V) (d : odict K V)
  : odict K V :=
  if od_mem k d then d else d ++ [(k, v)].

(** [d[k] = f(d[k])], the value under [k] changed in place *)
Fixpoint od_alter {K V} `{EqDecision K} (f : V -> V) (k : K) (d : odict K V)
  : odict K V :=
  match d with
  | [] => []
  | (k', v) :: d' =>
      if decide (k = k') then (k', f v) :: d' else (k', v) :: od_alter f k d'
  end.

(** [list(d.values())] *)
Definition od_values {K V} (d : odict K V) : list V := map snd d.

(** ** Time stamps: [datetime.datetime.now().isoformat()] *)

Record datetime := Datetime {
  year : nat; month : nat; day : nat;
  hour : nat; minute : nat; second : nat; microsecond : nat
}.

Fixpoint zeros (n : nat) : string :=
  match n with
  | O => EmptyString
  | S n' => String "0" (zeros n')
  end.

(** ["%0<width>d" % n] *)
Definition pad (width n : nat) : string :=
  let d := str_of_nat n in zeros (width - String.length d) +:+ d.

Definition isoformat (t : datetime) : string :=
  pad 4 (year t) +:+ "-" +:+ pad 2 (month t) +:+ "-" +:+ pad 2 (day t)
  +:+ "T" +:+ pad 2 (hour t) +:+ ":" +:+ pad 2 (minute t) +:+ ":"
  +:+ pad 2 (second t)
  +:+ (match microsecond t with
       | O => ""
       | us => "." +:+ pad 6 us
       end).

(** ** SetRecord and the set log *)

Module SetRecord.
Record t := Build {
  workout_id : string;
  date : string;
  start_time : string;
  movement_id : string;
  movement_name : string;
  set_number : Z;
  set_type : string;
  cluster_id : string;
  reps : option string;
  load : option float;
  unit : string;
  rest_seconds : option Z;
  rpe : option float;
  tags : string;
  notes : string;
  created_at : string
}.

(** [record.created_at = v] *)
Definition set_created_at (v : string) (r : t) : t :=
  Build (workout_id r) (date r) (start_time r) (movement_id r)
        (movement_name r) (set_number r) (set_type r) (cluster_id r)
        (reps r) (load r) (unit r) (rest_seconds r) (rpe r) (tags r)
        (notes r) v.
End SetRecord.
Abbreviation SetRecord := SetRecord.t.

(** [with WORKOUTS_CSV.open("a") ...: writer.writerow(row)] *)
Definition append_to_workouts (row : csv_row) : prog unit :=
  fs ← get_files;
  put_files (Files (MOVEMENTS_CSV fs) (Some (default [] (WORKOUTS_CSV fs) ++ [row]))).

(** ** export_summary *)

Module Summary.
(** The dict [{"workout_id": .., "date": .., "movements": [..]}] *)
Record t := Build {
  workout_id : pyval;
  date : pyval;
  movements : list string
}.

(** [r["movements"].append(d)] *)
Definition add_movement (d : string) (r : t) : t :=
  Build (workout_id r) (date r) (movements r ++ [d]).
End Summary.
Abbreviation Summary := Summary.t.

(** [f"{r.get('movement_name')}:{r.get('set_number')}x{r.get('reps')}@{r.get('load')}"] *)
Definition descriptor (r : dict_row) : string :=
  fmt (row_get r "movement_name") +:+ ":" +:+ fmt (row_get r "set_number")
  +:+ "x" +:+ fmt (row_get r "reps") +:+ "@" +:+ fmt (row_get r "load").

(** [r["workout_id"]] *)
Definition row_workout_id (r : dict_row) : prog pyval :=
  match r !! "workout_id" with
  | Some v => mret v
  | None => raise (KeyError "workout_id")
  end.

(** The body of [for r in reader] *)
Definition summary_step (tmp : odict pyval Summary) (r : dict_row)
  : prog (odict pyval Summary) :=
  wid ← row_workout_id r;
  let tmp := od_setdefault wid
               (Summary.Build wid (row_get_default r "date" "") []) tmp in
  mret (od_alter (Summary.add_movement (descriptor r)) wid tmp).

Definition summary_header : csv_row := ["workout_id"; "date"; "movements_summary"].

(** [";".join(parts)] *)
Definition join (sep : string) (parts : list string) : string :=
  String.concat sep parts.

Definition summary_row (r : Summary) : csv_row :=
  [cell (Summary.workout_id r); cell (Summary.date r);
   join ";" (Summary.movements r)].

(** The file that the path [out] names: the catalog, the log, or a
    file of its own, whose content is not part of [files]. *)
Inductive out_file :=
  | MovementsFile
  | WorkoutsFile
  | OtherFile.

(** The files after [table] was written to [out], made anew. *)
Definition write_at (out : out_file) (table : csv_table) (fs : files) : files :=
  match out with
  | MovementsFile => Files (Some table) (WORKOUTS_CSV fs)
  | WorkoutsFile => Files (MOVEMENTS_CSV fs) (Some table)
  | OtherFile => fs
  end.

(** [with out.open("w") ...: writer.writerow(..) ...] *)
Definition write_file (out : out_file) (table : csv_table) : prog unit :=
  fs ← get_files;
  put_files (write_at out table fs).

(** Returns the count and, with it, what it wrote to [out] (None when
    it wrote nothing).  The log is read to its end before [out] is
    opened. *)
Definition export_summary (out : out_file) : prog (option csv_table * nat) :=
  fs ← get_files;
  match WORKOUTS_CSV fs with
  | None => mret (None, 0)
  | Some records =>
      tmp ← for_each summary_step (dict_reader records) [];
      let rows := od_values tmp in
      let table := summary_header :: map summary_row rows in
      _ ← write_file out table;
      mret (Some table, length rows)
  end.

(** ** The importer *)

(** [text.splitlines()]: [line] is the line being read, [after_cr]
    tells that the character before was a CR, whose LF is not a
    boundary of its own. *)
Fixpoint splitlines_go (after_cr : bool) (line : string) (s : string)
  : list string :=
  match s with
  | EmptyString =>
      match line with EmptyString => [] | _ => [line] end
  | String c s' =>
      if after_cr && Ascii.eqb c "010" then splitlines_go false line s'
      else if is_linebreak c
           then line :: splitlines_go (Ascii.eqb c "013") EmptyString s'
           else splitlines_go false (line +:+ String c EmptyString) s'
  end.

Definition splitlines (s : string) : list string :=
  splitlines_go false EmptyString s.

(** [c in s] *)
Fixpoint str_contains (c : ascii) (s : string) : bool :=
  match s with
  | EmptyString => false
  | String c' s' => Ascii.eqb c' c || str_contains c s'
  end.

(** ["\t" if "\t" in first_line else ","] *)
Definition delimiter_of (first_line : string) : ascii :=
  if str_contains "009" first_line then "009"%char else ","%char.

(** [a or b] where [b] is a [str]. *)
Definition or_str (a : pyval) (b : string) : string :=
  match if_true a with
  | Some s => s
  | None => b
  end.

(** [(row.get("Exercise_Name") or row.get("Exercise Name")
      or row.get("Exercise") or "").strip()] *)
Definition row_name (row : dict_row) : string :=
  strip (or_str (py_or (row_get row "Exercise_Name")
                   (py_or (row_get row "Exercise Name")
                      (row_get row "Exercise"))) "").

(** [any(m.name.lower() == name.lower() for m in existing.values())] *)
Definition name_known (existing : gmap string Movement) (name : string) : bool :=
  existsb (fun kv => String.eqb (lower (Movement.name kv.2)) (lower name))
          (map_to_list existing).

(** [f"{slugify(name)}_{i}"] *)
Definition suffixed (name : string) (i : nat) : string :=
  slugify name +:+ "_" +:+ str_of_nat i.

(** [while mid in existing: i += 1; mid = f"{slugify(name)}_{i}"],
    with [fuel] tests of the loop condition at most. *)
Fixpoint unique_loop (fuel : nat) (existing : gmap string Movement)
    (name : string) (i : nat) (mid : string) : option string :=
  match fuel with
  | O => None
  | S fuel' =>
      match existing !! mid with
      | Some _ => unique_loop fuel' existing name (S i) (suffixed name (S i))
      | None => Some mid
      end
  end.

(** [mid = slugify(name); i = 1; while ...]: the loop with one test
    more than [existing] has keys, which is enough ([unique_id_total]). *)
Definition unique_id (existing : gmap string Movement) (name : string)
  : option string :=
  unique_loop (S (size existing)) existing name 1 (slugify name).

(** ** What the model takes from the libraries

    [float_repr] is the text [csv.writer] writes for a float (its
    [repr]); [csv_reader delimiter lines] is the list of records
    [csv.reader(lines, delimiter=delimiter)] yields. *)
Section Library.
Variable float_repr : float -> string.
Variable csv_reader : ascii -> list string -> csv_table.

Definition set_row (record : SetRecord) : csv_row :=
  [SetRecord.workout_id record;
   SetRecord.date record;
   SetRecord.start_time record;
   SetRecord.movement_id record;
   SetRecord.movement_name record;
   str_of_Z (SetRecord.set_number record);
   SetRecord.set_type record;
   SetRecord.cluster_id record;
   cell (SetRecord.reps record);
   match SetRecord.load record with Some x => float_repr x | None => "" end;
   SetRecord.unit record;
   match SetRecord.rest_seconds record with Some n => str_of_Z n | None => "" end;
   match SetRecord.rpe record with Some x => float_repr x | None => "" end;
   SetRecord.tags record;
   SetRecord.notes record;
   SetRecord.created_at record].

(** [now] is what [datetime.datetime.now()] gives during the call.
    The function changes its argument in place and returns nothing:
    the value returned here is the argument as the call leaves it. *)
Definition append_set_record (now : datetime) (record : SetRecord)
  : prog SetRecord :=
  _ ← ensure_files_exist;
  let record :=
    if truthy (SetRecord.created_at record) then record
    else SetRecord.set_created_at (isoformat now) record in
  _ ← append_to_workouts (set_row record);
  mret record.


(** The body of [for row in reader]; the state of the loop is
    [existing] and [count]. *)
Definition import_row (st : gmap string Movement * nat) (row : dict_row)
  : prog (gmap string Movement * nat) :=
  let '(existing, count) := st in
  let name := row_name row in
  if negb (truthy name) then mret st
  else if name_known existing name then mret st
  else
    match unique_id existing name with
    | None => raise LoopFuel
    | Some mid =>
        let m := Movement.Build mid name
                   (strip (or_str (row_get row "Movement_Group") "")) "" "" "" "" in
        _ ← append_movement m;
        mret (<[mid := m]> existing, S count)
    end.

(** [source] is the text of the file at [path], None when there is
    no such file. *)
Definition import_movements_file (source : option string) : prog nat :=
  match source with
  | None => raise FileNotFoundError
  | Some text =>
      match splitlines text with
      | [] => raise IndexError
      | first_line :: _ =>
          let delimiter := delimiter_of first_line in
          let reader := dict_reader (csv_reader delimiter (splitlines text)) in
          existing ← load_movements;
          st ← for_each import_row reader (existing, 0);
          mret st.2
      end
  end.
End Library.

(** ** save_movements *)

(** [with MOVEMENTS_CSV.open("w") ...]: the file is made anew, the
    header row first, then one row for each movement. *)
Definition save_movements (movs : list Movement) : prog unit :=
  fs ← get_files;
  put_files (Files (Some (movements_header :: map movement_row movs))
                   (WORKOUTS_CSV fs)).

(** ** The catalog in the order of its dict

    [find_movements] and [cmd_add_set] go through
    [movements.values()], in the order in which the keys were first
    put into the dict.  [load_movements_ordered] is the loop of
    [load_movements] with the dict held as an association list in that
    order; [load_movements_ordered_agrees] relates the two. *)

(** [d[k] = v]: a key that is present keeps its place. *)
Fixpoint od_set {K V} `{EqDecision K} (k : K) (v : V) (d : odict K V)
  : odict K V :=
  match d with
  | [] => [(k, v)]
  | (k', v') :: d' =>
      if decide (k = k') then (k, v) :: d' else (k', v') :: od_set k v d'
  end.

(** [d.get(k)] *)
Fixpoint od_get {K V} `{EqDecision K} (k : K) (d : odict K V) : option V :=
  match d with
  | [] => None
  | (k', v) :: d' => if decide (k = k') then Some v else od_get k d'
  end.

(** The [Movement(...)] that the body of the loop of [load_movements]
    makes of a row. *)
Definition read_movement (row : dict_row) : prog Movement :=
  mid ← match if_true (row_get row "id") with
        | Some s => mret s
        | None => name ← as_str (row_get_default row "name" ""); mret (slugify name)
        end;
  name ← as_str (row_get_default row "name" "");
  category ← as_str (row_get_default row "category" "");
  default_unit ← as_str (row_get_default row "default_unit" "");
  primary_muscle ← as_str (row_get_default row "primary_muscle" "");
  secondary_muscles ← as_str (row_get_default row "secondary_muscles" "");
  notes ← as_str (row_get_default row "notes" "");
  mret (Movement.Build mid name category default_unit primary_muscle
                       secondary_muscles notes).

Definition load_movements_ordered : prog (odict string Movement) :=
  fs ← get_files;
  match MOVEMENTS_CSV fs with
  | None => mret []
  | Some records =>
      for_each (fun movements row =>
                  m ← read_movement row;
                  mret (od_set (Movement.id m) m movements))
               (dict_reader records) []
  end.

(** ** find_movements *)

(** [s.startswith(p)] *)
Fixpoint str_prefix (p s : string) : bool :=
  match p, s with
  | EmptyString, _ => true
  | String a p', String b s' => Ascii.eqb a b && str_prefix p' s'
  | String _ _, EmptyString => false
  end.

(** [q in s], for strings *)
Fixpoint str_in (q s : string) : bool :=
  str_prefix q s
  || match s with
     | EmptyString => false
     | String _ s' => str_in q s'
     end.

(** [q in m.name.lower() or q in m.id.lower()] *)
Definition movement_matches (q : string) (m : Movement) : bool :=
  str_in q (lower (Movement.name m)) || str_in q (lower (Movement.id m)).

Definition find_movements (query : string) : prog (list Movement) :=
  let q := lower query in
  movements ← load_movements_ordered;
  mret (List.filter (movement_matches q) (od_values movements)).

(** ** The commands add-movement and add-set

    The arguments are the attributes of the [argparse.Namespace]: an
    option that was not given is None. *)

Module AddMovementArgs.
Record t := Build {
  id : pyval;
  name : string;
  category : pyval;
  default_unit : pyval;
  primary_muscle : pyval;
  secondary_muscles : pyval;
  notes : pyval
}.
End AddMovementArgs.

(** The [Movement] that [cmd_add_movement] builds. *)
Definition movement_of_args (args : AddMovementArgs.t) : Movement :=
  let mid := or_str (AddMovementArgs.id args) (slugify (AddMovementArgs.name args)) in
  Movement.Build mid (AddMovementArgs.name args)
    (or_str (AddMovementArgs.category args) "")
    (or_str (AddMovementArgs.default_unit args) "")
    (or_str (AddMovementArgs.primary_muscle args) "")
    (or_str (AddMovementArgs.secondary_muscles args) "")
    (or_str (AddMovementArgs.notes args) "").

Definition cmd_add_movement (args : AddMovementArgs.t) : prog unit :=
  append_movement (movement_of_args args).

Module AddSetArgs.
Record t := Build {
  workout_id : pyval;
  date : pyval;
  start_time : pyval;
  movement_id : pyval;
  movement_name : pyval;
  set_number : string;
  set_type : pyval;
  cluster_id : pyval;
  reps : pyval;
  load : pyval;
  unit : pyval;
  rest_seconds : pyval;
  rpe : pyval;
  tags : pyval;
  notes : pyval
}.
End AddSetArgs.

(** How [cmd_add_set] ends when it does not raise: it returns, or it
    leaves through [sys.exit(code)]. *)
Inductive finished :=
  | Done
  | Exit (code : Z).

(** [now.date().isoformat()] *)
Definition isodate (t : datetime) : string :=
  pad 4 (year t) +:+ "-" +:+ pad 2 (month t) +:+ "-" +:+ pad 2 (day t).

(** [now.time().strftime("%H:%M:%S")] *)
Definition clock_text (t : datetime) : string :=
  pad 2 (hour t) +:+ ":" +:+ pad 2 (minute t) +:+ ":" +:+ pad 2 (second t).

(** A library call that returns or raises, as a program. *)
Definition call {A} (r : outcome A) : prog A := fun fs => (r, fs).

(** [f(v) if v is not None else None] *)
Definition convert {A} (f : string -> outcome A) (v : pyval) : outcome (option A) :=
  match v with
  | Some s =>
      match f s with
      | Return x => Return (Some x)
      | Raise e => Raise e
      end
  | None => Return None
  end.

(** [next((m for m in movements.values()
           if m.name.lower() == name.lower()), None)] *)
Definition find_by_name (movements : odict string Movement) (name : string)
  : option Movement :=
  List.find (fun m => String.eqb (lower (Movement.name m)) (lower name))
            (od_values movements).

(** The numbers of a set: [set_number], [load], [rest_seconds], [rpe]. *)
Record set_numbers := SetNumbers {
  the_set_number : Z;
  the_load : option float;
  the_rest_seconds : option Z;
  the_rpe : option float
}.

(** What the command takes from the libraries and the environment:
    [py_int] and [py_float] are [int] and [float] on a string, with the
    exception they raise on a string they refuse; [fresh] is
    [str(uuid.uuid4())[:8]]; [now] is [datetime.datetime.now()]. *)
Section AddSet.
Variable float_repr : float -> string.
Variable py_int : string -> outcome Z.
Variable py_float : string -> outcome float.
Variable fresh : string.
Variable now : datetime.

(** The first three [if]s: the movement of the catalog that the
    arguments name, by id or else by name, or else a new one, which is
    appended to the catalog. *)
Definition resolve_movement (args : AddSetArgs.t) : prog (option Movement) :=
  movements ← load_movements_ordered;
  let movement :=
    match if_true (AddSetArgs.movement_id args) with
    | Some mid => od_get mid movements
    | None => None
    end in
  let movement :=
    match movement, if_true (AddSetArgs.movement_name args) with
    | None, Some name => find_by_name movements name
    | _, _ => movement
    end in
  match movement, if_true (AddSetArgs.movement_name args) with
  | None, Some name =>
      let movement := Movement.Build (slugify name) name "" "" "" "" "" in
      _ ← append_movement movement;
      mret (Some movement)
  | _, _ => mret movement
  end.

(** [int(args.set_number)], [float(args.load)], [int(args.rest_seconds)]
    and [float(args.rpe)], in the order in which the arguments of
    [SetRecord(...)] are evaluated. *)
Definition convert_numbers (args : AddSetArgs.t) : outcome set_numbers :=
  match py_int (AddSetArgs.set_number args) with
  | Raise e => Raise e
  | Return set_number =>
      match convert py_float (AddSetArgs.load args) with
      | Raise e => Raise e
      | Return load =>
          match convert py_int (AddSetArgs.rest_seconds args) with
          | Raise e => Raise e
          | Return rest_seconds =>
              match convert py_float (AddSetArgs.rpe args) with
              | Raise e => Raise e
              | Return rpe =>
                  Return (SetNumbers set_number load rest_seconds rpe)
              end
          end
      end
  end.

(** [SetRecord(workout_id=wid, date=args.date or ..., ...)] *)
Definition new_set_record (args : AddSetArgs.t) (movement : Movement)
    (numbers : set_numbers) : SetRecord :=
  SetRecord.Build
    (or_str (AddSetArgs.workout_id args) fresh)
    (or_str (AddSetArgs.date args) (isodate now))
    (or_str (AddSetArgs.start_time args) (clock_text now))
    (Movement.id movement)
    (Movement.name movement)
    (the_set_number numbers)
    (or_str (AddSetArgs.set_type args) "work")
    (or_str (AddSetArgs.cluster_id args) "")
    (Some (cell (AddSetArgs.reps args)))
    (the_load numbers)
    (or_str (AddSetArgs.unit args)
            (or_str (Some (Movement.default_unit movement)) ""))
    (the_rest_seconds numbers)
    (the_rpe numbers)
    (or_str (AddSetArgs.tags args) "")
    (or_str (AddSetArgs.notes args) "")
    (isoformat now).

Definition cmd_add_set (args : AddSetArgs.t) : prog finished :=
  movement ← resolve_movement args;
  match movement with
  | None => mret (Exit 1)
  | Some movement =>
      numbers ← call (convert_numbers args);
      _ ← append_set_record float_repr now (new_set_record args movement numbers);
      mret Done
  end.
End AddSet.

(** The movement that [args.movement_id] names in [movements]. *)
Definition by_id (movements : gmap string Movement) (args : AddSetArgs.t)
  : option Movement :=
  match if_true (AddSetArgs.movement_id args) with
  | Some mid => movements !! mid
  | None => None
  end.

(** ** Instances for the examples

    [csv.reader] on lines that hold no quote character: each line is
    cut at the delimiters, an empty line gives the empty record. *)
Fixpoint split_go (delimiter : ascii) (field : string) (s : string) : csv_row :=
  match s with
  | EmptyString => [field]
  | String c s' =>
      if Ascii.eqb c delimiter then field :: split_go delimiter EmptyString s'
      else split_go delimiter (field +:+ String c EmptyString) s'
  end.

Definition plain_reader (delimiter : ascii) (lines : list string) : csv_table :=
  map (fun line => match line with
                   | EmptyString => []
                   | _ => split_go delimiter EmptyString line
                   end) lines.

(** No file yet. *)
Definition no_files : files := Files None None.

(** The result and the files a program ends with, from [no_files]. *)
Definition run {A} (p : prog A) : outcome A * files := p no_files.

(** The movement of [test_append_and_load_movement]. *)
Definition foo_lift : Movement :=
  Movement.Build "foo" "Foo Lift" "Test" "" "" "" "".

(** A movement whose id is the empty string. *)
Definition unnamed_foo : Movement :=
  Movement.Build "" "Foo" "" "" "" "" "".

(** A log of three sets in two workouts; the third record belongs to
    the first workout and has another date. *)
Definition sample_log : files :=
  Files None
    (Some [workouts_header;
           ["w1"; "2025-01-01"; "12:00:00"; "bar"; "Barbell Press"; "1"; "work";
            ""; "5"; "100.0"; "kg"; ""; ""; ""; ""; "2025-01-01T12:00:00"];
           ["w2"; "2025-01-02"; "09:00:00"; "sq"; "Squat"; "1"; "work";
            ""; "3"; ""; "kg"; ""; ""; ""; ""; "2025-01-02T09:00:00"];
           ["w1"; "2025-01-03"; "12:05:00"; "bar"; "Barbell Press"; "2"; "work";
            ""; "AMRAP"; "90.0"; "kg"; ""; ""; ""; ""; "2025-01-01T12:05:00"]]).

Definition sample_records : csv_table := default [] (WORKOUTS_CSV sample_log).

(** Two calls of [append_set_record], the first with [created_at]
    unset. *)
Definition sample_calls : list (datetime * SetRecord) :=
  [(Datetime 2025 1 1 12 0 0 0,
    SetRecord.Build "w1" "2025-01-01" "12:00:00" "bar" "Barbell Press" 1
      "work" "" (Some "5") None "kg" None None "" "" "");
   (Datetime 2025 1 1 12 5 0 250,
    SetRecord.Build "w1" "2025-01-01" "12:00:00" "bar" "Barbell Press" 2
      "work" "" (Some "AMRAP") None "kg" (Some 90%Z) None "" ""
      "2025-01-01T12:05:00")].

(** A rendering of floats for the examples, none of which has one. *)
Definition no_floats (x : float) : string := "".

Definition tab : string := String "009" EmptyString.
Definition nl : string := String "010" EmptyString.

(** The source of [test_import_movements_file]. *)
Definition snatch_clean_source : string :=
  "Exercise_Name" +:+ tab +:+ "Movement_Group" +:+ nl
  +:+ "Snatch" +:+ tab +:+ "Full Body" +:+ nl
  +:+ "Clean" +:+ tab +:+ "Full Body" +:+ nl.

(** Two names with the slug overhead_press, then a name that differs
    from the first by case only, and a row without a name. *)
Definition overhead_source : string :=
  "Exercise,Movement_Group" +:+ nl
  +:+ "Overhead Press,Push" +:+ nl
  +:+ "Overhead_Press,Push" +:+ nl
  +:+ "OVERHEAD PRESS,Push" +:+ nl
  +:+ ",Pull" +:+ nl.

(** A catalog that holds the movement of the tests. *)
Definition foo_catalog : files :=
  Files (Some [movements_header; movement_row foo_lift]) None.

(** A log whose header lacks the column workout_id. *)
Definition headless_log : files :=
  Files None (Some [["date"; "movement_name"]; ["2025-01-01"; "Squat"]]).

(** A catalog with one movement, Bench Press. *)
Definition bench : Movement :=
  Movement.Build "bench_press" "Bench Press" "Push" "kg" "" "" "".

Definition bench_catalog : files :=
  Files (Some [movements_header; movement_row bench]) None.

(** The arguments of add-set with a movement id, a movement name and a
    set number, five reps, and no other option. *)
Definition set_args (movement_id movement_name : option string)
    (set_number : string) : AddSetArgs.t :=
  AddSetArgs.Build None None None movement_id movement_name set_number
    None None (Some "5") None None None None None None.

(** [int] on the strings of the examples: it agrees with Python on
    "1" and "3" and on the strings that have no digit, which it
    refuses. *)
Definition int_of_examples (s : string) : outcome Z :=
  if String.eqb s "1" then Return 1%Z
  else if String.eqb s "3" then Return 3%Z
  else Raise (ValueError ("invalid literal for int() with base 10: '" +:+ s +:+ "'")).

(** [float] is not called in the examples. *)
Definition float_of_examples (s : string) : outcome float :=
  Raise (ValueError ("could not convert string to float: '" +:+ s +:+ "'")).

(** The arguments of add-movement with a name only. *)
Definition name_only (name : string) : AddMovementArgs.t :=
  AddMovementArgs.Build None name None None None None None.

(** A reading of the clock, and the first characters of a uuid. *)
Definition noon : datetime := Datetime 2025 1 1 12 0 0 0.
Definition some_uuid : string := "1b9d6bcd".

(** One call of [append_set_record] whose reps hold a semicolon. *)
Definition cluster_calls : list (datetime * SetRecord) :=
  [(noon,
    SetRecord.Build "w1" "2025-01-01" "12:00:00" "bar" "Barbell Press" 1
      "work" "" (Some "5;5") None "kg" None None "" "" "")].

(** A catalog with two rows of one id. *)
Definition twice_catalog : files :=
  Files (Some [movements_header;
               ["foo"; "Foo Lift"; "Test"; ""; ""; ""; ""];
               ["bar"; "Bar Lift"; ""; ""; ""; ""; ""];
               ["foo"; "Foo Two"; ""; "kg"; ""; ""; ""]]) None.

(** ** Well-formed files, and what the catalog file holds

    The files this program writes: the header of [ensure_files_exist]
    first, then records that are blank or have a cell for every column
    ([writerow] is always given one cell per column). *)

Definition full_row (n : nat) (r : csv_row) : bool :=
  is_blank r || (n <=? length r)%nat.

Definition table_ok (header : csv_row) (t : option csv_table) : bool :=
  match t with
  | None => true
  | Some [] => false
  | Some (h :: rows) =>
      bool_decide (h = header) && forallb (full_row (length header)) rows
  end.

Definition catalog_ok (fs : files) : bool :=
  table_ok movements_header (MOVEMENTS_CSV fs).

(** The records after the header that are not blank. *)
Definition data_rows (t : csv_table) : list csv_row :=
  filter (fun r => is_blank r = false) (tail t).

(** The Movement that [load_movements] makes of a full record. *)
Definition row_movement (r : csv_row) : Movement :=
  let c i := nth i r EmptyString in
  Movement.Build (if truthy (c 0%nat) then c 0%nat else slugify (c 1%nat))
                 (c 1%nat) (c 2%nat) (c 3%nat) (c 4%nat) (c 5%nat) (c 6%nat).

Definition catalog_of (rows : list csv_row) : gmap string Movement :=
  fold_left (fun acc r => <[Movement.id (row_movement r) := row_movement r]> acc)
            rows ∅.

(** The (field name, cell) pairs of a row, in the order in which
    DictReader puts them into the dict. *)
Definition row_pairs (h r : csv_row) : list (string * pyval) :=
  zip h (map Some r) ++ map (fun k => (k, None)) (drop (length r) h).

(** The files as [ensure_files_exist] leaves them. *)
Definition ensured (fs : files) : files :=
  Files (Some (default [movements_header] (MOVEMENTS_CSV fs)))
        (Some (default [workouts_header] (WORKOUTS_CSV fs))).

(** The key under which [load_movements] files the row of [m]:
    [row.get("id") or slugify(row.get("name", ""))]. *)
Definition loaded_id (m : Movement) : string :=
  if truthy (Movement.id m) then Movement.id m else slugify (Movement.name m).

(** [load_movements] on [fs] returns a mapping that has [m] under
    [m.id]. *)
Definition stored (m : Movement) (fs : files) : Prop :=
  exists movements,
    load_movements fs = (Return movements, fs)
    /\ movements !! Movement.id m = Some m.

(** The error of [append_movement] on an id that is present. *)
Definition DuplicateIdentifier (m : Movement) : exn :=
  ValueError ("movement id already exists: " +:+ Movement.id m).

(** The files after a row for [m] was appended to an existing catalog. *)
Definition with_movement (m : Movement) (fs : files) : files :=
  Files (Some (default [] (MOVEMENTS_CSV fs) ++ [movement_row m])) (WORKOUTS_CSV fs).

(** The record as [append_set_record] leaves it. *)
Definition stamped (now : datetime) (record : SetRecord) : SetRecord :=
  if truthy (SetRecord.created_at record) then record
  else SetRecord.set_created_at (isoformat now) record.

(** ** Summaries, as the specification describes them

    One summary for each workout id, in the order in which the ids
    first occur; its date is that of the first record of the workout,
    its descriptors are those of the records of the workout, in the
    order of the log. *)

(** [r["workout_id"]] on a row that has the column. *)
Definition row_wid (r : dict_row) : pyval := row_get r "workout_id".

Fixpoint first_seen {A} `{EqDecision A} (l : list A) : list A :=
  match l with
  | [] => []
  | x :: l' => x :: filter (fun y => y <> x) (first_seen l')
  end.

Definition group (w : pyval) (rows : list dict_row) : list dict_row :=
  filter (fun r => row_wid r = w) rows.

Definition summary_of (rows : list dict_row) (w : pyval) : Summary :=
  let g := group w rows in
  Summary.Build w
    (match g with r :: _ => row_get_default r "date" "" | [] => None end)
    (map descriptor g).

Definition summarize (rows : list dict_row) : list Summary :=
  map (summary_of rows) (first_seen (map row_wid rows)).

(** The number of descriptors in all the summaries together. *)
Definition descriptor_count (summaries : list Summary) : nat :=
  length (concat (map Summary.movements summaries)).

(** The dict [tmp] that holds [summaries]. *)
Definition keyed (summaries : list Summary) : odict pyval Summary :=
  map (fun s => (Summary.workout_id s, s)) summaries.

(** The body of the loop of [export_summary], on a row that has the
    column workout_id. *)
Definition summary_step_pure (tmp : odict pyval Summary) (r : dict_row)
  : odict pyval Summary :=
  od_alter (Summary.add_movement (descriptor r)) (row_wid r)
    (od_setdefault (row_wid r)
       (Summary.Build (row_wid r) (row_get_default r "date" "") []) tmp).

(** [for (now, record) in calls: append_set_record(record)], each call
    with its own reading of the clock. *)
Definition append_set_records (float_repr : float -> string)
    (calls : list (datetime * SetRecord)) : prog unit :=
  for_each (fun _ call => _ ← append_set_record float_repr call.1 call.2; mret tt)
           calls tt.

(** The header of the table has a column [k]. *)
Definition has_column (k : string) (records : csv_table) : bool :=
  bool_decide (k ∈ hd [] records).

(** The log holds no record yet: there is no file, or the header only. *)
Definition log_empty (fs : files) : bool :=
  match WORKOUTS_CSV fs with
  | None => true
  | Some t => bool_decide (t = [workouts_header])
  end.

(** The text [csv.writer] writes for [record.load]. *)
Definition load_text (float_repr : float -> string) (record : SetRecord) : string :=
  match SetRecord.load record with Some x => float_repr x | None => "" end.

(** [summaries] groups [rows] by workout id: the ids in the order in
    which they first occur, each once; for each, the date of its first
    row and the descriptors of its rows in the order of [rows]. *)
Definition groups_by_workout (rows : list dict_row) (summaries : list Summary)
  : Prop :=
  map Summary.workout_id summaries = first_seen (map row_wid rows)
  /\ NoDup (map Summary.workout_id summaries)
  /\ (forall w, w ∈ map Summary.workout_id summaries <-> w ∈ map row_wid rows)
  /\ forall s, s ∈ summaries ->
       exists r0 g,
         filter (fun r => row_wid r = Summary.workout_id s) rows = r0 :: g
         /\ Summary.date s = row_get_default r0 "date" ""
         /\ Summary.movements s = map descriptor (r0 :: g).

(** ** The ids an import run gives

    The [i]-th id that the loop of [import_movements_file] tries for
    [name]: the slug, then the slug with the suffixes _2, _3, ... *)
Definition candidate (name : string) (i : nat) : string :=
  match i with
  | 1%nat => slugify name
  | _ => suffixed name i
  end.

(** [mid] is the first of the candidates for [name] that is not a key
    of [existing]. *)
Definition first_free (existing : gmap string Movement) (name mid : string)
  : Prop :=
  exists i,
    (1 <= i)%nat
    /\ mid = candidate name i
    /\ existing !! mid = None
    /\ forall j, (1 <= j < i)%nat -> is_Some (existing !! candidate name j).

(** Every exception that [p] can raise is one of [P]. *)
Definition raises_in (P : exn -> Prop) {A} (p : prog A) : Prop :=
  forall fs e fs', p fs = (Raise e, fs') -> P e.

(** The exceptions of the catalog: a duplicate id, a None cell, and
    the model's own [LoopFuel]. *)
Definition store_exn (e : exn) : Prop :=
  match e with
  | ValueError _ | NoneCell | LoopFuel => True
  | _ => False
  end.

(** ** The rows of an import run that create a movement *)

(** The names in the snapshot [existing]. *)
Definition catalog_names (existing : gmap string Movement) : list string :=
  map (fun kv => Movement.name kv.2) (map_to_list existing).

(** [n.lower() == name.lower()] *)
Definition same_name (name n : string) : bool :=
  String.eqb (lower n) (lower name).

(** The row yields a name, and no known name is the same but for case. *)
Definition creates (known : list string) (row : dict_row) : bool :=
  truthy (row_name row) && negb (existsb (same_name (row_name row)) known).

(** The rows that create a movement, [known] being the names of the
    snapshot before the first row; the name of a creating row is known
    to the rows after it. *)
Fixpoint creating_rows (known : list string) (rows : list dict_row)
  : list dict_row :=
  match rows with
  | [] => []
  | row :: rows' =>
      if creates known row
      then row :: creating_rows (row_name row :: known) rows'
      else creating_rows known rows'
  end.

(** [Movement(id=mid, name=name, category=...)] for a row. *)
Definition new_movement (mid : string) (row : dict_row) : Movement :=
  Movement.Build mid (row_name row)
    (strip (or_str (row_get row "Movement_Group") "")) "" "" "" "".

(** The snapshot after the movements [created] were added to it. *)
Definition add_all (existing : gmap string Movement) (created : list Movement)
  : gmap string Movement :=
  fold_left (fun e m => <[Movement.id m := m]> e) created existing.

(** Each of [created], in turn, has for id the first candidate for its
    name that is free in the snapshot it met: [existing] and the
    movements created before it. *)
Fixpoint ids_resolved (existing : gmap string Movement) (created : list Movement)
  : Prop :=
  match created with
  | [] => True
  | m :: ms =>
      first_free existing (Movement.name m) (Movement.id m)
      /\ ids_resolved (<[Movement.id m := m]> existing) ms
  end.

(** The catalog file after rows for [created] were appended to it. *)
Definition catalog_with (created : list Movement) (fs : files)
  : option csv_table :=
  match created with
  | [] => MOVEMENTS_CSV fs
  | _ => Some (default [movements_header] (MOVEMENTS_CSV fs)
               ++ map movement_row created)
  end.


(** * Definitions for the further properties *)

(** Every entry of a loaded catalog stands under its own id, which is
    the key its row is filed under. *)
Definition keyed_by_id (movements : gmap string Movement) : Prop :=
  map_Forall (fun k m => Movement.id m = k /\ loaded_id m = k) movements.

(** The movement that [load_movements] makes of the row that
    [append_movement] writes for [m]. *)
Definition as_loaded (m : Movement) : Movement :=
  Movement.Build (loaded_id m) (Movement.name m) (Movement.category m)
    (Movement.default_unit m) (Movement.primary_muscle m)
    (Movement.secondary_muscles m) (Movement.notes m).

(** The characters from which [slugify] makes a character of the slug:
    the alphanumeric ones, the underscore and the SPACE. *)
Definition slug_source (c : ascii) : bool :=
  isalnum c || Ascii.eqb c "_" || Ascii.eqb c " ".


(** The movement that [cmd_add_set] makes of a name it does not know:
    [Movement(id=slugify(name), name=name)]. *)
Definition movement_named (name : string) : Movement :=
  Movement.Build (slugify name) name "" "" "" "" "".

(** ** The name of a row, as the specification describes it

    The accepted header aliases, in their order of priority. *)
Definition name_aliases : list string :=
  ["Exercise_Name"; "Exercise Name"; "Exercise"].

(** The cell of [row] under [key], when there is one and it is not
    empty. *)
Definition filled (row : dict_row) (key : string) : option string :=
  match row !! key with
  | Some (Some (String c s)) => Some (String c s)
  | _ => None
  end.

(** The name that a row yields: the cell under the first alias that
    has one, trimmed; the empty string when no alias has a cell. *)
Definition resolved_name (row : dict_row) : string :=
  match omap (filled row) name_aliases with
  | s :: _ => strip s
  | [] => EmptyString
  end.

(** ** The written summary, as the specification counts it *)

(** [field.split(sep)] for a separator of one character. *)
Definition str_split (sep : ascii) (field : string) : list string :=
  split_go sep EmptyString field.

(** The descriptor tokens of a written summary table: the fields
    movements_summary of its rows, each cut at the semicolons. *)
Definition summary_tokens (table : csv_table) : list string :=
  concat (map (fun row => str_split ";" (nth 2 row EmptyString)) (tail table)).

(** The free text of the descriptor of [record] (the name, the reps
    and the text of the load) holds no semicolon. *)
Definition descriptor_plain (float_repr : float -> string) (record : SetRecord)
  : bool :=
  negb (str_contains ";" (SetRecord.movement_name record))
  && negb (str_contains ";" (cell (SetRecord.reps record)))
  && negb (str_contains ";" (load_text float_repr record)).

(** ** The rows of the catalog under one key *)

(** The movements that [load_movements] makes of [rows] and files
    under [k], in the order of the rows. *)
Definition filed_under (k : string) (rows : list csv_row) : list Movement :=
  filter (fun m => Movement.id m = k) (map row_movement rows).
(** The character tables, checked against the lists Python gives. *)
Example isspace_table :
  map code (filter (fun c => isspace c = true) all_chars)
  = [9; 10; 11; 12; 13; 28; 29; 30; 31; 32; 133; 160]%N.
Proof. vm_compute. reflexivity. Qed.

Example slugify_overhead : slugify "  Overhead Press " = "overhead_press".
Proof. vm_compute. reflexivity. Qed.

Example isalnum_table :
  map code (filter (fun c => isalnum c = true) all_chars)
  = [48; 49; 50; 51; 52; 53; 54; 55; 56; 57]%N
    ++ map N.of_nat (seq 65 26) ++ map N.of_nat (seq 97 26)
    ++ [170; 178; 179; 181; 185; 186; 188; 189; 190]%N
    ++ map N.of_nat (seq 192 23) ++ map N.of_nat (seq 216 31)
    ++ map N.of_nat (seq 248 8).
Proof. vm_compute. reflexivity. Qed.

Example lower_table :
  map (fun c => (code c, code (lower_char c)))
      (filter (fun c => lower_char c <> c) all_chars)
  = map (fun n => (N.of_nat n, N.of_nat (n + 32)))
        (seq 65 26 ++ seq 192 23 ++ seq 216 7).
Proof. vm_compute. reflexivity. Qed.

Example slugify_punct : slugify "Push-Up (Wide)!" = "pushup_wide".
Proof. vm_compute. reflexivity. Qed.

Example slugify_two_spaces : slugify "a  b" = "a__b".
Proof. vm_compute. reflexivity. Qed.

Example slugify_tab : slugify (String "a" (String "009" "b")) = "ab".
Proof. vm_compute. reflexivity. Qed.

(** ** Facts on characters, by inspection of the 256 code points *)

Ltac each_char c := destruct c as [[] [] [] [] [] [] [] []]; vm_compute.

Lemma lower_char_isspace c : isspace (lower_char c) = isspace c.
Proof. each_char c; reflexivity. Qed.

Lemma slug_char_not_space c : slug_char c = true -> isspace c = false.
Proof. each_char c; congruence. Qed.

Lemma slug_char_not_blank c : slug_char c = true -> Ascii.eqb c " " = false.
Proof. each_char c; congruence. Qed.

(** What survives the filter of [slugify] is already lower-case. *)
Lemma slug_char_lowered c :
  let d := if Ascii.eqb (lower_char c) " " then "_"%char else lower_char c in
  slug_char d = true -> lower_char d = d.
Proof. each_char c; congruence. Qed.

(** ** Facts on the string functions *)

Lemma str_take_length n s : String.length (str_take n s) <= n.
Proof.
  revert s; induction n as [|n IH]; intros [|c s]; simpl; try lia.
  specialize (IH s). lia.
Qed.

Lemma str_take_all n s : String.length s <= n -> str_take n s = s.
Proof.
  revert s; induction n as [|n IH]; intros [|c s]; simpl; intros H;
    try reflexivity; try lia.
  f_equal. apply IH. lia.
Qed.

Lemma str_forall_take p n s :
  str_forall p s = true -> str_forall p (str_take n s) = true.
Proof.
  revert s; induction n as [|n IH]; intros [|c s]; simpl; trivial.
  intros [Hc Hs]%andb_prop. rewrite Hc. simpl. auto.
Qed.

Lemma str_forall_filter p q s :
  (forall c, q c = true -> p c = true) ->
  str_forall p (str_filter q s) = true.
Proof.
  intros Hpq. induction s as [|c s IH]; simpl; trivial.
  destruct (q c) eqn:Hq; simpl; trivial.
  rewrite (Hpq c Hq). exact IH.
Qed.

Lemma str_forall_impl p q s :
  (forall c, p c = true -> q c = true) ->
  str_forall p s = true -> str_forall q s = true.
Proof.
  intros Hpq. induction s as [|c s IH]; simpl; trivial.
  intros [Hc Hs]%andb_prop. rewrite (Hpq c Hc). simpl. auto.
Qed.

Lemma str_filter_all p s : str_forall p s = true -> str_filter p s = s.
Proof.
  induction s as [|c s IH]; simpl; trivial.
  intros [Hc Hs]%andb_prop. rewrite Hc. f_equal. auto.
Qed.

Lemma str_map_id f s :
  str_forall (fun c => Ascii.eqb (f c) c) s = true -> str_map f s = s.
Proof.
  induction s as [|c s IH]; simpl; trivial.
  intros [Hc Hs]%andb_prop. apply Ascii.eqb_eq in Hc. rewrite Hc.
  f_equal. auto.
Qed.

Lemma str_filter_map_forall p q f s :
  (forall c, q (f c) = true -> p (f c) = true) ->
  str_forall p (str_filter q (str_map f s)) = true.
Proof.
  intros H. induction s as [|c s IH]; simpl; trivial.
  destruct (q (f c)) eqn:Hq; simpl; trivial.
  rewrite (H c Hq). exact IH.
Qed.

Lemma str_map_map f g s : str_map f (str_map g s) = str_map (fun c => f (g c)) s.
Proof. induction s as [|c s IH]; simpl; congruence. Qed.

Lemma lstrip_none s :
  str_forall (fun c => negb (isspace c)) s = true -> lstrip s = s.
Proof.
  destruct s as [|c s]; simpl; trivial.
  intros [Hc _]%andb_prop. apply negb_true_iff in Hc. now rewrite Hc.
Qed.

Lemma rstrip_none s :
  str_forall (fun c => negb (isspace c)) s = true -> rstrip s = s.
Proof.
  induction s as [|c s IH]; simpl; trivial.
  intros [Hc Hs]%andb_prop. apply negb_true_iff in Hc.
  rewrite (IH Hs), Hc. now destruct s.
Qed.

Lemma strip_none s :
  str_forall (fun c => negb (isspace c)) s = true -> strip s = s.
Proof. intros H. unfold strip. rewrite (lstrip_none s H). now apply rstrip_none. Qed.

Lemma lstrip_map f s :
  (forall c, isspace (f c) = isspace c) ->
  lstrip (str_map f s) = str_map f (lstrip s).
Proof.
  intros Hf. induction s as [|c s IH]; simpl; trivial.
  rewrite Hf. now destruct (isspace c).
Qed.

Lemma rstrip_map f s :
  (forall c, isspace (f c) = isspace c) ->
  rstrip (str_map f s) = str_map f (rstrip s).
Proof.
  intros Hf. induction s as [|c s IH]; simpl; trivial.
  rewrite IH, Hf. destruct (rstrip s); simpl; trivial.
  now destruct (isspace c).
Qed.

Lemma strip_lower s : strip (lower s) = lower (strip s).
Proof.
  unfold strip, lower.
  rewrite lstrip_map, rstrip_map by apply lower_char_isspace. reflexivity.
Qed.

Lemma collapse_single_spaced b s :
  single_spaced b s = true -> collapse_ws b s = replace_char " " "_" s.
Proof.
  unfold replace_char.
  revert b; induction s as [|c s IH]; intros b; simpl; trivial.
  destruct (isspace c) eqn:Hsp.
  - intros [[Hc Hb]%andb_prop Hs]%andb_prop.
    apply negb_true_iff in Hb. subst b. rewrite Hc. f_equal. now apply IH.
  - intros Hs. replace (Ascii.eqb c " ") with false.
    + f_equal. now apply IH.
    + symmetry. apply not_true_is_false. intros ->%Ascii.eqb_eq. discriminate.
Qed.

Lemma slugify_settled name : str_forall settled (slugify name) = true.
Proof.
  unfold slugify, replace_char, lower. apply str_forall_take.
  rewrite str_map_map. apply str_filter_map_forall.
  intros c Hc. unfold settled. rewrite Hc. simpl.
  apply Ascii.eqb_eq. now apply slug_char_lowered.
Qed.

Lemma slugify_length name : String.length (slugify name) <= 40.
Proof. apply str_take_length. Qed.

Lemma slugify_fixed s :
  str_forall settled s = true -> String.length s <= 40 -> slugify s = s.
Proof.
  intros Hs Hlen. unfold slugify, replace_char, lower.
  rewrite strip_none.
  2:{ revert Hs. apply str_forall_impl. intros c [Hc _]%andb_prop.
      now rewrite (slug_char_not_space c Hc). }
  rewrite str_map_map, str_map_id.
  2:{ revert Hs. apply str_forall_impl. intros c [Hc Hl]%andb_prop.
      apply Ascii.eqb_eq in Hl. rewrite Hl, (slug_char_not_blank c Hc).
      apply Ascii.eqb_refl. }
  rewrite str_filter_all.
  2:{ revert Hs. apply str_forall_impl. now intros c [Hc _]%andb_prop. }
  now apply str_take_all.
Qed.

(** ** Programs *)

Ltac prog_unfold :=
  unfold mbind, prog_bind, mret, prog_ret, raise, get_files, put_files in *.

Lemma bind_return {A B} (c : prog A) (k : A -> prog B) fs a fs' :
  c fs = (Return a, fs') -> (c ≫= k) fs = k a fs'.
Proof. intros H. prog_unfold. now rewrite H. Qed.

Lemma bind_raise {A B} (c : prog A) (k : A -> prog B) fs e fs' :
  c fs = (Raise e, fs') -> (c ≫= k) fs = (Raise e, fs').
Proof. intros H. prog_unfold. now rewrite H. Qed.

Lemma for_each_app {A S} (body : S -> A -> prog S) xs ys acc fs :
  for_each body (xs ++ ys) acc fs
  = (for_each body xs acc ≫= for_each body ys) fs.
Proof.
  revert acc fs. induction xs as [|x xs IH]; intros acc fs; simpl.
  - reflexivity.
  - prog_unfold. destruct (body acc x fs) as [[acc'|e] fs']; [apply IH | reflexivity].
Qed.

(** ** DictReader rows *)

Lemma fold_left_insert_pairs (kvs : list (string * pyval)) (d : dict_row) :
  fold_left (fun d kv => <[kv.1 := kv.2]> d) kvs d
  = foldr (fun kv d => <[kv.1 := kv.2]> d) d (reverse kvs).
Proof.
  revert d. induction kvs as [|kv kvs IH]; intros d; simpl; [reflexivity|].
  rewrite IH, reverse_cons, foldr_app. reflexivity.
Qed.

Lemma mk_dict_row_pairs h r :
  mk_dict_row h r = list_to_map (reverse (row_pairs h r)).
Proof.
  unfold mk_dict_row, dict_of_pairs, row_pairs.
  rewrite reverse_app.
  assert (Hnone : forall ks (d : dict_row),
    fold_left (fun d key => <[key := None]> d) ks d
    = fold_left (fun d (kv : string * pyval) => <[kv.1 := kv.2]> d)
                (map (fun k => (k, None)) ks) d).
  { induction ks as [|k ks IH]; intros d; simpl; [reflexivity | apply IH]. }
  rewrite Hnone, !fold_left_insert_pairs.
  unfold list_to_map. rewrite foldr_app. reflexivity.
Qed.

Lemma row_pairs_keys h r : (row_pairs h r).*1 = h.
Proof.
  unfold row_pairs. rewrite fmap_app.
  assert (H1 : forall (ks : csv_row) (vs : list pyval),
             (zip ks vs).*1 = take (length vs) ks).
  { induction ks as [|k ks IH]; intros [|v vs]; simpl; try reflexivity.
    f_equal. apply IH. }
  rewrite H1, length_map.
  assert (H2 : forall ks : list string,
             (map (fun k => (k, @None string)) ks).*1 = ks).
  { induction ks as [|k ks IH]; simpl; [reflexivity | f_equal; exact IH]. }
  rewrite H2. apply take_drop.
Qed.

Lemma lookup_map {A B} (f : A -> B) (l : list A) i :
  map f l !! i = f <$> (l !! i).
Proof. revert i. induction l as [|x l IH]; intros [|i]; simpl; auto. Qed.

Lemma row_pairs_lookup h r i k :
  h !! i = Some k -> row_pairs h r !! i = Some (k, r !! i).
Proof.
  unfold row_pairs. revert r i.
  induction h as [|k' h IH]; intros r i Hi; [discriminate|].
  destruct r as [|c r].
  - change (map (fun k => (k, @None string)) (k' :: h) !! i = Some (k, None)).
    now rewrite lookup_map, Hi.
  - destruct i as [|i]; simpl in *.
    + now inversion Hi.
    + apply IH, Hi.
Qed.

(** A cell read by field name: the cell in the column of that name. *)
Lemma mk_dict_row_lookup h r i k :
  NoDup h -> h !! i = Some k -> mk_dict_row h r !! k = Some (r !! i).
Proof.
  intros Hnd Hi. rewrite mk_dict_row_pairs.
  apply elem_of_list_to_map.
  - rewrite fmap_reverse, row_pairs_keys. now rewrite reverse_Permutation.
  - rewrite elem_of_reverse. apply list_elem_of_lookup.
    exists i. now apply row_pairs_lookup.
Qed.

Lemma mk_dict_row_absent h r k :
  k ∉ h -> mk_dict_row h r !! k = None.
Proof.
  intros Hk. rewrite mk_dict_row_pairs.
  apply not_elem_of_list_to_map.
  now rewrite fmap_reverse, elem_of_reverse, row_pairs_keys.
Qed.

Lemma mk_dict_row_present h r k :
  k ∈ h -> is_Some (mk_dict_row h r !! k).
Proof.
  intros Hk. rewrite mk_dict_row_pairs.
  apply not_eq_None_Some. intros Hnone.
  apply not_elem_of_list_to_map in Hnone.
  now rewrite fmap_reverse, elem_of_reverse, row_pairs_keys in Hnone.
Qed.

(** ** The catalog *)

Lemma movements_header_NoDup : NoDup movements_header.
Proof. apply (bool_decide_unpack _). vm_compute. exact I. Qed.

Lemma workouts_header_NoDup : NoDup workouts_header.
Proof. apply (bool_decide_unpack _). vm_compute. exact I. Qed.

Lemma full_row_cells r :
  is_blank r = false -> full_row 7 r = true ->
  exists c0 c1 c2 c3 c4 c5 c6 rest, r = c0 :: c1 :: c2 :: c3 :: c4 :: c5 :: c6 :: rest.
Proof.
  unfold full_row. intros -> Hlen. rewrite orb_false_l in Hlen.
  apply Nat.leb_le in Hlen.
  do 7 (destruct r as [|? r]; [simpl in Hlen; lia|]). eauto 10.
Qed.

Ltac header_cell i k :=
  rewrite (mk_dict_row_lookup movements_header _ i k movements_header_NoDup eq_refl).

Lemma load_row_full movements r fs :
  is_blank r = false -> full_row 7 r = true ->
  load_row movements (mk_dict_row movements_header r) fs
  = (Return (<[Movement.id (row_movement r) := row_movement r]> movements), fs).
Proof.
  intros Hb Hf.
  destruct (full_row_cells r Hb Hf) as (c0 & c1 & c2 & c3 & c4 & c5 & c6 & rest & ->).
  unfold load_row, row_get, row_get_default.
  header_cell 0%nat "id". header_cell 1%nat "name". header_cell 2%nat "category".
  header_cell 3%nat "default_unit". header_cell 4%nat "primary_muscle".
  header_cell 5%nat "secondary_muscles". header_cell 6%nat "notes".
  unfold row_movement, if_true. simpl. now destruct (truthy c0).
Qed.

Lemma data_rows_full header h rows :
  table_ok header (Some (h :: rows)) = true ->
  Forall (fun r => is_blank r = false /\ full_row (length header) r = true)
         (data_rows (h :: rows)).
Proof.
  simpl. intros [_ Hall]%andb_prop. unfold data_rows. simpl.
  rewrite forallb_forall in Hall. apply Forall_forall.
  intros r [Hb Hr%list_elem_of_In]%list_elem_of_filter. auto.
Qed.

Lemma dict_reader_rows h rows :
  dict_reader (h :: rows) = map (mk_dict_row h) (data_rows (h :: rows)).
Proof. reflexivity. Qed.

(** Reading a well-formed catalog neither fails nor writes, and gives
    the fold of its records. *)
Lemma load_movements_ok fs :
  catalog_ok fs = true ->
  load_movements fs
  = (Return (catalog_of (data_rows (default [] (MOVEMENTS_CSV fs)))), fs).
Proof.
  unfold catalog_ok, load_movements. prog_unfold.
  destruct (MOVEMENTS_CSV fs) as [[|h rows]|] eqn:Hm; simpl; try discriminate;
    [|reflexivity].
  intros Hok. pose proof (data_rows_full _ _ _ Hok) as Hfull.
  apply andb_prop in Hok as [->%bool_decide_eq_true _].
  change (filter _ rows) with (data_rows (movements_header :: rows)).
  unfold catalog_of.
  generalize dependent (data_rows (movements_header :: rows)).
  intros l Hfull. generalize (∅ : gmap string Movement).
  induction Hfull as [|r l [Hb Hf] _ IH]; intros acc; simpl; [reflexivity|].
  prog_unfold. rewrite (load_row_full acc r fs Hb Hf). apply IH.
Qed.

Lemma ensure_files_exist_run fs :
  ensure_files_exist fs = (Return (), ensured fs).
Proof.
  unfold ensure_files_exist, ensured. prog_unfold.
  now destruct (MOVEMENTS_CSV fs), (WORKOUTS_CSV fs).
Qed.

Lemma ensured_catalog_ok fs : catalog_ok fs = true -> catalog_ok (ensured fs) = true.
Proof. unfold catalog_ok, ensured. simpl. now destruct (MOVEMENTS_CSV fs). Qed.

Lemma ensured_data_rows fs :
  data_rows (default [] (MOVEMENTS_CSV (ensured fs)))
  = data_rows (default [] (MOVEMENTS_CSV fs)).
Proof. unfold ensured. simpl. now destruct (MOVEMENTS_CSV fs). Qed.

Lemma catalog_of_snoc rows r :
  catalog_of (rows ++ [r])
  = <[Movement.id (row_movement r) := row_movement r]> (catalog_of rows).
Proof. unfold catalog_of. now rewrite fold_left_app. Qed.

Lemma data_rows_snoc h rows r :
  is_blank r = false ->
  data_rows ((h :: rows) ++ [r]) = data_rows (h :: rows) ++ [r].
Proof.
  intros Hr. unfold data_rows. simpl. rewrite filter_app. f_equal.
  rewrite filter_cons. now destruct (decide (is_blank r = false)).
Qed.

Lemma row_movement_of_movement m :
  row_movement (movement_row m)
  = Movement.Build (if truthy (Movement.id m) then Movement.id m
                    else slugify (Movement.name m))
      (Movement.name m) (Movement.category m) (Movement.default_unit m)
      (Movement.primary_muscle m) (Movement.secondary_muscles m)
      (Movement.notes m).
Proof. reflexivity. Qed.

Lemma row_movement_named m :
  loaded_id m = Movement.id m -> row_movement (movement_row m) = m.
Proof.
  unfold loaded_id. intros Hid. rewrite row_movement_of_movement, Hid.
  now destruct m.
Qed.

Lemma loaded_id_named m : Movement.id m <> EmptyString -> loaded_id m = Movement.id m.
Proof. unfold loaded_id. now destruct (Movement.id m). Qed.

Lemma loaded_id_no_slug m :
  slugify (Movement.name m) = EmptyString -> loaded_id m = Movement.id m.
Proof. unfold loaded_id. intros ->. now destruct (Movement.id m). Qed.

Lemma with_movement_ok m fs :
  catalog_ok (ensured fs) = true ->
  catalog_ok (with_movement m (ensured fs)) = true.
Proof.
  unfold catalog_ok, with_movement, ensured, table_ok. simpl.
  destruct (MOVEMENTS_CSV fs) as [[|h rows]|]; simpl; try discriminate.
  - intros [-> Hall]%andb_prop. simpl. rewrite forallb_app, Hall. reflexivity.
  - intros _. reflexivity.
Qed.

Lemma with_movement_rows m fs :
  catalog_ok (ensured fs) = true ->
  data_rows (default [] (MOVEMENTS_CSV (with_movement m (ensured fs))))
  = data_rows (default [] (MOVEMENTS_CSV fs)) ++ [movement_row m].
Proof.
  unfold catalog_ok, with_movement, ensured, table_ok. simpl.
  destruct (MOVEMENTS_CSV fs) as [[|h rows]|]; simpl; try discriminate; intros _.
  - now apply data_rows_snoc.
  - reflexivity.
Qed.

(** What [append_movement] does on a well-formed catalog. *)
Lemma append_movement_run m fs :
  catalog_ok fs = true ->
  append_movement m fs
  = match catalog_of (data_rows (default [] (MOVEMENTS_CSV fs))) !! Movement.id m with
    | Some _ => (Raise (DuplicateIdentifier m), ensured fs)
    | None => (Return (), with_movement m (ensured fs))
    end.
Proof.
  intros Hok. unfold append_movement.
  rewrite (bind_return _ _ _ _ _ (ensure_files_exist_run fs)).
  rewrite (bind_return _ _ _ _ _ (load_movements_ok _ (ensured_catalog_ok fs Hok))).
  rewrite ensured_data_rows.
  now destruct (catalog_of _ !! Movement.id m).
Qed.

Lemma load_after_append m fs :
  catalog_ok fs = true ->
  load_movements (with_movement m (ensured fs))
  = (Return (<[Movement.id (row_movement (movement_row m))
               := row_movement (movement_row m)]>
               (catalog_of (data_rows (default [] (MOVEMENTS_CSV fs))))),
     with_movement m (ensured fs)).
Proof.
  intros Hok. pose proof (ensured_catalog_ok fs Hok) as Hok'.
  rewrite (load_movements_ok _ (with_movement_ok m fs Hok')).
  now rewrite (with_movement_rows m fs Hok'), catalog_of_snoc.
Qed.

(** ** The set log *)

Lemma append_nonempty a c b : a +:+ String c b <> EmptyString.
Proof. now destruct a. Qed.

Lemma isoformat_nonempty t : isoformat t <> EmptyString.
Proof. unfold isoformat. apply append_nonempty. Qed.

(** The files after [row] was appended to the log. *)
Lemma append_to_workouts_run row fs :
  append_to_workouts row fs
  = (Return (), Files (MOVEMENTS_CSV fs)
                      (Some (default [] (WORKOUTS_CSV fs) ++ [row]))).
Proof. reflexivity. Qed.

Lemma append_set_record_run float_repr now record fs :
  append_set_record float_repr now record fs
  = (Return (stamped now record),
     Files (MOVEMENTS_CSV (ensured fs))
           (Some (default [workouts_header] (WORKOUTS_CSV fs)
                  ++ [set_row float_repr (stamped now record)]))).
Proof.
  unfold append_set_record.
  rewrite (bind_return _ _ _ _ _ (ensure_files_exist_run fs)).
  reflexivity.
Qed.

(** ** Summaries *)

Lemma summary_step_run tmp r fs :
  is_Some (r !! "workout_id") ->
  summary_step tmp r fs = (Return (summary_step_pure tmp r), fs).
Proof.
  intros [v Hv]. unfold summary_step, summary_step_pure, row_workout_id,
    row_wid, row_get.
  rewrite Hv. reflexivity.
Qed.

Lemma first_seen_elem {A} `{EqDecision A} (l : list A) x :
  x ∈ first_seen l <-> x ∈ l.
Proof.
  induction l as [|y l IH]; simpl; [reflexivity|].
  rewrite !elem_of_cons, list_elem_of_filter, IH.
  destruct (decide (x = y)); tauto.
Qed.

Lemma first_seen_NoDup {A} `{EqDecision A} (l : list A) : NoDup (first_seen l).
Proof.
  induction l as [|y l IH]; simpl; [constructor|].
  constructor.
  - rewrite list_elem_of_filter. intros [Hy _]. now apply Hy.
  - now apply NoDup_filter.
Qed.

Lemma filter_all {A} (P : A -> Prop) `{forall x, Decision (P x)} (l : list A) :
  Forall P l -> filter P l = l.
Proof.
  induction 1 as [|x l Hx _ IH]; [reflexivity|].
  rewrite filter_cons. destruct (decide (P x)); [now rewrite IH | contradiction].
Qed.

Lemma first_seen_snoc {A} `{EqDecision A} (l : list A) x :
  first_seen (l ++ [x])
  = if decide (x ∈ l) then first_seen l else first_seen l ++ [x].
Proof.
  induction l as [|y l IH]; simpl.
  - destruct (decide (x ∈ [])) as [Hin|_]; [inversion Hin | reflexivity].
  - rewrite IH. destruct (decide (x = y)) as [->|Hne].
    + rewrite (decide_True (P := y ∈ y :: l)) by apply list_elem_of_here.
      destruct (decide (y ∈ l)); [reflexivity|].
      rewrite filter_app, filter_cons, decide_False by (intros Hc; now apply Hc).
      now rewrite filter_nil, app_nil_r.
    + destruct (decide (x ∈ l)) as [Hin|Hnin].
      * rewrite (decide_True (P := x ∈ y :: l)) by now apply list_elem_of_further.
        reflexivity.
      * rewrite (decide_False (P := x ∈ y :: l)).
        2:{ rewrite elem_of_cons. tauto. }
        rewrite filter_app, filter_cons, decide_True by done. reflexivity.
Qed.

Lemma group_snoc w rows r :
  group w (rows ++ [r])
  = group w rows ++ (if decide (row_wid r = w) then [r] else []).
Proof.
  unfold group. rewrite filter_app, filter_cons.
  now destruct (decide (row_wid r = w)).
Qed.

Lemma group_nonempty w rows : w ∈ map row_wid rows -> group w rows <> [].
Proof.
  intros Hin Hnil. revert Hin. unfold group in Hnil.
  induction rows as [|r rows IH]; simpl; [inversion 1|].
  rewrite filter_cons in Hnil.
  destruct (decide (row_wid r = w)); [discriminate|].
  rewrite elem_of_cons. intros [Heq|Hin]; [congruence | now apply IH].
Qed.

Lemma summary_of_other rows r w :
  row_wid r <> w -> summary_of (rows ++ [r]) w = summary_of rows w.
Proof.
  intros Hne. unfold summary_of. rewrite group_snoc.
  rewrite decide_False by exact Hne. now rewrite app_nil_r.
Qed.

Lemma summary_of_same rows r :
  row_wid r ∈ map row_wid rows ->
  summary_of (rows ++ [r]) (row_wid r)
  = Summary.add_movement (descriptor r) (summary_of rows (row_wid r)).
Proof.
  intros Hin. unfold summary_of. rewrite group_snoc.
  rewrite decide_True by reflexivity.
  pose proof (group_nonempty _ _ Hin) as Hne.
  destruct (group (row_wid r) rows) as [|r0 g]; [contradiction|].
  unfold Summary.add_movement. simpl. now rewrite map_app.
Qed.

Lemma summary_of_new rows r :
  row_wid r ∉ map row_wid rows ->
  summary_of (rows ++ [r]) (row_wid r)
  = Summary.add_movement (descriptor r)
      (Summary.Build (row_wid r) (row_get_default r "date" "") []).
Proof.
  intros Hnin. unfold summary_of. rewrite group_snoc.
  rewrite decide_True by reflexivity.
  assert (Hnil : group (row_wid r) rows = []).
  { unfold group. induction rows as [|r0 rows IH]; [reflexivity|].
    simpl in Hnin. rewrite not_elem_of_cons in Hnin. destruct Hnin as [Hne Hnin].
    rewrite filter_cons, decide_False by congruence. now apply IH. }
  now rewrite Hnil.
Qed.

(** A dict whose value under [w] is [g w], for the keys [ws]. *)
Lemma keyed_map (g : pyval -> Summary) ws :
  (forall w, Summary.workout_id (g w) = w) ->
  keyed (map g ws) = map (fun w => (w, g w)) ws.
Proof.
  intros Hg. unfold keyed. rewrite map_map. apply map_ext.
  intros w. now rewrite Hg.
Qed.

Lemma od_mem_map {V} (g : pyval -> V) ws w :
  od_mem w (map (fun w => (w, g w)) ws) = bool_decide (w ∈ ws).
Proof.
  induction ws as [|w' ws IH]; simpl; [reflexivity|].
  destruct (decide (w = w')) as [->|Hne].
  - symmetry. apply bool_decide_eq_true. apply list_elem_of_here.
  - rewrite IH. apply bool_decide_ext. rewrite elem_of_cons. tauto.
Qed.

Lemma od_alter_map {V} (f : V -> V) (g : pyval -> V) ws w :
  NoDup ws ->
  od_alter f w (map (fun w => (w, g w)) ws)
  = map (fun w' => (w', if decide (w = w') then f (g w') else g w')) ws.
Proof.
  induction 1 as [|w' ws Hnin _ IH]; simpl; [reflexivity|].
  destruct (decide (w = w')) as [->|Hne].
  - f_equal. apply map_ext_in. intros x Hin%list_elem_of_In.
    rewrite decide_False; [reflexivity|]. intros ->. exact (Hnin Hin).
  - f_equal. apply IH.
Qed.

Lemma od_alter_snoc {V} (f : V -> V) (g : pyval -> V) ws w v :
  w ∉ ws ->
  od_alter f w (map (fun w => (w, g w)) ws ++ [(w, v)])
  = map (fun w => (w, g w)) ws ++ [(w, f v)].
Proof.
  induction ws as [|w' ws IH]; simpl; intros Hnin.
  - now rewrite decide_True.
  - rewrite not_elem_of_cons in Hnin. destruct Hnin as [Hne Hnin].
    rewrite decide_False by exact Hne. f_equal. now apply IH.
Qed.

(** One more row in the log: the summaries change as the loop body
    changes [tmp]. *)
Lemma summarize_snoc rows r :
  keyed (summarize (rows ++ [r]))
  = summary_step_pure (keyed (summarize rows)) r.
Proof.
  unfold summarize, summary_step_pure, od_setdefault.
  rewrite !keyed_map by reflexivity.
  rewrite map_app. simpl. rewrite first_seen_snoc, od_mem_map.
  pose proof (first_seen_NoDup (map row_wid rows)) as Hnd.
  destruct (decide (row_wid r ∈ map row_wid rows)) as [Hin|Hnin].
  - rewrite bool_decide_eq_true_2 by now apply first_seen_elem.
    rewrite (od_alter_map _ _ _ _ Hnd).
    apply map_ext_in. intros w Hw. f_equal.
    destruct (decide (row_wid r = w)) as [<-|Hne].
    + now apply summary_of_same.
    + now apply summary_of_other.
  - rewrite bool_decide_eq_false_2 by now rewrite first_seen_elem.
    rewrite od_alter_snoc by now rewrite first_seen_elem.
    rewrite map_app. simpl. rewrite (summary_of_new _ _ Hnin). f_equal.
    apply map_ext_in. intros w Hw. f_equal.
    rewrite <- list_elem_of_In, first_seen_elem in Hw.
    apply summary_of_other. intros <-. exact (Hnin Hw).
Qed.

Lemma od_values_keyed summaries : od_values (keyed summaries) = summaries.
Proof.
  unfold od_values, keyed. rewrite map_map. simpl. apply map_id.
Qed.

(** The loop of [export_summary] computes [summarize]. *)
Lemma summary_loop_run rows fs :
  Forall (fun r => is_Some (r !! "workout_id")) rows ->
  for_each summary_step rows [] fs = (Return (keyed (summarize rows)), fs).
Proof.
  induction rows as [|r rows IH] using rev_ind; intros Hall; [reflexivity|].
  apply Forall_app in Hall as [Hrows Hr]. inversion_clear Hr as [|? ? Hr' _].
  rewrite for_each_app, (bind_return _ _ _ _ _ (IH Hrows)). simpl.
  rewrite (bind_return _ _ _ _ _ (summary_step_run _ r fs Hr')).
  now rewrite summarize_snoc.
Qed.

Lemma dict_reader_has_column records k :
  k ∈ hd [] records ->
  Forall (fun r => is_Some (r !! k)) (dict_reader records).
Proof.
  destruct records as [|h rows]; [constructor|]. simpl. intros Hk.
  apply Forall_forall. intros r Hr. apply list_elem_of_In, in_map_iff in Hr.
  destruct Hr as (row & <- & _). now apply mk_dict_row_present.
Qed.

Lemma export_summary_run out fs records :
  WORKOUTS_CSV fs = Some records ->
  "workout_id" ∈ hd [] records ->
  export_summary out fs
  = (Return (Some (summary_header
                   :: map summary_row (summarize (dict_reader records))),
             length (summarize (dict_reader records))),
     write_at out (summary_header
                   :: map summary_row (summarize (dict_reader records))) fs).
Proof.
  intros Hw Hcol. unfold export_summary, write_file. prog_unfold. rewrite Hw.
  rewrite (summary_loop_run _ fs (dict_reader_has_column _ _ Hcol)).
  now rewrite od_values_keyed.
Qed.

(** ** Counting descriptors *)

Lemma descriptor_count_app l1 l2 :
  descriptor_count (l1 ++ l2) = descriptor_count l1 + descriptor_count l2.
Proof.
  unfold descriptor_count. now rewrite map_app, concat_app, length_app.
Qed.

Lemma od_values_app {K V} (d1 d2 : odict K V) :
  od_values (d1 ++ d2) = od_values d1 ++ od_values d2.
Proof. apply map_app. Qed.

Lemma od_mem_setdefault (w : pyval) (v : Summary) tmp :
  od_mem w (od_setdefault w v tmp) = true.
Proof.
  unfold od_setdefault. destruct (od_mem w tmp) eqn:Hm; [exact Hm|].
  induction tmp as [|[w' v'] tmp IH]; simpl in *.
  - now rewrite decide_True.
  - destruct (decide (w = w')); [reflexivity | now apply IH].
Qed.

Lemma count_setdefault (w : pyval) d tmp :
  descriptor_count (od_values (od_setdefault w (Summary.Build w d []) tmp))
  = descriptor_count (od_values tmp).
Proof.
  unfold od_setdefault. destruct (od_mem w tmp); [reflexivity|].
  rewrite od_values_app, descriptor_count_app. simpl.
  unfold descriptor_count at 2. simpl. lia.
Qed.

Lemma count_alter (w : pyval) d tmp :
  od_mem w tmp = true ->
  descriptor_count (od_values (od_alter (Summary.add_movement d) w tmp))
  = S (descriptor_count (od_values tmp)).
Proof.
  induction tmp as [|[w' v] tmp IH]; simpl; [discriminate|].
  destruct (decide (w = w')) as [->|Hne]; intros Hm.
  - unfold descriptor_count. simpl. rewrite !length_app. simpl. lia.
  - specialize (IH Hm). unfold descriptor_count in *. simpl.
    rewrite !length_app. lia.
Qed.

(** One descriptor for each row. *)
Lemma descriptor_count_summarize rows :
  descriptor_count (summarize rows) = length rows.
Proof.
  induction rows as [|r rows IH] using rev_ind; [reflexivity|].
  rewrite <- (od_values_keyed (summarize (rows ++ [r]))), summarize_snoc.
  unfold summary_step_pure.
  rewrite count_alter by apply od_mem_setdefault.
  rewrite count_setdefault, od_values_keyed, IH, length_app. simpl. lia.
Qed.

(** ** Appending records, then reading the log *)

Lemma append_set_records_run float_repr calls fs :
  exists fs',
    append_set_records float_repr calls fs = (Return (), fs')
    /\ WORKOUTS_CSV fs'
       = match calls with
         | [] => WORKOUTS_CSV fs
         | _ => Some (default [workouts_header] (WORKOUTS_CSV fs)
                      ++ map (fun call => set_row float_repr (stamped call.1 call.2))
                             calls)
         end.
Proof.
  unfold append_set_records. revert fs.
  induction calls as [|call calls IH]; intros fs; simpl.
  - eexists. split; reflexivity.
  - prog_unfold. rewrite append_set_record_run.
    destruct (IH (Files (MOVEMENTS_CSV (ensured fs))
                    (Some (default [workouts_header] (WORKOUTS_CSV fs)
                           ++ [set_row float_repr (stamped call.1 call.2)]))))
      as (fs' & Hrun & Hw).
    prog_unfold. exists fs'. split; [exact Hrun|].
    rewrite Hw. simpl. destruct calls as [|call' calls]; [reflexivity|].
    now rewrite <- app_assoc.
Qed.

Lemma data_rows_set_rows float_repr (records : list SetRecord) :
  data_rows (workouts_header :: map (set_row float_repr) records)
  = map (set_row float_repr) records.
Proof.
  unfold data_rows. simpl. apply filter_all.
  apply Forall_forall. intros r Hr. apply list_elem_of_In, in_map_iff in Hr.
  destruct Hr as (record & <- & _). reflexivity.
Qed.

(** [export_summary], whether the log exists or not, when its header
    has the column workout_id. *)
Lemma export_summary_any out fs :
  (forall records, WORKOUTS_CSV fs = Some records ->
                   has_column "workout_id" records = true) ->
  export_summary out fs
  = (Return ((fun records =>
                summary_header
                :: map summary_row (summarize (dict_reader records)))
               <$> WORKOUTS_CSV fs,
             length (summarize (dict_reader (default [] (WORKOUTS_CSV fs))))),
     match WORKOUTS_CSV fs with
     | Some records =>
         write_at out (summary_header
                       :: map summary_row (summarize (dict_reader records))) fs
     | None => fs
     end).
Proof.
  intros Hcol. destruct (WORKOUTS_CSV fs) as [records|] eqn:Hw.
  - specialize (Hcol records eq_refl). apply bool_decide_eq_true in Hcol.
    now rewrite (export_summary_run out fs records Hw Hcol).
  - unfold export_summary. prog_unfold. now rewrite Hw.
Qed.

Ltac log_cell i k :=
  rewrite (mk_dict_row_lookup workouts_header _ i k workouts_header_NoDup eq_refl).

Lemma descriptor_of_set_row float_repr record :
  descriptor (mk_dict_row workouts_header (set_row float_repr record))
  = SetRecord.movement_name record +:+ ":"
    +:+ str_of_Z (SetRecord.set_number record) +:+ "x"
    +:+ cell (SetRecord.reps record) +:+ "@" +:+ load_text float_repr record.
Proof.
  unfold descriptor, row_get.
  log_cell 4%nat "movement_name". log_cell 5%nat "set_number".
  log_cell 8%nat "reps". log_cell 9%nat "load". reflexivity.
Qed.

Lemma summarize_groups rows : groups_by_workout rows (summarize rows).
Proof.
  assert (Hids : map Summary.workout_id (summarize rows)
                 = first_seen (map row_wid rows)).
  { unfold summarize. rewrite map_map. apply map_id. }
  unfold groups_by_workout. rewrite Hids.
  split; [reflexivity|]. split; [apply first_seen_NoDup|].
  split; [intros w; apply first_seen_elem|].
  intros s Hs. unfold summarize in Hs.
  apply list_elem_of_In, in_map_iff in Hs. destruct Hs as (w & <- & Hw).
  rewrite <- list_elem_of_In, first_seen_elem in Hw.
  pose proof (group_nonempty w rows Hw) as Hne.
  unfold summary_of. simpl. fold (group w rows).
  destruct (group w rows) as [|r0 g]; [contradiction|].
  exists r0, g. repeat split; reflexivity.
Qed.

(** ** The loop that looks for a free id *)

Lemma append_inj_r a b c : a +:+ b = a +:+ c -> b = c.
Proof. induction a as [|x a IH]; simpl; [trivial|]. intros [=]. auto. Qed.

Lemma append_length a b :
  String.length (a +:+ b) = (String.length a + String.length b)%nat.
Proof. induction a as [|x a IH]; simpl; [reflexivity | now rewrite IH]. Qed.

Lemma str_of_nat_inj i j : str_of_nat i = str_of_nat j -> i = j.
Proof.
  unfold str_of_nat. intros H. apply Unsigned.to_uint_inj.
  apply (f_equal NilEmpty.uint_of_string) in H.
  rewrite !NilEmpty.usu in H. now inversion H.
Qed.

Lemma suffixed_not_slug name i : suffixed name i <> slugify name.
Proof.
  unfold suffixed. intros H. apply (f_equal String.length) in H.
  rewrite append_length in H. simpl in H. lia.
Qed.

Lemma suffixed_nonempty name i : suffixed name i <> EmptyString.
Proof. unfold suffixed. apply append_nonempty. Qed.

Lemma candidate_inj name i j :
  (1 <= i)%nat -> (1 <= j)%nat -> candidate name i = candidate name j -> i = j.
Proof.
  intros Hi Hj. unfold candidate.
  destruct i as [|[|i]]; [lia| |]; destruct j as [|[|j]]; try lia; intros H.
  - symmetry in H. now apply suffixed_not_slug in H.
  - now apply suffixed_not_slug in H.
  - unfold suffixed in H. apply append_inj_r in H. simpl in H.
    injection H as H. now apply str_of_nat_inj.
Qed.

(** No more than [size existing] candidates can be keys of [existing]. *)
Lemma candidates_taken (existing : gmap string Movement) name n :
  (forall j, (1 <= j <= n)%nat -> is_Some (existing !! candidate name j)) ->
  (n <= size existing)%nat.
Proof.
  intros Hall.
  set (l := map (candidate name) (seq 1 n)).
  assert (Hnd : NoDup l).
  { apply NoDup_fmap_2_strong; [|apply NoDup_seq].
    intros i j Hi%elem_of_seq Hj%elem_of_seq. apply candidate_inj; lia. }
  assert (Hsub : list_to_set l ⊆ dom existing).
  { intros x Hx%elem_of_list_to_set. apply elem_of_dom.
    apply list_elem_of_fmap in Hx as (j & -> & Hj%elem_of_seq).
    apply Hall. lia. }
  apply subseteq_size in Hsub.
  rewrite size_list_to_set, size_dom in Hsub by exact Hnd.
  unfold l in Hsub. now rewrite length_map, length_seq in Hsub.
Qed.

Lemma unique_loop_spec (existing : gmap string Movement) name fuel i :
  (1 <= i)%nat ->
  (forall j, (1 <= j < i)%nat -> is_Some (existing !! candidate name j)) ->
  (size existing + 2 <= fuel + i)%nat ->
  exists mid,
    unique_loop fuel existing name i (candidate name i) = Some mid
    /\ first_free existing name mid.
Proof.
  revert i. induction fuel as [|fuel IH]; intros i Hi Hbefore Hfuel.
  - pose proof (candidates_taken existing name (i - 1)) as Hle.
    assert (i - 1 <= size existing)%nat by (apply Hle; intros j Hj; apply Hbefore; lia).
    lia.
  - simpl. destruct (existing !! candidate name i) eqn:Hmid.
    + replace (suffixed name (S i)) with (candidate name (S i))
        by (destruct i; [lia | reflexivity]).
      apply IH; [lia| |lia].
      intros j Hj. destruct (decide (j = i)) as [->|Hne].
      * now rewrite Hmid.
      * apply Hbefore. lia.
    + exists (candidate name i). split; [reflexivity|].
      exists i. auto.
Qed.

(** The loop returns, and returns the first free candidate. *)
Lemma unique_id_total (existing : gmap string Movement) name :
  exists mid, unique_id existing name = Some mid /\ first_free existing name mid.
Proof.
  unfold unique_id. apply (unique_loop_spec existing name _ 1); [lia| |lia].
  intros j Hj. lia.
Qed.

Lemma first_free_empty_id existing name :
  first_free existing name EmptyString -> slugify name = EmptyString.
Proof.
  intros (i & Hi & Hmid & _). destruct i as [|[|i]]; [lia| |].
  - now symmetry.
  - symmetry in Hmid. now apply suffixed_nonempty in Hmid.
Qed.

(** ** What can be raised *)

Lemma raises_ret P {A} (a : A) : raises_in P (mret a).
Proof. intros fs e fs' H. discriminate. Qed.

Lemma raises_raise (P : exn -> Prop) {A} e : P e -> raises_in P (@raise A e).
Proof. intros He fs e' fs' [= <- _]. exact He. Qed.

Lemma raises_bind P {A B} (c : prog A) (k : A -> prog B) :
  raises_in P c -> (forall a, raises_in P (k a)) -> raises_in P (c ≫= k).
Proof.
  intros Hc Hk fs e fs'. prog_unfold.
  destruct (c fs) as [[a|e0] fs0] eqn:Hrun.
  - apply Hk.
  - intros [= <- _]. exact (Hc _ _ _ Hrun).
Qed.

Lemma raises_for_each P {A S} (body : S -> A -> prog S) xs acc :
  (forall s x, raises_in P (body s x)) -> raises_in P (for_each body xs acc).
Proof.
  intros Hbody. revert acc. induction xs as [|x xs IH]; intros acc; simpl.
  - apply raises_ret.
  - apply raises_bind; [apply Hbody | exact IH].
Qed.

Lemma raises_get_files P : raises_in P get_files.
Proof. intros fs e fs' H. discriminate. Qed.

Lemma raises_put_files P fs0 : raises_in P (put_files fs0).
Proof. intros fs e fs' H. discriminate. Qed.

Lemma raises_as_str v : raises_in store_exn (as_str v).
Proof. destruct v; [apply raises_ret | now apply raises_raise]. Qed.

Ltac raises_step :=
  first [ apply raises_ret | apply raises_as_str | apply raises_get_files
        | apply raises_put_files
        | apply raises_raise; exact I
        | apply raises_bind; [|intros ?] ].

Lemma raises_load_row movements row : raises_in store_exn (load_row movements row).
Proof.
  unfold load_row. apply raises_bind; [|intros ?].
  - destruct (if_true _); repeat raises_step.
  - repeat raises_step.
Qed.

Lemma raises_load_movements : raises_in store_exn load_movements.
Proof.
  unfold load_movements. apply raises_bind; [apply raises_get_files|].
  intros fs. destruct (MOVEMENTS_CSV fs); [|apply raises_ret].
  apply raises_for_each. apply raises_load_row.
Qed.

Lemma raises_append_movement m : raises_in store_exn (append_movement m).
Proof.
  unfold append_movement.
  apply raises_bind; [unfold ensure_files_exist; repeat raises_step|].
  intros _. apply raises_bind; [apply raises_load_movements|].
  intros movements. destruct (movements !! Movement.id m).
  - now apply raises_raise.
  - unfold append_to_movements. repeat raises_step.
Qed.

Lemma raises_import_row st row : raises_in store_exn (import_row st row).
Proof.
  unfold import_row. destruct st as [existing count].
  destruct (negb _); [apply raises_ret|].
  destruct (name_known _ _); [apply raises_ret|].
  destruct (unique_id _ _); [|now apply raises_raise].
  apply raises_bind; [apply raises_append_movement | intros ?; apply raises_ret].
Qed.

Lemma splitlines_go_nonempty after_cr line s :
  line <> EmptyString -> splitlines_go after_cr line s <> [].
Proof.
  revert after_cr line. induction s as [|c s IH]; intros after_cr line Hline; simpl.
  - now destruct line.
  - destruct (after_cr && Ascii.eqb c "010"); [now apply IH|].
    destruct (is_linebreak c); [discriminate|].
    apply IH. now destruct line.
Qed.

(** Only the empty text has no line. *)
Lemma splitlines_nil text : splitlines text = [] <-> text = EmptyString.
Proof.
  split; [|now intros ->].
  destruct text as [|c s]; [reflexivity|]. unfold splitlines. simpl.
  destruct (is_linebreak c); [discriminate|].
  intros H. now apply splitlines_go_nonempty in H.
Qed.

(** ** One row of the import *)

Lemma existsb_map {A B} (f : B -> bool) (g : A -> B) l :
  existsb f (map g l) = existsb (fun x => f (g x)) l.
Proof. induction l as [|x l IH]; simpl; [reflexivity | now rewrite IH]. Qed.

Lemma name_known_names existing name :
  name_known existing name = existsb (same_name name) (catalog_names existing).
Proof. unfold name_known, catalog_names. now rewrite existsb_map. Qed.

Lemma existsb_same_elements {A} (f : A -> bool) l l' :
  (forall x, In x l <-> In x l') -> existsb f l = existsb f l'.
Proof.
  intros Hiff. apply eq_true_iff_eq. rewrite !existsb_exists.
  split; intros (x & Hx & Hf); exists x; split; try apply Hiff; assumption.
Qed.

Lemma creating_rows_same_elements known known' rows :
  (forall n, In n known <-> In n known') ->
  creating_rows known rows = creating_rows known' rows.
Proof.
  revert known known'. induction rows as [|r rows IH]; intros known known' Hiff;
    simpl; [reflexivity|].
  unfold creates. rewrite (existsb_same_elements _ known known' Hiff).
  destruct (_ && _).
  - f_equal. apply IH. intros n. simpl. rewrite Hiff. reflexivity.
  - now apply IH.
Qed.

Lemma catalog_names_insert existing mid m n :
  existing !! mid = None ->
  In n (catalog_names (<[mid := m]> existing))
  <-> In n (Movement.name m :: catalog_names existing).
Proof.
  intros Hfree. unfold catalog_names.
  change (Movement.name m :: map ?f ?l) with (map f ((mid, m) :: l)).
  rewrite <- !list_elem_of_In.
  change (map ?f ?l) with (f <$> l).
  now rewrite (map_to_list_insert existing mid m Hfree).
Qed.

Lemma loaded_catalog fs existing :
  catalog_ok fs = true ->
  load_movements fs = (Return existing, fs) ->
  existing = catalog_of (data_rows (default [] (MOVEMENTS_CSV fs))).
Proof. intros Hok Hload. rewrite (load_movements_ok fs Hok) in Hload. congruence. Qed.

Lemma new_movement_row existing mid row :
  first_free existing (row_name row) mid ->
  row_movement (movement_row (new_movement mid row)) = new_movement mid row.
Proof.
  intros Hfree. destruct mid as [|c mid]; [|reflexivity].
  rewrite row_movement_of_movement. simpl.
  now rewrite (first_free_empty_id _ _ Hfree).
Qed.

(** A row that creates: the id is the first free candidate, a row is
    appended to the catalog, the snapshot and the count grow by one,
    and the snapshot is again what [load_movements] would return. *)
Lemma import_row_creates existing count row fs :
  catalog_ok fs = true ->
  load_movements fs = (Return existing, fs) ->
  creates (catalog_names existing) row = true ->
  exists mid,
    first_free existing (row_name row) mid
    /\ import_row (existing, count) row fs
       = (Return (<[mid := new_movement mid row]> existing, S count),
          with_movement (new_movement mid row) (ensured fs))
    /\ load_movements (with_movement (new_movement mid row) (ensured fs))
       = (Return (<[mid := new_movement mid row]> existing),
          with_movement (new_movement mid row) (ensured fs))
    /\ catalog_ok (with_movement (new_movement mid row) (ensured fs)) = true.
Proof.
  intros Hok Hload [Hname Hnew]%andb_prop. apply negb_true_iff in Hnew.
  destruct (unique_id_total existing (row_name row)) as (mid & Hid & Hfree).
  exists mid. split; [exact Hfree|].
  pose proof (loaded_catalog fs existing Hok Hload) as Hcat.
  assert (Hmid : existing !! mid = None) by (destruct Hfree as (i & _ & _ & H & _); exact H).
  split; [|split].
  - unfold import_row. rewrite Hname, name_known_names, Hnew, Hid. simpl.
    fold (new_movement mid row).
    rewrite (bind_return _ _ _ (tt) (with_movement (new_movement mid row) (ensured fs))).
    + reflexivity.
    + rewrite (append_movement_run _ fs Hok), <- Hcat. simpl. now rewrite Hmid.
  - rewrite (load_after_append _ fs Hok), <- Hcat.
    now rewrite (new_movement_row existing mid row Hfree).
  - apply with_movement_ok. now apply ensured_catalog_ok.
Qed.

Lemma import_row_skips existing count row fs :
  creates (catalog_names existing) row = false ->
  import_row (existing, count) row fs = (Return (existing, count), fs).
Proof.
  unfold creates, import_row. rewrite name_known_names.
  destruct (truthy (row_name row)); simpl; [|reflexivity].
  intros Hn%negb_false_iff. now rewrite Hn.
Qed.

(** ** The whole loop *)

Lemma catalog_with_cons m created fs :
  catalog_with created (with_movement m (ensured fs))
  = catalog_with (m :: created) fs.
Proof.
  unfold catalog_with, with_movement, ensured. simpl.
  destruct created as [|m' created]; [reflexivity|].
  now rewrite <- app_assoc.
Qed.

Lemma import_loop_run rows : forall existing count fs,
  catalog_ok fs = true ->
  load_movements fs = (Return existing, fs) ->
  exists created fs',
    for_each import_row rows (existing, count) fs
    = (Return (add_all existing created, (count + length created)%nat), fs')
    /\ catalog_ok fs' = true
    /\ load_movements fs' = (Return (add_all existing created), fs')
    /\ MOVEMENTS_CSV fs' = catalog_with created fs
    /\ ids_resolved existing created
    /\ map Movement.name created
       = map row_name (creating_rows (catalog_names existing) rows).
Proof.
  induction rows as [|row rows IH]; intros existing count fs Hok Hload.
  - exists [], fs. simpl. rewrite Nat.add_0_r. auto 10.
  - simpl. destruct (creates (catalog_names existing) row) eqn:Hcr.
    + destruct (import_row_creates existing count row fs Hok Hload Hcr)
        as (mid & Hfree & Hrow & Hload' & Hok').
      destruct (IH _ (S count) _ Hok' Hload')
        as (created & fs' & Hrun & Hok'' & Hload'' & Hfile & Hids & Hnames).
      exists (new_movement mid row :: created), fs'.
      rewrite (bind_return _ _ _ _ _ Hrow), Hrun.
      split; [simpl; do 3 f_equal; lia|].
      split; [exact Hok''|]. split; [exact Hload''|].
      split; [now rewrite Hfile, catalog_with_cons|].
      split; [split; assumption|].
      cbn [map]. f_equal. rewrite Hnames. f_equal.
      apply creating_rows_same_elements. intros n.
      apply (catalog_names_insert existing mid (new_movement mid row) n).
      destruct Hfree as (i & _ & _ & H & _). exact H.
    + rewrite (bind_return _ _ _ _ _ (import_row_skips existing count row fs Hcr)).
      apply IH; assumption.
Qed.

(** Ids resolved one after the other are pairwise distinct, and none
    is a key of the snapshot the run began with. *)
Lemma ids_resolved_fresh created : forall existing,
  ids_resolved existing created ->
  NoDup (map Movement.id created)
  /\ forall m, m ∈ created -> existing !! Movement.id m = None.
Proof.
  induction created as [|m created IH]; intros existing; simpl.
  - intros _. split; [constructor | intros m Hm; inversion Hm].
  - intros [(i & _ & _ & Hfree & _) Hrest].
    destruct (IH _ Hrest) as [Hnd Hnew].
    assert (Hother : forall m', m' ∈ created ->
              Movement.id m' <> Movement.id m
              /\ existing !! Movement.id m' = None).
    { intros m' Hm'. specialize (Hnew m' Hm').
      apply lookup_insert_None in Hnew as [Hnone Hne]. auto. }
    split.
    + constructor; [|exact Hnd].
      intros Hin. apply list_elem_of_fmap in Hin as (m' & Heq & Hm').
      destruct (Hother m' Hm') as [Hne _]. congruence.
    + intros m' [->|Hm']%elem_of_cons; [exact Hfree | now apply Hother].
Qed.

Lemma import_run csv_reader text fs :
  catalog_ok fs = true ->
  truthy text = true ->
  exists existing created fs',
    load_movements fs = (Return existing, fs)
    /\ import_movements_file csv_reader (Some text) fs
       = (Return (length created), fs')
    /\ MOVEMENTS_CSV fs' = catalog_with created fs
    /\ load_movements fs' = (Return (add_all existing created), fs')
    /\ ids_resolved existing created
    /\ map Movement.name created
       = map row_name
           (creating_rows (catalog_names existing)
              (dict_reader
                 (csv_reader (delimiter_of (hd EmptyString (splitlines text)))
                             (splitlines text)))).
Proof.
  intros Hok Htext.
  pose proof (load_movements_ok fs Hok) as Hload.
  unfold import_movements_file.
  destruct (splitlines text) as [|first_line rest] eqn:Hsplit.
  { apply splitlines_nil in Hsplit. subst text. discriminate. }
  destruct (import_loop_run
              (dict_reader (csv_reader (delimiter_of first_line) (first_line :: rest)))
              _ 0%nat fs Hok Hload)
    as (created & fs' & Hrun & _ & Hload' & Hfile & Hids & Hnames).
  eexists. exists created, fs'. split; [exact Hload|].
  rewrite (bind_return _ _ _ _ _ Hload), (bind_return _ _ _ _ _ Hrun).
  simpl. auto 10.
Qed.

Lemma creates_iff known row :
  creates known row = true
  <-> row_name row <> EmptyString
      /\ forall n, In n known -> lower n <> lower (row_name row).
Proof.
  unfold creates. rewrite andb_true_iff, negb_true_iff. split.
  - intros [Hname Hnone]. split; [now destruct (row_name row)|].
    intros n Hn Heq.
    assert (Hex : existsb (same_name (row_name row)) known = true).
    { apply existsb_exists. exists n. split; [exact Hn|].
      unfold same_name. now apply String.eqb_eq. }
    congruence.
  - intros [Hname Hall]. split; [now destruct (row_name row)|].
    apply not_true_is_false. intros (n & Hn & Hsame)%existsb_exists.
    unfold same_name in Hsame. apply String.eqb_eq in Hsame.
    exact (Hall n Hn Hsame).
Qed.

Lemma first_free_bare snapshot name mid :
  first_free snapshot name mid ->
  snapshot !! slugify name = None -> mid = slugify name.
Proof.
  intros (i & Hi & -> & _ & Hbefore) Hslug.
  destruct (decide (i = 1%nat)) as [->|Hne]; [reflexivity|].
  destruct (Hbefore 1%nat ltac:(lia)) as [m Hm]. simpl in Hm. congruence.
Qed.

Lemma first_free_second snapshot name mid :
  first_free snapshot name mid ->
  is_Some (snapshot !! slugify name) ->
  snapshot !! suffixed name 2 = None -> mid = suffixed name 2.
Proof.
  intros (i & Hi & -> & Hfree & Hbefore) [m Hslug] Hsecond.
  destruct (decide (i = 1%nat)) as [->|Hne1]; [simpl in Hfree; congruence|].
  destruct (decide (i = 2%nat)) as [->|Hne2]; [reflexivity|].
  destruct (Hbefore 2%nat ltac:(lia)) as [m' Hm']. simpl in Hm'. congruence.
Qed.

(** The import of the tests, and the scenario of the two names with
    one slug. *)
Example import_snatch_clean :
  run (import_movements_file plain_reader (Some snatch_clean_source))
  = (Return 2%nat,
     Files (Some [movements_header;
                  ["snatch"; "Snatch"; "Full Body"; ""; ""; ""; ""];
                  ["clean"; "Clean"; "Full Body"; ""; ""; ""; ""]])
           (Some [workouts_header])).
Proof. vm_compute. reflexivity. Qed.

Example import_overhead :
  run (import_movements_file plain_reader (Some overhead_source))
  = (Return 2%nat,
     Files (Some [movements_header;
                  ["overhead_press"; "Overhead Press"; "Push"; ""; ""; ""; ""];
                  ["overhead_press_2"; "Overhead_Press"; "Push"; ""; ""; ""; ""]])
           (Some [workouts_header])).
Proof. vm_compute. reflexivity. Qed.

(** * Further properties of the code *)

(** ** Loops that do not write *)

Lemma for_each_inv {A S} (body : S -> A -> prog S) (I : S -> Prop)
    (E : exn -> Prop) xs acc :
  (forall s x, I s ->
     exists out, (forall fs, body s x fs = (out, fs))
       /\ match out with Return s' => I s' | Raise e => E e end) ->
  I acc ->
  exists out, (forall fs, for_each body xs acc fs = (out, fs))
    /\ match out with Return s' => I s' | Raise e => E e end.
Proof.
  intros Hbody. revert acc. induction xs as [|x xs IH]; intros acc Hacc; simpl.
  - exists (Return acc). split; [reflexivity | exact Hacc].
  - destruct (Hbody acc x Hacc) as ([s'|e] & Hrun & Hout).
    + destruct (IH s' Hout) as (out & Hrest & Hres). exists out.
      split; [|exact Hres]. intros fs.
      now rewrite (bind_return _ _ _ _ _ (Hrun fs)).
    + exists (Raise e). split; [|exact Hout]. intros fs.
      now rewrite (bind_raise _ _ _ _ _ (Hrun fs)).
Qed.

Lemma if_true_truthy a s : if_true a = Some s -> truthy s = true.
Proof.
  unfold if_true. destruct a as [s'|]; [|discriminate].
  destruct (truthy s') eqn:Ht; [|discriminate]. now intros [= <-].
Qed.

Lemma load_row_result movements row :
  exists out, (forall fs, load_row movements row fs = (out, fs))
    /\ match out with
       | Return movements' =>
           exists m, movements' = <[Movement.id m := m]> movements
                     /\ loaded_id m = Movement.id m
       | Raise e => e = NoneCell
       end.
Proof.
  unfold load_row, as_str. prog_unfold.
  destruct (if_true (row_get row "id")) as [s|] eqn:Hid;
    destruct (row_get_default row "name" "") as [n|];
    try (eexists; split; [reflexivity | reflexivity]);
    destruct (row_get_default row "category" "");
    try (eexists; split; [reflexivity | reflexivity]);
    destruct (row_get_default row "default_unit" "");
    try (eexists; split; [reflexivity | reflexivity]);
    destruct (row_get_default row "primary_muscle" "");
    try (eexists; split; [reflexivity | reflexivity]);
    destruct (row_get_default row "secondary_muscles" "");
    try (eexists; split; [reflexivity | reflexivity]);
    destruct (row_get_default row "notes" "");
    try (eexists; split; [reflexivity | reflexivity]).
  - eexists. split; [reflexivity|]. cbv beta iota.
    lazymatch goal with |- exists m, <[_ := ?v]> _ = _ /\ _ => exists v end.
    split; [reflexivity|].
    unfold loaded_id. simpl. now rewrite (if_true_truthy _ _ Hid).
  - eexists. split; [reflexivity|]. cbv beta iota.
    lazymatch goal with |- exists m, <[_ := ?v]> _ = _ /\ _ => exists v end.
    split; [reflexivity|].
    unfold loaded_id. simpl. now destruct (truthy (slugify n)).
Qed.

(** The result of reading the records [t] as a catalog, whatever else
    the files hold. *)
Lemma load_rows_result (rows : list (gmap string (option string))) :
  exists out, (forall fs, for_each load_row rows ∅ fs = (out, fs))
    /\ match out with
       | Return movements => keyed_by_id movements
       | Raise e => e = NoneCell
       end.
Proof.
  apply for_each_inv; [|apply map_Forall_empty].
  intros movements row Hinv.
  destruct (load_row_result movements row) as ([ms|e] & Hrun & Hout);
    [exists (Return ms) | exists (Raise e)];
    (split; [exact Hrun|]); [|exact Hout].
  destruct Hout as (m & -> & Hm). apply map_Forall_insert_2; [|exact Hinv].
  now rewrite Hm.
Qed.

Lemma load_movements_result fs :
  exists out, load_movements fs = (out, fs)
    /\ match out with
       | Return movements => keyed_by_id movements
       | Raise e => e = NoneCell
       end.
Proof.
  unfold load_movements. prog_unfold.
  destruct (MOVEMENTS_CSV fs) as [records|].
  - destruct (load_rows_result (dict_reader records)) as (out & Hrun & Hout).
    exists out. split; [apply Hrun | exact Hout].
  - exists (Return ∅). split; [reflexivity | apply map_Forall_empty].
Qed.

(** What [load_movements] returns depends on the catalog file only. *)
Lemma load_movements_same_catalog fs fs' :
  MOVEMENTS_CSV fs = MOVEMENTS_CSV fs' ->
  (load_movements fs).1 = (load_movements fs').1.
Proof.
  intros Heq. unfold load_movements. prog_unfold. rewrite Heq.
  destruct (MOVEMENTS_CSV fs') as [records|]; [|reflexivity].
  destruct (load_rows_result (dict_reader records)) as (out & Hrun & _).
  now rewrite !Hrun.
Qed.


(** ** The catalog, further *)

Lemma ensured_load fs : (load_movements (ensured fs)).1 = (load_movements fs).1.
Proof.
  destruct (MOVEMENTS_CSV fs) as [t|] eqn:Hm.
  - apply load_movements_same_catalog. unfold ensured. simpl. now rewrite Hm.
  - unfold load_movements, ensured. prog_unfold. simpl. now rewrite Hm.
Qed.

Lemma ensured_catalog_ok_eq fs : catalog_ok (ensured fs) = catalog_ok fs.
Proof.
  unfold catalog_ok, ensured. simpl. destruct (MOVEMENTS_CSV fs); [reflexivity|].
  vm_compute. reflexivity.
Qed.

Lemma row_movement_as_loaded m : row_movement (movement_row m) = as_loaded m.
Proof. apply row_movement_of_movement. Qed.

Lemma catalog_of_present_exists fs k m :
  catalog_of (data_rows (default [] (MOVEMENTS_CSV fs))) !! k = Some m ->
  exists t, MOVEMENTS_CSV fs = Some t.
Proof.
  destruct (MOVEMENTS_CSV fs) as [t|]; [eauto|]. simpl.
  unfold data_rows, catalog_of. simpl. now rewrite lookup_empty.
Qed.

(** ** The importer, further *)

Lemma import_loop_skips rows existing count fs :
  Forall (fun row => creates (catalog_names existing) row = false) rows ->
  for_each import_row rows (existing, count) fs = (Return (existing, count), fs).
Proof.
  induction 1 as [|row rows Hrow _ IH]; [reflexivity|]. simpl.
  now rewrite (bind_return _ _ _ _ _ (import_row_skips existing count row fs Hrow)).
Qed.

Lemma same_name_refl name : same_name name name = true.
Proof. unfold same_name. apply String.eqb_refl. Qed.

(** Once the names of the creating rows are known, no row creates. *)
Lemma creates_after rows : forall known known',
  (forall n, In n known -> In n known') ->
  (forall n, In n (map row_name (creating_rows known rows)) -> In n known') ->
  Forall (fun row => creates known' row = false) rows.
Proof.
  induction rows as [|row rows IH]; intros known known' Hsub Hnew; [constructor|].
  simpl in Hnew. destruct (creates known row) eqn:Hcr.
  - constructor.
    + unfold creates. apply andb_false_iff. right. apply negb_false_iff.
      apply existsb_exists. exists (row_name row).
      split; [apply Hnew; now left | apply same_name_refl].
    + apply (IH (row_name row :: known)).
      * intros n [<-|Hn]; [apply Hnew; now left | now apply Hsub].
      * intros n Hn. apply Hnew. now right.
  - constructor; [|now apply (IH known)].
    unfold creates in *. apply andb_false_iff in Hcr as [Ht|Hex].
    + now rewrite Ht.
    + apply andb_false_iff. right. apply negb_false_iff.
      apply negb_false_iff in Hex. apply existsb_exists in Hex as (n & Hn & Hs).
      apply existsb_exists. exists n. auto.
Qed.

Lemma catalog_names_add_all created : forall existing,
  ids_resolved existing created ->
  forall n, In n (catalog_names (add_all existing created))
            <-> In n (catalog_names existing) \/ In n (map Movement.name created).
Proof.
  induction created as [|m created IH]; intros existing Hids n; simpl.
  - tauto.
  - destruct Hids as [(i & _ & _ & Hfree & _) Hrest].
    rewrite (IH _ Hrest), (catalog_names_insert existing _ m n Hfree).
    simpl. tauto.
Qed.

(** ** slugify, further *)

Lemma slug_char_source c :
  slug_char (if Ascii.eqb (lower_char c) " " then "_"%char else lower_char c)
  = slug_source c.
Proof. each_char c; reflexivity. Qed.

Lemma str_take_nil n s : str_take (S n) s = EmptyString <-> s = EmptyString.
Proof. destruct s; simpl; split; congruence. Qed.

Lemma str_filter_nil p s :
  str_filter p s = EmptyString <-> str_forall (fun c => negb (p c)) s = true.
Proof.
  induction s as [|c s IH]; simpl; [tauto|].
  destruct (p c); simpl; [split; discriminate | exact IH].
Qed.

Lemma str_forall_map p f s :
  str_forall p (str_map f s) = str_forall (fun c => p (f c)) s.
Proof. induction s as [|c s IH]; simpl; [reflexivity | now rewrite IH]. Qed.

Lemma str_forall_ext p q s :
  (forall c, p c = q c) -> str_forall p s = str_forall q s.
Proof. intros H. induction s as [|c s IH]; simpl; [reflexivity | now rewrite H, IH]. Qed.

Lemma creating_rows_nil known rows :
  creating_rows known rows = [] ->
  Forall (fun row => creates known row = false) rows.
Proof.
  induction rows as [|row rows IH]; simpl; [constructor|].
  destruct (creates known row) eqn:Hcr; [discriminate|].
  intros H. constructor; auto.
Qed.

Lemma import_nothing_new csv_reader text fs existing :
  truthy text = true ->
  load_movements fs = (Return existing, fs) ->
  Forall (fun row => creates (catalog_names existing) row = false)
    (dict_reader (csv_reader (delimiter_of (hd EmptyString (splitlines text)))
                             (splitlines text))) ->
  import_movements_file csv_reader (Some text) fs = (Return 0%nat, fs).
Proof.
  intros Htext Hload Hskip. unfold import_movements_file.
  destruct (splitlines text) as [|first_line rest] eqn:Hsplit.
  { apply splitlines_nil in Hsplit. subst text. discriminate. }
  rewrite (bind_return _ _ _ _ _ Hload).
  now rewrite (bind_return _ _ _ _ _ (import_loop_skips _ existing 0%nat fs Hskip)).
Qed.

(** ** The catalog in the order of its dict *)

Lemma od_set_keys {V} (k : string) (v : V) (d : list (string * V)) :
  NoDup d.*1 -> NoDup (od_set k v d).*1
  /\ (forall k', k' ∈ (od_set k v d).*1 <-> k' = k \/ k' ∈ d.*1).
Proof.
  induction d as [|[k0 v0] d IH]; simpl; intros Hnd.
  - split; [apply NoDup_singleton|]. intros k'. rewrite elem_of_cons.
    split; [intros [->|H]; [now left | inversion H] | intros [->|H]; [now left | inversion H]].
  - apply NoDup_cons in Hnd as [Hk0 Hnd]. destruct (IH Hnd) as [IHnd IHin].
    destruct (decide (k = k0)) as [->|Hne]; simpl.
    + split; [now apply NoDup_cons|]. intros k'. rewrite !elem_of_cons. tauto.
    + split.
      * apply NoDup_cons. split; [|exact IHnd]. rewrite IHin.
        intros [Heq|Hin]; [congruence | exact (Hk0 Hin)].
      * intros k'. rewrite !elem_of_cons, IHin. tauto.
Qed.

Lemma od_set_map (k : string) (v : Movement) (d : list (string * Movement)) :
  (list_to_map (od_set k v d) : gmap string Movement) = <[k := v]> (list_to_map d).
Proof.
  induction d as [|[k0 v0] d IH]; simpl; [reflexivity|].
  destruct (decide (k = k0)) as [->|Hne]; simpl.
  - now rewrite insert_insert_eq.
  - rewrite IH. now apply insert_insert_ne.
Qed.

Lemma od_get_map (k : string) (d : list (string * Movement)) :
  od_get k d = (list_to_map d : gmap string Movement) !! k.
Proof.
  induction d as [|[k0 v0] d IH]; simpl; [now rewrite lookup_empty|].
  destruct (decide (k = k0)) as [->|Hne].
  - now rewrite lookup_insert_eq.
  - now rewrite lookup_insert_ne.
Qed.

Lemma od_values_elem (d : list (string * Movement)) m :
  NoDup d.*1 ->
  m ∈ od_values d
  <-> exists k, (list_to_map d : gmap string Movement) !! k = Some m.
Proof.
  intros Hnd. unfold od_values. split.
  - intros Hm. apply list_elem_of_In, in_map_iff in Hm.
    destruct Hm as ([k m'] & <- & Hin). exists k.
    apply elem_of_list_to_map; [exact Hnd | now apply list_elem_of_In].
  - intros [k Hk]. apply elem_of_list_to_map in Hk; [|exact Hnd].
    apply list_elem_of_In, in_map_iff. exists (k, m).
    split; [reflexivity | now apply list_elem_of_In].
Qed.

(** A row gives one movement, or the stop at a None cell, whatever
    the files; [load_row] puts that movement under its id. *)
Lemma read_movement_result row :
  exists out,
    (forall fs, read_movement row fs = (out, fs))
    /\ (forall movements fs,
          load_row movements row fs
          = (match out with
             | Return m => Return (<[Movement.id m := m]> movements)
             | Raise e => Raise e
             end, fs)).
Proof.
  unfold read_movement, load_row, as_str. prog_unfold.
  destruct (if_true (row_get row "id")) as [s|];
    destruct (row_get_default row "name" "") as [n|];
    try (eexists; split; intros; reflexivity);
    destruct (row_get_default row "category" "");
    try (eexists; split; intros; reflexivity);
    destruct (row_get_default row "default_unit" "");
    try (eexists; split; intros; reflexivity);
    destruct (row_get_default row "primary_muscle" "");
    try (eexists; split; intros; reflexivity);
    destruct (row_get_default row "secondary_muscles" "");
    try (eexists; split; intros; reflexivity);
    destruct (row_get_default row "notes" "");
    eexists; split; intros; reflexivity.
Qed.

Lemma load_rows_agree (rows : list (gmap string (option string))) :
  forall (od : list (string * Movement)),
  NoDup od.*1 ->
  exists out,
    (forall fs,
       for_each (fun movements row =>
                   m ← read_movement row;
                   mret (od_set (Movement.id m) m movements)) rows od fs
       = (out, fs))
    /\ match out with
       | Return od' =>
           NoDup od'.*1
           /\ forall fs, for_each load_row rows (list_to_map od) fs
                         = (Return (list_to_map od'), fs)
       | Raise e =>
           forall fs, for_each load_row rows (list_to_map od) fs = (Raise e, fs)
       end.
Proof.
  induction rows as [|row rows IH]; intros od Hnd; simpl.
  - exists (Return od). split; [reflexivity|]. split; [exact Hnd | reflexivity].
  - destruct (read_movement_result row) as ([m|e] & Hread & Hrow).
    + destruct (IH (od_set (Movement.id m) m od))
        as (out & Hrun & Hout); [now apply od_set_keys|].
      exists out. split.
      * intros fs. prog_unfold. rewrite Hread. apply Hrun.
      * rewrite od_set_map in Hout.
        destruct out as [od'|e]; [destruct Hout as [Hnd' Hout]; split; [exact Hnd'|]|];
          intros fs; prog_unfold; rewrite Hrow; apply Hout.
    + exists (Raise e). split.
      * intros fs. prog_unfold. now rewrite Hread.
      * intros fs. prog_unfold. now rewrite Hrow.
Qed.

(** [load_movements_ordered] and [load_movements] return the same
    dict, the first with its order. *)
Lemma load_movements_ordered_agrees fs :
  exists out,
    load_movements_ordered fs = (out, fs)
    /\ match out with
       | Return od =>
           NoDup od.*1 /\ load_movements fs = (Return (list_to_map od), fs)
       | Raise e => load_movements fs = (Raise e, fs)
       end.
Proof.
  unfold load_movements_ordered, load_movements. prog_unfold.
  destruct (MOVEMENTS_CSV fs) as [records|].
  - destruct (load_rows_agree (dict_reader records) [] (NoDup_nil_2))
      as (out & Hrun & Hout).
    exists out. split; [apply Hrun|].
    destruct out as [od|e]; [destruct Hout as [Hnd Hout]; split; [exact Hnd|]|];
      apply Hout.
  - exists (Return []). split; [reflexivity|]. split; [constructor | reflexivity].
Qed.

Lemma load_movements_ordered_of fs (movements : gmap string Movement) :
  load_movements fs = (Return movements, fs) ->
  exists od, load_movements_ordered fs = (Return od, fs)
             /\ NoDup od.*1 /\ movements = list_to_map od.
Proof.
  intros Hload. destruct (load_movements_ordered_agrees fs) as ([od|e] & Hrun & Hout).
  - destruct Hout as [Hnd Hgm]. exists od. split; [exact Hrun|].
    split; [exact Hnd | congruence].
  - congruence.
Qed.

(** ** find_movements *)

Lemma str_prefix_refl s : str_prefix s s = true.
Proof. induction s as [|c s IH]; simpl; [reflexivity|]. now rewrite Ascii.eqb_refl. Qed.

Lemma str_in_refl s : str_in s s = true.
Proof. destruct s; simpl; [reflexivity|]. now rewrite Ascii.eqb_refl, str_prefix_refl. Qed.

Lemma find_movements_run query fs (movements : gmap string Movement) :
  load_movements fs = (Return movements, fs) ->
  exists found,
    find_movements query fs = (Return found, fs)
    /\ forall m, m ∈ found
                 <-> (exists k, movements !! k = Some m)
                     /\ movement_matches (lower query) m = true.
Proof.
  intros Hload.
  destruct (load_movements_ordered_of fs movements Hload) as (od & Hrun & Hnd & ->).
  exists (List.filter (movement_matches (lower query)) (od_values od)).
  split.
  - unfold find_movements. now rewrite (bind_return _ _ _ _ _ Hrun).
  - intros m. rewrite <- (od_values_elem od m Hnd).
    rewrite !list_elem_of_In, filter_In. reflexivity.
Qed.

(** ** save_movements *)

Lemma movement_rows_full movs :
  forallb (full_row 7) (map movement_row movs) = true.
Proof. induction movs as [|m movs IH]; simpl; [reflexivity | exact IH]. Qed.

Lemma movement_rows_data h movs :
  data_rows (h :: map movement_row movs) = map movement_row movs.
Proof.
  unfold data_rows. simpl. apply filter_all. apply Forall_forall.
  intros r Hr. apply list_elem_of_In, in_map_iff in Hr.
  destruct Hr as (m & <- & _). reflexivity.
Qed.

Lemma catalog_of_rows movs :
  Forall (fun m => loaded_id m = Movement.id m) movs ->
  catalog_of (map movement_row movs) = add_all ∅ movs.
Proof.
  intros Hall. unfold catalog_of, add_all. generalize (∅ : gmap string Movement).
  induction Hall as [|m movs Hm _ IH]; intros acc; [reflexivity|].
  cbn [map fold_left]. rewrite (row_movement_named m Hm). apply IH.
Qed.

Lemma add_all_lookup created : forall (existing : gmap string Movement) k m,
  NoDup (map Movement.id created) ->
  (forall m', m' ∈ created -> existing !! Movement.id m' = None) ->
  add_all existing created !! k = Some m
  <-> existing !! k = Some m \/ (m ∈ created /\ Movement.id m = k).
Proof.
  induction created as [|m0 created IH]; intros existing k m Hnd Hnew; simpl.
  - split; [now left | intros [H|[H _]]; [exact H | inversion H]].
  - apply NoDup_cons in Hnd as [Hm0 Hnd].
    rewrite IH; [|exact Hnd|].
    + rewrite lookup_insert. destruct (decide (Movement.id m0 = k)) as [<-|Hne].
      * rewrite (Hnew m0) by apply list_elem_of_here. rewrite elem_of_cons.
        split.
        -- intros [[= <-]|[Hin Hid]]; right; [now split; [left|] | now split; [right|]].
        -- intros [H|[[->|Hin] Hid]]; [discriminate | now left | now right].
      * rewrite elem_of_cons. split.
        -- intros [H|[Hin Hid]]; [now left | right; now split; [right|]].
        -- intros [H|[[->|Hin] Hid]]; [now left | congruence | now right].
    + intros m' Hm'. rewrite lookup_insert_ne.
      * apply Hnew. now apply list_elem_of_further.
      * intros Heq. apply Hm0. rewrite Heq. apply list_elem_of_In, in_map.
        now apply list_elem_of_In.
Qed.

Lemma save_movements_run movs fs :
  save_movements movs fs
  = (Return (), Files (Some (movements_header :: map movement_row movs))
                      (WORKOUTS_CSV fs)).
Proof. reflexivity. Qed.

Lemma load_after_save movs w :
  Forall (fun m => loaded_id m = Movement.id m) movs ->
  load_movements (Files (Some (movements_header :: map movement_row movs)) w)
  = (Return (add_all ∅ movs),
     Files (Some (movements_header :: map movement_row movs)) w).
Proof.
  intros Hkeyed. rewrite load_movements_ok.
  - simpl default. now rewrite movement_rows_data, catalog_of_rows.
  - unfold catalog_ok, table_ok. simpl MOVEMENTS_CSV.
    apply andb_true_intro. split; [now apply bool_decide_eq_true|].
    apply movement_rows_full.
Qed.

(** ** The command add-movement *)

Lemma if_true_or_str a b : or_str a b = match if_true a with Some s => s | None => b end.
Proof. reflexivity. Qed.

Lemma loaded_id_of_args args :
  loaded_id (movement_of_args args) = Movement.id (movement_of_args args).
Proof.
  unfold loaded_id, movement_of_args, or_str. simpl.
  destruct (if_true (AddMovementArgs.id args)) as [s|] eqn:Hid.
  - now rewrite (if_true_truthy _ _ Hid).
  - now destruct (truthy (slugify (AddMovementArgs.name args))).
Qed.

(** ** The command add-set *)

Lemma truthy_isoformat t : truthy (isoformat t) = true.
Proof.
  pose proof (isoformat_nonempty t) as H. now destruct (isoformat t).
Qed.

Lemma loaded_catalog_file fs (movements : gmap string Movement) k m :
  load_movements fs = (Return movements, fs) ->
  movements !! k = Some m ->
  exists t, MOVEMENTS_CSV fs = Some t.
Proof.
  intros Hload Hk. destruct (MOVEMENTS_CSV fs) as [t|] eqn:Hm; [eauto|].
  unfold load_movements in Hload. prog_unfold. rewrite Hm in Hload.
  injection Hload as <-. now rewrite lookup_empty in Hk.
Qed.

Lemma name_known_values (od : list (string * Movement)) name :
  NoDup od.*1 ->
  name_known (list_to_map od) name
  = existsb (fun m => String.eqb (lower (Movement.name m)) (lower name))
            (od_values od).
Proof.
  intros Hnd. apply eq_true_iff_eq. unfold name_known, od_values.
  rewrite !existsb_exists. split.
  - intros ([k m] & Hin & Hsame). exists m. split; [|exact Hsame].
    apply in_map_iff. exists (k, m). split; [reflexivity|].
    apply list_elem_of_In. apply list_elem_of_In in Hin.
    apply elem_of_list_to_map; [exact Hnd|]. now apply elem_of_map_to_list.
  - intros (m & Hin & Hsame). apply in_map_iff in Hin as ([k m'] & Hm & Hin).
    simpl in Hm. subst m'. exists (k, m). split; [|exact Hsame].
    apply list_elem_of_In. apply list_elem_of_In in Hin.
    apply elem_of_map_to_list. now apply elem_of_list_to_map.
Qed.

Lemma find_by_name_none (od : list (string * Movement)) name :
  NoDup od.*1 ->
  name_known (list_to_map od) name = false ->
  find_by_name od name = None.
Proof.
  intros Hnd Hknown. rewrite (name_known_values od name Hnd) in Hknown.
  unfold find_by_name.
  destruct (List.find _ (od_values od)) as [m|] eqn:Hfind; [|reflexivity].
  apply find_some in Hfind as [Hin Hsame].
  assert (existsb (fun m => String.eqb (lower (Movement.name m)) (lower name))
            (od_values od) = true) by (apply existsb_exists; eauto).
  congruence.
Qed.

Lemma find_by_name_some (od : list (string * Movement)) name :
  NoDup od.*1 ->
  name_known (list_to_map od) name = true ->
  exists m, find_by_name od name = Some m
            /\ (exists k, (list_to_map od : gmap string Movement) !! k = Some m)
            /\ lower (Movement.name m) = lower name.
Proof.
  intros Hnd Hknown. rewrite (name_known_values od name Hnd) in Hknown.
  unfold find_by_name.
  destruct (List.find _ (od_values od)) as [m|] eqn:Hfind.
  - apply find_some in Hfind as [Hin Hsame]. exists m. split; [reflexivity|].
    split; [|now apply String.eqb_eq].
    apply (od_values_elem od m Hnd). now apply list_elem_of_In.
  - apply existsb_exists in Hknown as (m & Hin & Hsame).
    pose proof (find_none _ _ Hfind m Hin) as Hno. simpl in Hno. congruence.
Qed.

Lemma resolve_by_id args fs (movements : gmap string Movement) movement :
  load_movements fs = (Return movements, fs) ->
  by_id movements args = Some movement ->
  resolve_movement args fs = (Return (Some movement), fs).
Proof.
  intros Hload Hid.
  destruct (load_movements_ordered_of fs movements Hload) as (od & Hrun & Hnd & ->).
  unfold resolve_movement. rewrite (bind_return _ _ _ _ _ Hrun).
  unfold by_id in Hid. destruct (if_true (AddSetArgs.movement_id args)) as [mid|];
    [|discriminate].
  rewrite od_get_map, Hid. now destruct (if_true (AddSetArgs.movement_name args)).
Qed.

Lemma by_id_none_get args (od : list (string * Movement)) :
  by_id (list_to_map od) args = None ->
  match if_true (AddSetArgs.movement_id args) with
  | Some mid => od_get mid od
  | None => None
  end = None.
Proof.
  unfold by_id. destruct (if_true (AddSetArgs.movement_id args)); [|reflexivity].
  now rewrite od_get_map.
Qed.

Lemma resolve_by_name args fs (movements : gmap string Movement) name :
  load_movements fs = (Return movements, fs) ->
  by_id movements args = None ->
  if_true (AddSetArgs.movement_name args) = Some name ->
  name_known movements name = true ->
  exists movement,
    resolve_movement args fs = (Return (Some movement), fs)
    /\ (exists k, movements !! k = Some movement)
    /\ lower (Movement.name movement) = lower name.
Proof.
  intros Hload Hid Hname Hknown.
  destruct (load_movements_ordered_of fs movements Hload) as (od & Hrun & Hnd & ->).
  destruct (find_by_name_some od name Hnd Hknown) as (m & Hfind & Hin & Hsame).
  exists m. split; [|split; assumption].
  unfold resolve_movement. rewrite (bind_return _ _ _ _ _ Hrun).
  now rewrite (by_id_none_get args od Hid), Hname, Hfind.
Qed.

Lemma resolve_none args fs (movements : gmap string Movement) :
  load_movements fs = (Return movements, fs) ->
  by_id movements args = None ->
  if_true (AddSetArgs.movement_name args) = None ->
  resolve_movement args fs = (Return None, fs).
Proof.
  intros Hload Hid Hname.
  destruct (load_movements_ordered_of fs movements Hload) as (od & Hrun & Hnd & ->).
  unfold resolve_movement. rewrite (bind_return _ _ _ _ _ Hrun).
  now rewrite (by_id_none_get args od Hid), Hname.
Qed.

(** Neither the id nor the name is known: the movement is made from
    the name and handed to [append_movement]. *)
Lemma resolve_new args fs (movements : gmap string Movement) name :
  load_movements fs = (Return movements, fs) ->
  by_id movements args = None ->
  if_true (AddSetArgs.movement_name args) = Some name ->
  name_known movements name = false ->
  resolve_movement args fs
  = (_ ← append_movement (Movement.Build (slugify name) name "" "" "" "" "");
     mret (Some (Movement.Build (slugify name) name "" "" "" "" ""))) fs.
Proof.
  intros Hload Hid Hname Hknown.
  destruct (load_movements_ordered_of fs movements Hload) as (od & Hrun & Hnd & ->).
  unfold resolve_movement. rewrite (bind_return _ _ _ _ _ Hrun).
  now rewrite (by_id_none_get args od Hid), Hname, (find_by_name_none od name Hnd Hknown).
Qed.

Lemma loaded_id_slug name c u p s n :
  loaded_id (Movement.Build (slugify name) name c u p s n) = slugify name.
Proof. unfold loaded_id. simpl. now destruct (truthy (slugify name)). Qed.

(** The command once the movement is resolved. *)
Lemma cmd_add_set_run float_repr py_int py_float fresh now args movement fs fs1 :
  resolve_movement args fs = (Return (Some movement), fs1) ->
  cmd_add_set float_repr py_int py_float fresh now args fs
  = match convert_numbers py_int py_float args with
    | Return numbers =>
        (Return Done,
         Files (MOVEMENTS_CSV (ensured fs1))
               (Some (default [workouts_header] (WORKOUTS_CSV fs1)
                      ++ [set_row float_repr
                            (new_set_record fresh now args movement numbers)])))
    | Raise e => (Raise e, fs1)
    end.
Proof.
  intros Hres. unfold cmd_add_set. rewrite (bind_return _ _ _ _ _ Hres).
  unfold call. prog_unfold.
  destruct (convert_numbers py_int py_float args) as [numbers|e]; [|reflexivity].
  rewrite append_set_record_run. unfold stamped.
  change (SetRecord.created_at (new_set_record fresh now args movement numbers))
    with (isoformat now).
  now rewrite truthy_isoformat.
Qed.

Lemma load_movements_transfer fs fs' (movements : gmap string Movement) :
  MOVEMENTS_CSV fs = MOVEMENTS_CSV fs' ->
  load_movements fs = (Return movements, fs) ->
  load_movements fs' = (Return movements, fs').
Proof.
  intros Heq Hload.
  pose proof (load_movements_same_catalog fs fs' Heq) as Hsame.
  destruct (load_movements_result fs') as (out & Hrun & _).
  rewrite Hload, Hrun in Hsame. simpl in Hsame. now subst out.
Qed.

Lemma resolve_new_run args fs (movements : gmap string Movement) name :
  catalog_ok fs = true ->
  load_movements fs = (Return movements, fs) ->
  by_id movements args = None ->
  if_true (AddSetArgs.movement_name args) = Some name ->
  name_known movements name = false ->
  resolve_movement args fs
  = match movements !! slugify name with
    | Some _ => (Raise (DuplicateIdentifier (movement_named name)), ensured fs)
    | None => (Return (Some (movement_named name)),
               with_movement (movement_named name) (ensured fs))
    end.
Proof.
  intros Hok Hload Hid Hname Hknown.
  rewrite (resolve_new args fs movements name Hload Hid Hname Hknown).
  fold (movement_named name).
  pose proof (append_movement_run (movement_named name) fs Hok) as Hrun.
  rewrite (load_movements_ok fs Hok) in Hload. injection Hload as <-.
  change (Movement.id (movement_named name)) with (slugify name) in Hrun.
  destruct (catalog_of _ !! slugify name).
  - now rewrite (bind_raise _ _ _ _ _ Hrun).
  - now rewrite (bind_return _ _ _ _ _ Hrun).
Qed.

Lemma cmd_add_set_raise float_repr py_int py_float fresh now args fs e fs1 :
  resolve_movement args fs = (Raise e, fs1) ->
  cmd_add_set float_repr py_int py_float fresh now args fs = (Raise e, fs1).
Proof. intros Hres. unfold cmd_add_set. now rewrite (bind_raise _ _ _ _ _ Hres). Qed.

Lemma stored_after_append m fs fs' :
  catalog_ok fs = true ->
  loaded_id m = Movement.id m ->
  MOVEMENTS_CSV fs' = MOVEMENTS_CSV (with_movement m (ensured fs)) ->
  stored m fs'.
Proof.
  intros Hok Hid Hfile. eexists. split.
  - apply (load_movements_transfer (with_movement m (ensured fs)) fs');
      [now symmetry | apply (load_after_append m fs Hok)].
  - rewrite (row_movement_named m Hid). apply lookup_insert_eq.
Qed.

Lemma loaded_id_movement_named name :
  loaded_id (movement_named name) = Movement.id (movement_named name).
Proof. apply loaded_id_slug. Qed.

(** ** The name of a row *)

Lemma row_name_resolved row : row_name row = resolved_name row.
Proof.
  unfold row_name, resolved_name, name_aliases, or_str, py_or, if_true, row_get,
    filled.
  cbn [omap list_omap].
  destruct (row !! "Exercise_Name") as [[[|c1 s1]|]|];
    destruct (row !! "Exercise Name") as [[[|c2 s2]|]|];
    destruct (row !! "Exercise") as [[[|c3 s3]|]|]; reflexivity.
Qed.

(** ** The tokens of a written summary *)

Lemma str_contains_app c s t :
  str_contains c (s +:+ t) = str_contains c s || str_contains c t.
Proof.
  induction s as [|a s IH]; [reflexivity|]. simpl. now rewrite IH, orb_assoc.
Qed.

Lemma string_app_assoc (s t u : string) : (s +:+ t) +:+ u = s +:+ (t +:+ u).
Proof.
  induction s as [|a s IH]; [reflexivity|].
  change (String a ((s +:+ t) +:+ u) = String a (s +:+ (t +:+ u))).
  now rewrite IH.
Qed.

Lemma string_app_empty (s : string) : s +:+ EmptyString = s.
Proof.
  induction s as [|a s IH]; [reflexivity|].
  change (String a (s +:+ EmptyString) = String a s). now rewrite IH.
Qed.

Lemma split_go_free c field s :
  str_contains c s = false -> split_go c field s = [field +:+ s].
Proof.
  revert field. induction s as [|a s IH]; intros field; simpl.
  - intros _. now rewrite string_app_empty.
  - intros [Ha Hs]%orb_false_elim. rewrite Ha, (IH _ Hs), string_app_assoc.
    reflexivity.
Qed.

Lemma split_go_sep c field s rest :
  str_contains c s = false ->
  split_go c field (s +:+ String c rest)
  = (field +:+ s) :: split_go c EmptyString rest.
Proof.
  revert field. induction s as [|a s IH]; intros field; simpl.
  - intros _. now rewrite Ascii.eqb_refl, string_app_empty.
  - intros [Ha Hs]%orb_false_elim. rewrite Ha, (IH _ Hs), string_app_assoc.
    reflexivity.
Qed.

(** Cutting the joined parts at the separator gives the parts back,
    when there is a part and no part holds the separator. *)
Lemma str_split_join c parts :
  parts <> [] ->
  Forall (fun p => str_contains c p = false) parts ->
  str_split c (join (String c EmptyString) parts) = parts.
Proof.
  unfold str_split, join. intros Hne Hall.
  induction Hall as [|p parts Hp Hall IH]; [now elim Hne|].
  destruct parts as [|q parts].
  - simpl. now rewrite (split_go_free c _ p Hp).
  - change (String.concat (String c EmptyString) (p :: q :: parts))
      with (p +:+ String c (String.concat (String c EmptyString) (q :: parts))).
    rewrite (split_go_sep c _ p _ Hp).
    change (EmptyString +:+ p) with p. f_equal. now apply IH.
Qed.

Lemma uint_text_plain d : str_contains ";" (NilEmpty.string_of_uint d) = false.
Proof. induction d; simpl; auto. Qed.

Lemma str_of_Z_plain z : str_contains ";" (str_of_Z z) = false.
Proof.
  unfold str_of_Z. destruct (Z.to_int z); simpl; apply uint_text_plain.
Qed.

Lemma descriptor_plain_free float_repr record :
  descriptor_plain float_repr record = true ->
  str_contains ";"
    (descriptor (mk_dict_row workouts_header (set_row float_repr record)))
  = false.
Proof.
  unfold descriptor_plain.
  intros [[Hn Hr]%andb_prop Hl]%andb_prop.
  apply negb_true_iff in Hn, Hr, Hl.
  rewrite descriptor_of_set_row, !str_contains_app, Hn, Hr, Hl, str_of_Z_plain.
  reflexivity.
Qed.

Lemma stamped_plain float_repr now record :
  descriptor_plain float_repr (stamped now record)
  = descriptor_plain float_repr record.
Proof. unfold stamped. now destruct (truthy _). Qed.

(** The tokens of the table written for [summaries] are their
    descriptors, when each summary has one and none holds a
    semicolon. *)
Lemma summary_tokens_descriptors summaries :
  Forall (fun s => Summary.movements s <> []
                   /\ Forall (fun d => str_contains ";" d = false)
                             (Summary.movements s)) summaries ->
  summary_tokens (summary_header :: map summary_row summaries)
  = concat (map Summary.movements summaries).
Proof.
  unfold summary_tokens. simpl tail. rewrite map_map.
  induction 1 as [|s summaries [Hne Hfree] _ IH]; [reflexivity|].
  cbn [map concat]. rewrite IH. f_equal.
  change (nth 2 (summary_row s) EmptyString) with (join ";" (Summary.movements s)).
  now apply (str_split_join ";").
Qed.

(** The summaries of a log that [append_set_record] wrote hold the
    descriptors of its records. *)
Lemma groups_descriptors rows summaries :
  groups_by_workout rows summaries ->
  Forall (fun s => Summary.movements s <> []
                   /\ Forall (fun d => d ∈ map descriptor rows)
                             (Summary.movements s)) summaries.
Proof.
  intros (_ & _ & _ & Hgroups). apply Forall_forall. intros s Hs.
  destruct (Hgroups s Hs) as (r0 & g & Hfilter & _ & ->).
  split; [discriminate|].
  apply Forall_forall. intros d Hd.
  apply list_elem_of_In, in_map_iff in Hd. destruct Hd as (r & <- & Hr).
  apply list_elem_of_In, in_map_iff. exists r. split; [reflexivity|].
  apply list_elem_of_In. apply list_elem_of_In in Hr.
  rewrite <- Hfilter in Hr. now apply list_elem_of_filter in Hr as [_ Hr].
Qed.

(** The log after the calls, from a log without records: its header
    has the column workout_id, and its rows are those of the records
    as the calls left them. *)
Lemma appended_log_rows float_repr calls fs :
  log_empty fs = true ->
  exists fs',
    append_set_records float_repr calls fs = (Return (), fs')
    /\ (forall records, WORKOUTS_CSV fs' = Some records ->
                        has_column "workout_id" records = true)
    /\ dict_reader (default [] (WORKOUTS_CSV fs'))
       = map (fun call => mk_dict_row workouts_header
                            (set_row float_repr (stamped call.1 call.2))) calls.
Proof.
  intros Hempty.
  destruct (append_set_records_run float_repr calls fs) as (fs' & Hrun & Hw).
  exists fs'. split; [exact Hrun|].
  assert (Hlog : default [workouts_header] (WORKOUTS_CSV fs) = [workouts_header]).
  { unfold log_empty in Hempty. destruct (WORKOUTS_CSV fs); [|reflexivity].
    now apply bool_decide_eq_true in Hempty. }
  split.
  - intros records Hrec. rewrite Hrec in Hw. destruct calls.
    + unfold log_empty in Hempty. rewrite <- Hw in Hempty.
      apply bool_decide_eq_true in Hempty. now subst records.
    + rewrite Hlog in Hw. now inversion Hw.
  - destruct calls as [|call calls].
    + rewrite Hw. unfold log_empty in Hempty.
      destruct (WORKOUTS_CSV fs); [|reflexivity].
      apply bool_decide_eq_true in Hempty. now subst.
    + rewrite Hw, Hlog. simpl default.
      change ([workouts_header] ++ ?l) with (workouts_header :: l).
      rewrite dict_reader_rows.
      rewrite <- (map_map (fun call => stamped call.1 call.2) (set_row float_repr)).
      change (set_row float_repr (stamped call.1 call.2)
              :: map (set_row float_repr) ?l)
        with (map (set_row float_repr) (stamped call.1 call.2 :: l)).
      rewrite data_rows_set_rows. cbn [map]. now rewrite !map_map.
Qed.

(** ** Rows of one key *)

Lemma catalog_of_last rows k :
  catalog_of rows !! k = last (filed_under k rows).
Proof.
  unfold filed_under.
  induction rows as [|r rows IH] using rev_ind; [apply lookup_empty|].
  rewrite catalog_of_snoc, map_app, filter_app. cbn [map].
  rewrite filter_cons, filter_nil.
  destruct (decide (Movement.id (row_movement r) = k)) as [Heq|Hne].
  - rewrite last_snoc, <- Heq. apply lookup_insert_eq.
  - rewrite app_nil_r, lookup_insert_ne by exact Hne. exact IH.
Qed.

(** * The claims *)

(** C1, as the specification states it, fails for a movement whose id
    is the empty string: the row is appended, [load_movements] files it
    under the slug of its name ("foo"), not under its id, and a second
    append of the same movement is accepted. *)
Lemma append_movement_empty_id :
  exists fs' fs'',
    append_movement unnamed_foo no_files = (Return (), fs')
    /\ ~ stored unnamed_foo fs'
    /\ append_movement unnamed_foo fs' = (Return (), fs'').
Proof.
  eexists; eexists. split; [vm_compute; reflexivity|]. split.
  - intros [movements [Hload Hm]]. vm_compute in Hload.
    inversion Hload; subst movements. vm_compute in Hm. discriminate.
  - vm_compute. reflexivity.
Qed.

(** C1 (amended): on a well-formed catalog, [append_movement m] raises
    DuplicateIdentifier when [m.id] is a key of the loaded catalog, and
    otherwise appends exactly one row; when moreover [m.id] is the key
    under which [load_movements] files that row ([m.id] is not empty,
    or the slug of [m.name] is empty as well), [load_movements] on the
    files it leaves returns a mapping that holds [m] under [m.id], and
    appending [m] again raises DuplicateIdentifier. *)
Theorem append_movement_spec (m : Movement) (fs : files) :
  catalog_ok fs = true ->
  exists movements,
    load_movements fs = (Return movements, fs) /\
    match movements !! Movement.id m with
    | Some _ => (append_movement m fs).1 = Raise (DuplicateIdentifier m)
    | None =>
        exists fs',
          append_movement m fs = (Return (), fs')
          /\ MOVEMENTS_CSV fs'
             = Some (default [movements_header] (MOVEMENTS_CSV fs)
                     ++ [movement_row m])
          /\ (loaded_id m = Movement.id m ->
              stored m fs'
              /\ (append_movement m fs').1 = Raise (DuplicateIdentifier m))
    end.
Proof.
  intros Hok. eexists. split; [apply (load_movements_ok fs Hok)|].
  rewrite (append_movement_run m fs Hok).
  destruct (catalog_of _ !! Movement.id m) eqn:Hid; [reflexivity|].
  eexists. split; [reflexivity|]. split; [reflexivity|].
  intros Hne. split.
  - eexists. split; [apply (load_after_append m fs Hok)|].
    rewrite (row_movement_named m Hne). apply lookup_insert_eq.
  - pose proof (ensured_catalog_ok fs Hok) as Hok'.
    rewrite (append_movement_run m _ (with_movement_ok m fs Hok')).
    rewrite (with_movement_rows m fs Hok'), catalog_of_snoc.
    rewrite (row_movement_named m Hne), lookup_insert_eq. reflexivity.
Qed.

(** The same at the movement of the tests, with no file yet: the
    append returns, the movement is stored, a second append is
    refused. *)
Lemma append_movement_spec_witness :
  catalog_ok no_files = true
  /\ loaded_id foo_lift = Movement.id foo_lift
  /\ exists fs',
       append_movement foo_lift no_files = (Return (), fs')
       /\ stored foo_lift fs'
       /\ (append_movement foo_lift fs').1 = Raise (DuplicateIdentifier foo_lift).
Proof.
  split; [reflexivity|]. split; [reflexivity|].
  destruct (append_movement_spec foo_lift no_files eq_refl)
    as (movements & Hload & Hspec).
  vm_compute in Hload. injection Hload as <-.
  change ((∅ : gmap string Movement) !! Movement.id foo_lift)
    with (@None Movement) in Hspec.
  destruct Hspec as (fs' & Happend & _ & Hstored).
  exists fs'. split; [exact Happend|]. exact (Hstored eq_refl).
Defined.

(** C2: on a log whose header has the column workout_id,
    [export_summary] writes to [out], whatever file that is, the
    header and one row for each distinct workout id, in
    the order in which the ids first occur in the log; the date of a
    row is that of the first record of its workout, and its
    descriptors are those of the records of the workout in the order of
    the log, joined by semicolons.  The descriptor of a record that
    [append_set_record] wrote is
    <movement_name>:<set_number>x<reps>@<load>. *)
Theorem export_summary_groups (out : out_file) (fs : files)
    (records : csv_table) :
  WORKOUTS_CSV fs = Some records ->
  has_column "workout_id" records = true ->
  (exists summaries,
     export_summary out fs
     = (Return (Some (summary_header :: map summary_row summaries),
                length summaries),
        write_at out (summary_header :: map summary_row summaries) fs)
     /\ groups_by_workout (dict_reader records) summaries)
  /\ forall float_repr record,
       descriptor (mk_dict_row workouts_header (set_row float_repr record))
       = SetRecord.movement_name record +:+ ":"
         +:+ str_of_Z (SetRecord.set_number record) +:+ "x"
         +:+ cell (SetRecord.reps record) +:+ "@"
         +:+ load_text float_repr record.
Proof.
  intros Hw Hcol%bool_decide_eq_true. split.
  - exists (summarize (dict_reader records)).
    split; [now apply export_summary_run | apply summarize_groups].
  - apply descriptor_of_set_row.
Qed.

(** The same on the sample log, written to a file of its own. *)
Lemma export_summary_groups_witness :
  WORKOUTS_CSV sample_log = Some sample_records
  /\ has_column "workout_id" sample_records = true
  /\ exists summaries,
       export_summary OtherFile sample_log
       = (Return (Some (summary_header :: map summary_row summaries),
                  length summaries), sample_log)
       /\ groups_by_workout (dict_reader sample_records) summaries.
Proof.
  split; [reflexivity|]. split; [reflexivity|].
  apply (export_summary_groups OtherFile sample_log sample_records); reflexivity.
Defined.

(** C3, as the specification states it, fails: a run of two interior
    spaces gives two joining characters, not one. *)
Lemma slugify_run_not_collapsed : slugify "a  b" <> normalize_spec "a  b".
Proof. vm_compute. discriminate. Qed.

(** C3 (amended): for every input, [slugify] lower-cases, trims, turns
    each interior SPACE into one underscore (a run of spaces is not
    merged; other interior whitespace is not replaced, the stripping
    step removes it), strips what is neither alphanumeric nor the
    underscore, and keeps at most 40 characters.  Where the trimmed
    input has no whitespace but isolated SPACEs, the result is the one
    the specification describes. *)
Theorem slugify_normalizes (name : string) :
  slugify name = normalize_each_space name
  /\ String.length (slugify name) <= 40
  /\ str_forall slug_char (slugify name) = true
  /\ (single_spaced false (strip (lower name)) = true ->
      slugify name = normalize_spec name).
Proof.
  assert (Heq : slugify name = normalize_each_space name).
  { unfold slugify, normalize_each_space. now rewrite strip_lower. }
  repeat split.
  - exact Heq.
  - apply slugify_length.
  - generalize (slugify_settled name). apply str_forall_impl.
    now intros c [Hc _]%andb_prop.
  - intros Hsp. rewrite Heq. unfold normalize_each_space, normalize_spec.
    now rewrite (collapse_single_spaced _ _ Hsp).
Qed.

(** The same on a name with one interior space. *)
Lemma slugify_normalizes_witness :
  single_spaced false (strip (lower " Bench Press ")) = true
  /\ slugify " Bench Press " = normalize_spec " Bench Press ".
Proof.
  split; [reflexivity|].
  apply (proj2 (proj2 (proj2 (slugify_normalizes " Bench Press ")))).
  reflexivity.
Defined.

(** C4: in an import run on a well-formed catalog, each movement that
    is created gets for id the first of slug, slug_2, slug_3, ... that
    is not a key of the snapshot it meets (the catalog and the
    movements created before it in the run): the bare slug when that
    is free, slug_2 when the slug is taken and slug_2 is free.  So the
    ids created in a run differ from one another and from the ids of
    the catalog. *)
Theorem import_ids_distinct
    (csv_reader : ascii -> list string -> csv_table) (text : string)
    (fs : files) :
  catalog_ok fs = true ->
  truthy text = true ->
  (exists existing created fs',
     load_movements fs = (Return existing, fs)
     /\ import_movements_file csv_reader (Some text) fs
        = (Return (length created), fs')
     /\ MOVEMENTS_CSV fs' = catalog_with created fs
     /\ ids_resolved existing created
     /\ NoDup (map Movement.id created)
     /\ forall m, m ∈ created -> existing !! Movement.id m = None)
  /\ (forall snapshot name mid,
        first_free snapshot name mid ->
        snapshot !! slugify name = None -> mid = slugify name)
  /\ (forall snapshot name mid,
        first_free snapshot name mid ->
        is_Some (snapshot !! slugify name) ->
        snapshot !! suffixed name 2 = None -> mid = suffixed name 2).
Proof.
  intros Hok Htext. split; [|split].
  - destruct (import_run csv_reader text fs Hok Htext)
      as (existing & created & fs' & Hload & Hrun & Hfile & _ & Hids & _).
    destruct (ids_resolved_fresh created existing Hids) as [Hnd Hnew].
    exists existing, created, fs'. auto 10.
  - apply first_free_bare.
  - apply first_free_second.
Qed.

(** The same on the source with two names of one slug. *)
Lemma import_ids_distinct_witness :
  catalog_ok no_files = true
  /\ truthy overhead_source = true
  /\ exists existing created fs',
       load_movements no_files = (Return existing, no_files)
       /\ import_movements_file plain_reader (Some overhead_source) no_files
          = (Return (length created), fs')
       /\ MOVEMENTS_CSV fs' = catalog_with created no_files
       /\ ids_resolved existing created
       /\ NoDup (map Movement.id created)
       /\ forall m, m ∈ created -> existing !! Movement.id m = None.
Proof.
  split; [reflexivity|]. split; [reflexivity|].
  apply (import_ids_distinct plain_reader overhead_source no_files); reflexivity.
Defined.

(** C5: on a well-formed catalog and a source with a header line,
    [import_movements_file] returns the number of movements it
    created, one row appended to the catalog for each.  The name of a
    row is the trimmed cell under the first of the header aliases
    Exercise_Name, Exercise Name, Exercise, in this order, that has a
    cell which is not empty; a row creates a movement when, and only
    when, this name is not empty and no movement of the snapshot at
    that point (the catalog and the movements created before in the
    run) has the same name but for case; the other rows are passed
    over, and nothing is raised. *)
Theorem import_counts_created
    (csv_reader : ascii -> list string -> csv_table) (text : string)
    (fs : files) :
  catalog_ok fs = true ->
  truthy text = true ->
  (exists existing created fs',
     let rows :=
       dict_reader (csv_reader (delimiter_of (hd EmptyString (splitlines text)))
                               (splitlines text)) in
     load_movements fs = (Return existing, fs)
     /\ import_movements_file csv_reader (Some text) fs
        = (Return (length (creating_rows (catalog_names existing) rows)), fs')
     /\ length created = length (creating_rows (catalog_names existing) rows)
     /\ MOVEMENTS_CSV fs' = catalog_with created fs
     /\ map Movement.name created
        = map resolved_name (creating_rows (catalog_names existing) rows))
  /\ (forall known row,
        creates known row = true
        <-> resolved_name row <> EmptyString
            /\ forall n, In n known -> lower n <> lower (resolved_name row))
  /\ (forall known row rows,
        creating_rows known (row :: rows)
        = if creates known row
          then row :: creating_rows (resolved_name row :: known) rows
          else creating_rows known rows)
  /\ (forall known, creating_rows known [] = [])
  /\ (forall row cell,
        row !! "Exercise_Name" = Some (Some cell) -> cell <> EmptyString ->
        resolved_name row = strip cell)
  /\ (forall row cell,
        filled row "Exercise_Name" = None ->
        row !! "Exercise Name" = Some (Some cell) -> cell <> EmptyString ->
        resolved_name row = strip cell)
  /\ (forall row cell,
        filled row "Exercise_Name" = None ->
        filled row "Exercise Name" = None ->
        row !! "Exercise" = Some (Some cell) -> cell <> EmptyString ->
        resolved_name row = strip cell)
  /\ (forall row,
        filled row "Exercise_Name" = None ->
        filled row "Exercise Name" = None ->
        filled row "Exercise" = None ->
        resolved_name row = EmptyString).
Proof.
  intros Hok Htext. split; [|split; [|split; [|split; [reflexivity|]]]].
  - destruct (import_run csv_reader text fs Hok Htext)
      as (existing & created & fs' & Hload & Hrun & Hfile & _ & _ & Hnames).
    exists existing, created, fs'.
    assert (Hlen : length created
                   = length (creating_rows (catalog_names existing)
                       (dict_reader
                          (csv_reader (delimiter_of (hd EmptyString (splitlines text)))
                                      (splitlines text))))).
    { apply (f_equal (@length _)) in Hnames. now rewrite !length_map in Hnames. }
    cbv zeta. rewrite <- Hlen.
    rewrite (map_ext _ _ row_name_resolved) in Hnames. auto 10.
  - intros known row. rewrite <- row_name_resolved. apply creates_iff.
  - intros known row rows. rewrite <- row_name_resolved. reflexivity.
  - unfold resolved_name, name_aliases, filled. cbn [omap list_omap].
    repeat split.
    + intros row [|c s] -> Hne; [now elim Hne | reflexivity].
    + intros row [|c s] H1 -> Hne; [now elim Hne|].
      now destruct (row !! "Exercise_Name") as [[[|c1 s1]|]|].
    + intros row [|c s] H1 H2 -> Hne; [now elim Hne|].
      now destruct (row !! "Exercise_Name") as [[[|c1 s1]|]|];
        destruct (row !! "Exercise Name") as [[[|c2 s2]|]|].
    + intros row H1 H2 H3.
      now destruct (row !! "Exercise_Name") as [[[|c1 s1]|]|];
        destruct (row !! "Exercise Name") as [[[|c2 s2]|]|];
        destruct (row !! "Exercise") as [[[|c3 s3]|]|].
Qed.

(** The same on the source with two names of one slug. *)
Lemma import_counts_created_witness :
  catalog_ok no_files = true
  /\ truthy overhead_source = true
  /\ exists existing created fs',
       let rows :=
         dict_reader
           (plain_reader (delimiter_of (hd EmptyString (splitlines overhead_source)))
                         (splitlines overhead_source)) in
       load_movements no_files = (Return existing, no_files)
       /\ import_movements_file plain_reader (Some overhead_source) no_files
          = (Return (length (creating_rows (catalog_names existing) rows)), fs')
       /\ length created = length (creating_rows (catalog_names existing) rows)
       /\ MOVEMENTS_CSV fs' = catalog_with created no_files
       /\ map Movement.name created
          = map resolved_name (creating_rows (catalog_names existing) rows).
Proof.
  split; [reflexivity|]. split; [reflexivity|].
  apply (import_counts_created plain_reader overhead_source no_files); reflexivity.
Defined.

(** C6, as the specification states it, fails: a semicolon in the
    reps of a record cuts its descriptor in two, so that one appended
    record gives two tokens in the written field. *)
Lemma semicolon_cuts_descriptor :
  exists fs' table,
    append_set_records no_floats cluster_calls no_files = (Return (), fs')
    /\ export_summary OtherFile fs' = (Return (Some table, 1%nat), fs')
    /\ summary_tokens table = ["Barbell Press:1x5"; "5@"]
    /\ length (summary_tokens table) <> length cluster_calls.
Proof.
  eexists. eexists. split; [reflexivity|]. split; [reflexivity|].
  split; [reflexivity|]. vm_compute. discriminate.
Qed.

(** C6: after N calls of [append_set_record] on a log that held no
    record, with records whose name, reps and load are written
    without a semicolon, the fields movements_summary that
    [export_summary] writes, cut at the semicolons, give N tokens in
    all: the descriptors of the summaries, one for each appended
    record. *)
Theorem appended_sets_are_summarized
    (float_repr : float -> string) (calls : list (datetime * SetRecord))
    (out : out_file) (fs : files) :
  log_empty fs = true ->
  forallb (fun call => descriptor_plain float_repr call.2) calls = true ->
  exists fs',
    append_set_records float_repr calls fs = (Return (), fs')
    /\ exists summaries,
         export_summary out fs'
         = (Return ((fun _ => summary_header :: map summary_row summaries)
                      <$> WORKOUTS_CSV fs',
                    length summaries),
            match WORKOUTS_CSV fs' with
            | Some _ =>
                write_at out (summary_header :: map summary_row summaries) fs'
            | None => fs'
            end)
         /\ groups_by_workout (dict_reader (default [] (WORKOUTS_CSV fs')))
                              summaries
         /\ descriptor_count summaries = length calls
         /\ summary_tokens (summary_header :: map summary_row summaries)
            = concat (map Summary.movements summaries)
         /\ length (summary_tokens (summary_header :: map summary_row summaries))
            = length calls.
Proof.
  intros Hempty Hplain.
  destruct (appended_log_rows float_repr calls fs Hempty)
    as (fs' & Hrun & Hcol & Hrows).
  exists fs'. split; [exact Hrun|].
  exists (summarize (dict_reader (default [] (WORKOUTS_CSV fs')))).
  pose proof (summarize_groups (dict_reader (default [] (WORKOUTS_CSV fs'))))
    as Hgroups.
  assert (Hcount : descriptor_count
                     (summarize (dict_reader (default [] (WORKOUTS_CSV fs'))))
                   = length calls).
  { now rewrite descriptor_count_summarize, Hrows, length_map. }
  assert (Htokens : summary_tokens
                      (summary_header
                       :: map summary_row
                            (summarize (dict_reader (default [] (WORKOUTS_CSV fs')))))
                    = concat (map Summary.movements
                                (summarize (dict_reader (default [] (WORKOUTS_CSV fs')))))).
  { apply summary_tokens_descriptors.
    eapply Forall_impl; [apply (groups_descriptors _ _ Hgroups)|].
    intros s [Hne Hall]. split; [exact Hne|].
    eapply Forall_impl; [exact Hall|]. intros d Hd. rewrite Hrows in Hd.
    apply list_elem_of_In in Hd. rewrite map_map in Hd.
    apply in_map_iff in Hd. destruct Hd as (call & <- & Hcall).
    apply descriptor_plain_free. rewrite stamped_plain.
    rewrite forallb_forall in Hplain. now apply Hplain. }
  split; [|split; [exact Hgroups|split; [exact Hcount|split; [exact Htokens|]]]].
  - rewrite (export_summary_any out fs' Hcol). now destruct (WORKOUTS_CSV fs').
  - rewrite Htokens. exact Hcount.
Qed.

(** The same for two appended sets. *)
Lemma appended_sets_are_summarized_witness :
  log_empty no_files = true
  /\ forallb (fun call => descriptor_plain no_floats call.2) sample_calls = true
  /\ exists fs',
       append_set_records no_floats sample_calls no_files = (Return (), fs')
       /\ exists summaries,
            export_summary OtherFile fs'
            = (Return ((fun _ => summary_header :: map summary_row summaries)
                         <$> WORKOUTS_CSV fs',
                       length summaries), fs')
            /\ length (summary_tokens (summary_header :: map summary_row summaries))
               = length sample_calls.
Proof.
  split; [reflexivity|]. split; [reflexivity|].
  destruct (appended_sets_are_summarized no_floats sample_calls OtherFile no_files
              eq_refl eq_refl)
    as (fs' & Hrun & summaries & Hexport & _ & _ & _ & Htokens).
  exists fs'. split; [exact Hrun|]. exists summaries.
  split; [|exact Htokens].
  rewrite Hexport. now destruct (WORKOUTS_CSV fs').
Defined.

(** C7: [append_set_record] stamps a record whose [created_at] is
    unset (the empty string) with the time stamp of the clock read
    during the call, and leaves a [created_at] that is set as it is;
    the row it appends carries that value. *)
Theorem append_set_record_created_at
    (float_repr : float -> string) (now : datetime) (record : SetRecord)
    (fs : files) :
  exists record' fs',
    append_set_record float_repr now record fs = (Return record', fs')
    /\ SetRecord.created_at record'
       = match SetRecord.created_at record with
         | EmptyString => isoformat now
         | String _ _ => SetRecord.created_at record
         end
    /\ WORKOUTS_CSV fs'
       = Some (default [workouts_header] (WORKOUTS_CSV fs)
               ++ [set_row float_repr record'])
    /\ last (set_row float_repr record') = Some (SetRecord.created_at record').
Proof.
  eexists. eexists. split; [apply append_set_record_run|].
  split; [|split; reflexivity].
  unfold stamped. destruct (SetRecord.created_at record) eqn:Hc; simpl; [reflexivity|].
  exact Hc.
Qed.

(** C8: [slugify] is idempotent: slugifying a slug gives it back. *)
Theorem slugify_idempotent (x : string) : slugify (slugify x) = slugify x.
Proof. apply slugify_fixed; [apply slugify_settled | apply slugify_length]. Qed.

(** C9: the record as the call leaves it has a [created_at] that is
    not empty, and every other field as it was before the call. *)
Theorem append_set_record_frame
    (float_repr : float -> string) (now : datetime) (record : SetRecord)
    (fs : files) :
  exists record' fs',
    append_set_record float_repr now record fs = (Return record', fs')
    /\ SetRecord.created_at record' <> EmptyString
    /\ SetRecord.workout_id record' = SetRecord.workout_id record
    /\ SetRecord.date record' = SetRecord.date record
    /\ SetRecord.start_time record' = SetRecord.start_time record
    /\ SetRecord.movement_id record' = SetRecord.movement_id record
    /\ SetRecord.movement_name record' = SetRecord.movement_name record
    /\ SetRecord.set_number record' = SetRecord.set_number record
    /\ SetRecord.set_type record' = SetRecord.set_type record
    /\ SetRecord.cluster_id record' = SetRecord.cluster_id record
    /\ SetRecord.reps record' = SetRecord.reps record
    /\ SetRecord.load record' = SetRecord.load record
    /\ SetRecord.unit record' = SetRecord.unit record
    /\ SetRecord.rest_seconds record' = SetRecord.rest_seconds record
    /\ SetRecord.rpe record' = SetRecord.rpe record
    /\ SetRecord.tags record' = SetRecord.tags record
    /\ SetRecord.notes record' = SetRecord.notes record.
Proof.
  eexists. eexists. split; [apply append_set_record_run|].
  unfold stamped. destruct (SetRecord.created_at record) eqn:Hc; simpl.
  - split; [apply isoformat_nonempty | repeat split].
  - rewrite Hc. split; [discriminate | repeat split].
Qed.

(** C10: on a source file that exists and is empty,
    [import_movements_file] raises IndexError (at [splitlines()[0]]),
    and writes nothing; it raises FileNotFoundError when, and only
    when, the path does not exist. *)
Theorem import_source_errors
    (csv_reader : ascii -> list string -> csv_table) (fs : files) :
  import_movements_file csv_reader (Some EmptyString) fs = (Raise IndexError, fs)
  /\ import_movements_file csv_reader None fs = (Raise FileNotFoundError, fs)
  /\ (forall text,
        (import_movements_file csv_reader (Some text) fs).1 = Raise IndexError
        <-> text = EmptyString)
  /\ (forall source,
        (import_movements_file csv_reader source fs).1 = Raise FileNotFoundError
        <-> source = None).
Proof.
  assert (Hstore : forall text e fs',
    text <> EmptyString ->
    import_movements_file csv_reader (Some text) fs = (Raise e, fs') ->
    store_exn e).
  { intros text e fs' Hne. unfold import_movements_file.
    destruct (splitlines text) as [|first_line rest] eqn:Hsplit.
    - now apply splitlines_nil in Hsplit.
    - apply raises_bind; [apply raises_load_movements|]. intros existing.
      apply raises_bind; [|intros ?; apply raises_ret].
      apply raises_for_each. apply raises_import_row. }
  split; [reflexivity|]. split; [reflexivity|]. split.
  - intros text. split; [|now intros ->].
    destruct text as [|c s]; [reflexivity|]. intros Hrun.
    destruct (import_movements_file _ _ fs) as [out fs'] eqn:Himp.
    simpl in Hrun. subst out. now apply Hstore in Himp.
  - intros [text|]; split; try reflexivity; try discriminate.
    intros Hrun. destruct text as [|c s]; [discriminate|].
    destruct (import_movements_file _ _ fs) as [out fs'] eqn:Himp.
    simpl in Hrun. subst out. now apply Hstore in Himp.
Qed.


(** * Further properties *)

(** X1: [ensure_files_exist] creates each missing file with its header
    and leaves an existing file as it is; a second run changes nothing;
    what [load_movements] returns, and whether the catalog is
    well-formed, is the same before and after. *)
Theorem ensure_files_exist_idempotent (fs : files) :
  exists fs1,
    ensure_files_exist fs = (Return (), fs1)
    /\ ensure_files_exist fs1 = (Return (), fs1)
    /\ MOVEMENTS_CSV fs1 = Some (default [movements_header] (MOVEMENTS_CSV fs))
    /\ WORKOUTS_CSV fs1 = Some (default [workouts_header] (WORKOUTS_CSV fs))
    /\ (load_movements fs1).1 = (load_movements fs).1
    /\ catalog_ok fs1 = catalog_ok fs.
Proof.
  exists (ensured fs). split; [apply ensure_files_exist_run|].
  split; [apply (ensure_files_exist_run (ensured fs))|].
  split; [reflexivity|]. split; [reflexivity|].
  split; [apply ensured_load | apply ensured_catalog_ok_eq].
Qed.

(** X2: on a well-formed catalog [load_movements] writes nothing and
    returns, under each key, the movement of the last row filed under
    that key (the id of the row, or the slug of its name when the id
    is empty): a later row replaces an earlier row of the same key, and
    a key under which no row is filed is not in the mapping. *)
Theorem load_movements_last_row_wins (fs : files) :
  catalog_ok fs = true ->
  exists movements,
    load_movements fs = (Return movements, fs)
    /\ forall k,
         movements !! k
         = last (filed_under k (data_rows (default [] (MOVEMENTS_CSV fs)))).
Proof.
  intros Hok. eexists. split; [apply (load_movements_ok fs Hok)|].
  intros k. apply catalog_of_last.
Qed.

(** The same on a catalog with two rows of the id foo: the second is
    the one that is loaded. *)
Lemma load_movements_last_row_wins_witness :
  catalog_ok twice_catalog = true
  /\ exists movements,
       load_movements twice_catalog = (Return movements, twice_catalog)
       /\ movements !! "foo"
          = Some (Movement.Build "foo" "Foo Two" "" "kg" "" "" "")
       /\ movements !! "baz" = None.
Proof.
  split; [reflexivity|].
  destruct (load_movements_last_row_wins twice_catalog eq_refl)
    as (movements & Hload & Hlast).
  exists movements. split; [exact Hload|].
  split; rewrite Hlast; vm_compute; reflexivity.
Defined.

(** X3: a refused [append_movement] leaves the catalog file as it was
    (the log file is created if it was missing). *)
Theorem append_movement_refused (m : Movement) (fs : files)
    (movements : gmap string Movement) :
  catalog_ok fs = true ->
  load_movements fs = (Return movements, fs) ->
  is_Some (movements !! Movement.id m) ->
  exists fs',
    append_movement m fs = (Raise (DuplicateIdentifier m), fs')
    /\ MOVEMENTS_CSV fs' = MOVEMENTS_CSV fs
    /\ WORKOUTS_CSV fs' = Some (default [workouts_header] (WORKOUTS_CSV fs)).
Proof.
  intros Hok Hload [m' Hm'].
  rewrite (loaded_catalog fs movements Hok Hload) in Hm'.
  exists (ensured fs). rewrite (append_movement_run m fs Hok), Hm'.
  split; [reflexivity|]. split; [|reflexivity].
  destruct (catalog_of_present_exists fs _ _ Hm') as [t Ht].
  unfold ensured. simpl. now rewrite Ht.
Qed.

(** The same on a catalog that holds the movement already. *)
Lemma append_movement_refused_witness :
  catalog_ok foo_catalog = true
  /\ load_movements foo_catalog = (Return {["foo" := foo_lift]}, foo_catalog)
  /\ is_Some (({["foo" := foo_lift]} : gmap string Movement) !! Movement.id foo_lift)
  /\ exists fs',
       append_movement foo_lift foo_catalog
       = (Raise (DuplicateIdentifier foo_lift), fs')
       /\ MOVEMENTS_CSV fs' = MOVEMENTS_CSV foo_catalog
       /\ WORKOUTS_CSV fs'
          = Some (default [workouts_header] (WORKOUTS_CSV foo_catalog)).
Proof.
  assert (Hload : load_movements foo_catalog
                  = (Return {["foo" := foo_lift]}, foo_catalog))
    by (vm_compute; reflexivity).
  assert (Hin : is_Some (({["foo" := foo_lift]} : gmap string Movement)
                           !! Movement.id foo_lift))
    by (exists foo_lift; vm_compute; reflexivity).
  split; [reflexivity|]. split; [exact Hload|]. split; [exact Hin|].
  exact (append_movement_refused foo_lift foo_catalog _ eq_refl Hload Hin).
Defined.

(** X4: after an [append_movement] that is accepted, [load_movements]
    returns the catalog of before with one key changed: the key under
    which the new row is filed ([m.id], or the slug of [m.name] when
    [m.id] is empty) now holds the movement made of that row, whatever
    was there before; the catalog file is again well-formed. *)
Theorem append_movement_then_load (m : Movement) (fs : files)
    (movements : gmap string Movement) :
  catalog_ok fs = true ->
  load_movements fs = (Return movements, fs) ->
  movements !! Movement.id m = None ->
  exists fs',
    append_movement m fs = (Return (), fs')
    /\ load_movements fs'
       = (Return (<[loaded_id m := as_loaded m]> movements), fs')
    /\ catalog_ok fs' = true.
Proof.
  intros Hok Hload Hfree.
  pose proof (loaded_catalog fs movements Hok Hload) as Hcat.
  exists (with_movement m (ensured fs)).
  rewrite (append_movement_run m fs Hok), <- Hcat, Hfree.
  split; [reflexivity|]. split.
  - rewrite (load_after_append m fs Hok), <- Hcat.
    now rewrite row_movement_as_loaded.
  - apply with_movement_ok. now apply ensured_catalog_ok.
Qed.

(** The same for the movement with the empty id, on a catalog that has
    the key foo: the append is accepted and replaces what is loaded
    under foo. *)
Lemma append_movement_then_load_witness :
  catalog_ok foo_catalog = true
  /\ load_movements foo_catalog = (Return {["foo" := foo_lift]}, foo_catalog)
  /\ ({["foo" := foo_lift]} : gmap string Movement) !! Movement.id unnamed_foo = None
  /\ exists fs',
       append_movement unnamed_foo foo_catalog = (Return (), fs')
       /\ load_movements fs'
          = (Return (<[loaded_id unnamed_foo := as_loaded unnamed_foo]>
                       {["foo" := foo_lift]}), fs')
       /\ catalog_ok fs' = true.
Proof.
  assert (Hload : load_movements foo_catalog
                  = (Return {["foo" := foo_lift]}, foo_catalog))
    by (vm_compute; reflexivity).
  assert (Hfree : ({["foo" := foo_lift]} : gmap string Movement)
                    !! Movement.id unnamed_foo = None)
    by (vm_compute; reflexivity).
  split; [reflexivity|]. split; [exact Hload|]. split; [exact Hfree|].
  exact (append_movement_then_load unnamed_foo foo_catalog _ eq_refl Hload Hfree).
Defined.

(** X5: [append_set_record] never raises and checks nothing: whatever
    movement id the record carries, in the catalog or not, one row for
    the record is added at the end of the log, with that id in its
    fourth cell, and the catalog is left as it was (its file created
    with the header if it was missing), so that [load_movements]
    returns the same. *)
Theorem append_set_record_no_check
    (float_repr : float -> string) (now : datetime) (record : SetRecord)
    (fs : files) :
  exists record' fs',
    append_set_record float_repr now record fs = (Return record', fs')
    /\ WORKOUTS_CSV fs'
       = Some (default [workouts_header] (WORKOUTS_CSV fs)
               ++ [set_row float_repr record'])
    /\ nth 3 (set_row float_repr record') EmptyString
       = SetRecord.movement_id record
    /\ MOVEMENTS_CSV fs' = Some (default [movements_header] (MOVEMENTS_CSV fs))
    /\ (load_movements fs').1 = (load_movements fs).1
    /\ SetRecord.movement_id record' = SetRecord.movement_id record.
Proof.
  eexists. eexists. split; [apply append_set_record_run|].
  split; [reflexivity|].
  split; [unfold stamped; now destruct (truthy _)|].
  split; [reflexivity|]. split.
  - rewrite <- (ensured_load fs). now apply load_movements_same_catalog.
  - unfold stamped. now destruct (truthy _).
Qed.


(** X7: on a log that has a record and whose header has no column
    workout_id, [export_summary] raises KeyError and writes nothing,
    whatever file [out] is. *)
Theorem export_summary_missing_column (out : out_file) (fs : files)
    (records : list (list string)) :
  WORKOUTS_CSV fs = Some records ->
  has_column "workout_id" records = false ->
  data_rows records <> [] ->
  export_summary out fs = (Raise (KeyError "workout_id"), fs).
Proof.
  intros Hw Hcol Hrows. unfold export_summary. prog_unfold. rewrite Hw.
  destruct records as [|h rows]; [now elim Hrows|].
  rewrite dict_reader_rows.
  destruct (data_rows (h :: rows)) as [|r rest]; [now elim Hrows|]. simpl.
  unfold summary_step, row_workout_id. prog_unfold.
  rewrite mk_dict_row_absent; [reflexivity|].
  apply bool_decide_eq_false in Hcol. exact Hcol.
Qed.

Lemma export_summary_missing_column_witness :
  WORKOUTS_CSV headless_log
  = Some [["date"; "movement_name"]; ["2025-01-01"; "Squat"]]
  /\ has_column "workout_id" [["date"; "movement_name"]; ["2025-01-01"; "Squat"]]
     = false
  /\ data_rows [["date"; "movement_name"]; ["2025-01-01"; "Squat"]] <> []
  /\ export_summary WorkoutsFile headless_log
     = (Raise (KeyError "workout_id"), headless_log).
Proof.
  assert (Hrows : data_rows [["date"; "movement_name"]; ["2025-01-01"; "Squat"]]
                  <> []) by (vm_compute; discriminate).
  split; [reflexivity|]. split; [reflexivity|]. split; [exact Hrows|].
  exact (export_summary_missing_column WorkoutsFile headless_log _
           eq_refl eq_refl Hrows).
Defined.

(** X8: importing the same source a second time creates nothing: the
    second run returns 0 and leaves the files as the first run left
    them. *)
Theorem import_twice
    (csv_reader : ascii -> list string -> list (list string)) (text : string)
    (fs : files) :
  catalog_ok fs = true ->
  truthy text = true ->
  exists n fs',
    import_movements_file csv_reader (Some text) fs = (Return n, fs')
    /\ import_movements_file csv_reader (Some text) fs' = (Return 0%nat, fs').
Proof.
  intros Hok Htext.
  pose proof (load_movements_ok fs Hok) as Hload.
  remember (catalog_of (data_rows (default [] (MOVEMENTS_CSV fs)))) as existing.
  remember (dict_reader
              (csv_reader (delimiter_of (hd EmptyString (splitlines text)))
                          (splitlines text))) as rows eqn:Hrows.
  destruct (import_loop_run rows existing 0%nat fs Hok Hload)
    as (created & fs' & Hrun & _ & Hload' & _ & Hids & Hnames).
  exists (length created), fs'. split.
  - unfold import_movements_file.
    destruct (splitlines text) as [|first_line rest] eqn:Hsplit.
    { apply splitlines_nil in Hsplit. subst text. discriminate. }
    simpl in Hrows. rewrite <- Hrows, (bind_return _ _ _ _ _ Hload).
    now rewrite (bind_return _ _ _ _ _ Hrun).
  - apply (import_nothing_new csv_reader text fs' _ Htext Hload').
    rewrite <- Hrows.
    apply (creates_after rows (catalog_names existing)).
    + intros n Hn. apply (catalog_names_add_all created existing Hids). now left.
    + intros n Hn. apply (catalog_names_add_all created existing Hids). right.
      now rewrite Hnames.
Qed.

Lemma import_twice_witness :
  catalog_ok no_files = true
  /\ truthy overhead_source = true
  /\ exists n fs',
       import_movements_file plain_reader (Some overhead_source) no_files
       = (Return n, fs')
       /\ import_movements_file plain_reader (Some overhead_source) fs'
          = (Return 0%nat, fs').
Proof.
  split; [reflexivity|]. split; [reflexivity|].
  exact (import_twice plain_reader overhead_source no_files eq_refl eq_refl).
Defined.

(** X9: an import in which no row creates a movement returns 0 and
    writes nothing: a file that did not exist is not created. *)
Theorem import_without_new_names
    (csv_reader : ascii -> list string -> list (list string)) (text : string)
    (fs : files) (existing : gmap string Movement) :
  truthy text = true ->
  load_movements fs = (Return existing, fs) ->
  creating_rows (catalog_names existing)
    (dict_reader (csv_reader (delimiter_of (hd EmptyString (splitlines text)))
                             (splitlines text))) = [] ->
  import_movements_file csv_reader (Some text) fs = (Return 0%nat, fs).
Proof.
  intros Htext Hload Hnil.
  apply (import_nothing_new csv_reader text fs existing Htext Hload).
  now apply creating_rows_nil.
Qed.

(** The same for a source that has a header line only. *)
Lemma import_without_new_names_witness :
  truthy "Exercise,Movement_Group" = true
  /\ load_movements no_files = (Return ∅, no_files)
  /\ creating_rows (catalog_names ∅)
       (dict_reader
          (plain_reader
             (delimiter_of (hd EmptyString (splitlines "Exercise,Movement_Group")))
             (splitlines "Exercise,Movement_Group"))) = []
  /\ import_movements_file plain_reader (Some "Exercise,Movement_Group") no_files
     = (Return 0%nat, no_files).
Proof.
  split; [reflexivity|]. split; [reflexivity|]. split; [reflexivity|].
  exact (import_without_new_names plain_reader "Exercise,Movement_Group"
           no_files ∅ eq_refl eq_refl eq_refl).
Defined.

(** X10: [slugify] gives the empty string exactly for the names that,
    once trimmed, have no alphanumeric character, no underscore and no
    SPACE. *)
Theorem slugify_empty_iff (name : string) :
  slugify name = EmptyString
  <-> str_forall (fun c => negb (slug_source c)) (strip name) = true.
Proof.
  unfold slugify, replace_char, lower.
  rewrite str_take_nil, str_filter_nil, str_map_map, str_forall_map.
  erewrite str_forall_ext; [reflexivity|].
  intros c. simpl. now rewrite slug_char_source.
Qed.

(** X11: what [find_movements] returns are the movements of the loaded
    catalog whose name or id, in lower case, contains the query in
    lower case: all of them and no other; it writes nothing.  On a
    catalog without movements it returns the empty list. *)
Theorem find_movements_sound_complete (query : string) (fs : files)
    (movements : gmap string Movement) :
  load_movements fs = (Return movements, fs) ->
  exists found,
    find_movements query fs = (Return found, fs)
    /\ (forall m,
          m ∈ found
          <-> (exists k, movements !! k = Some m)
              /\ (str_in (lower query) (lower (Movement.name m))
                  || str_in (lower query) (lower (Movement.id m))) = true)
    /\ (movements = ∅ -> found = []).
Proof.
  intros Hload.
  destruct (find_movements_run query fs movements Hload) as (found & Hrun & Hiff).
  exists found. split; [exact Hrun|]. split; [exact Hiff|].
  intros ->. destruct found as [|m found]; [reflexivity|].
  destruct (proj1 (Hiff m) (list_elem_of_here _ _)) as [[k Hk] _].
  now rewrite lookup_empty in Hk.
Qed.

(** The same for the query of the tests' kind, on the catalog with Foo
    Lift. *)
Lemma find_movements_sound_complete_witness :
  load_movements foo_catalog = (Return {["foo" := foo_lift]}, foo_catalog)
  /\ exists found,
       find_movements "LIFT" foo_catalog = (Return found, foo_catalog)
       /\ (forall m,
             m ∈ found
             <-> (exists k, ({["foo" := foo_lift]} : gmap string Movement) !! k
                            = Some m)
                 /\ (str_in (lower "LIFT") (lower (Movement.name m))
                     || str_in (lower "LIFT") (lower (Movement.id m))) = true)
       /\ (({["foo" := foo_lift]} : gmap string Movement) = ∅ -> found = []).
Proof.
  assert (Hload : load_movements foo_catalog
                  = (Return {["foo" := foo_lift]}, foo_catalog))
    by (vm_compute; reflexivity).
  split; [exact Hload|].
  exact (find_movements_sound_complete "LIFT" foo_catalog _ Hload).
Defined.

(** X12: a movement that [append_movement] has just stored is found
    by [find_movements] under its own name, under its own id, and
    under every query that one of them contains but for case. *)
Theorem appended_movement_is_found (m : Movement) (fs : files)
    (movements : gmap string Movement) (query : string) :
  catalog_ok fs = true ->
  load_movements fs = (Return movements, fs) ->
  movements !! Movement.id m = None ->
  loaded_id m = Movement.id m ->
  exists fs',
    append_movement m fs = (Return (), fs')
    /\ (exists found, find_movements (Movement.name m) fs' = (Return found, fs')
                      /\ m ∈ found)
    /\ (exists found, find_movements (Movement.id m) fs' = (Return found, fs')
                      /\ m ∈ found)
    /\ (movement_matches (lower query) m = true ->
        exists found, find_movements query fs' = (Return found, fs')
                      /\ m ∈ found).
Proof.
  intros Hok Hload Hfree Hkey.
  pose proof (loaded_catalog fs movements Hok Hload) as Hcat.
  exists (with_movement m (ensured fs)).
  rewrite (append_movement_run m fs Hok), <- Hcat, Hfree.
  split; [reflexivity|].
  pose proof (load_after_append m fs Hok) as Hload'.
  rewrite (row_movement_named m Hkey) in Hload'.
  assert (Hfind : forall q, movement_matches (lower q) m = true ->
            exists found,
              find_movements q (with_movement m (ensured fs))
              = (Return found, with_movement m (ensured fs))
              /\ m ∈ found).
  { intros q Hq.
    destruct (find_movements_run q _ _ Hload') as (found & Hrun & Hiff).
    exists found. split; [exact Hrun|]. apply Hiff.
    split; [|exact Hq]. exists (Movement.id m). apply lookup_insert_eq. }
  split; [|split; [|exact (Hfind query)]]; apply Hfind; unfold movement_matches.
  - now rewrite str_in_refl.
  - rewrite str_in_refl. apply orb_true_r.
Qed.

Lemma appended_movement_is_found_witness :
  catalog_ok no_files = true
  /\ load_movements no_files = (Return ∅, no_files)
  /\ (∅ : gmap string Movement) !! Movement.id foo_lift = None
  /\ loaded_id foo_lift = Movement.id foo_lift
  /\ movement_matches (lower "oo L") foo_lift = true
  /\ exists fs',
       append_movement foo_lift no_files = (Return (), fs')
       /\ exists found, find_movements "oo L" fs' = (Return found, fs')
                        /\ foo_lift ∈ found.
Proof.
  split; [reflexivity|]. split; [reflexivity|]. split; [reflexivity|].
  split; [reflexivity|]. split; [reflexivity|].
  destruct (appended_movement_is_found foo_lift no_files ∅ "oo L"
              eq_refl eq_refl eq_refl eq_refl)
    as (fs' & Happend & _ & _ & Hquery).
  exists fs'. split; [exact Happend | exact (Hquery eq_refl)].
Defined.

(** X13: [save_movements] makes the catalog file anew, whatever it
    held, and does not touch the log; when the movements have ids that
    differ from one another, each the key its row is filed under,
    [load_movements] then returns exactly these movements, each under
    its id. *)
Theorem save_then_load (movs : list Movement) (fs : files) :
  Forall (fun m => loaded_id m = Movement.id m) movs ->
  NoDup (map Movement.id movs) ->
  exists fs' movements,
    save_movements movs fs = (Return (), fs')
    /\ MOVEMENTS_CSV fs' = Some (movements_header :: map movement_row movs)
    /\ WORKOUTS_CSV fs' = WORKOUTS_CSV fs
    /\ load_movements fs' = (Return movements, fs')
    /\ (forall k m, movements !! k = Some m <-> m ∈ movs /\ Movement.id m = k)
    /\ size movements = length movs.
Proof.
  intros Hkeyed Hnd. eexists. exists (add_all ∅ movs).
  split; [apply save_movements_run|]. split; [reflexivity|].
  split; [reflexivity|]. split; [now apply load_after_save|].
  assert (Hlookup : forall k m,
            add_all ∅ movs !! k = Some m <-> m ∈ movs /\ Movement.id m = k).
  { intros k m. rewrite (add_all_lookup movs ∅ k m Hnd).
    - rewrite lookup_empty. split; [intros [H|H]; [discriminate | exact H] | now right].
    - intros m' _. apply lookup_empty. }
  split; [exact Hlookup|].
  rewrite <- (length_map Movement.id movs), <- size_dom.
  rewrite <- (size_list_to_set (C := gset string) (map Movement.id movs) Hnd).
  f_equal. apply set_eq. intros k.
  rewrite elem_of_dom, elem_of_list_to_set. split.
  - intros [m Hm]. apply Hlookup in Hm as [Hin <-].
    apply list_elem_of_In, in_map. now apply list_elem_of_In.
  - intros Hk. apply list_elem_of_In, in_map_iff in Hk as (m & <- & Hin).
    exists m. apply Hlookup. split; [now apply list_elem_of_In | reflexivity].
Qed.

Lemma save_then_load_witness :
  Forall (fun m => loaded_id m = Movement.id m) [foo_lift]
  /\ NoDup (map Movement.id [foo_lift])
  /\ exists fs' movements,
       save_movements [foo_lift] sample_log = (Return (), fs')
       /\ MOVEMENTS_CSV fs' = Some (movements_header :: map movement_row [foo_lift])
       /\ WORKOUTS_CSV fs' = WORKOUTS_CSV sample_log
       /\ load_movements fs' = (Return movements, fs')
       /\ (forall k m, movements !! k = Some m
                       <-> m ∈ [foo_lift] /\ Movement.id m = k)
       /\ size movements = length [foo_lift].
Proof.
  assert (Hkeyed : Forall (fun m => loaded_id m = Movement.id m) [foo_lift])
    by (repeat constructor).
  assert (Hnd : NoDup (map Movement.id [foo_lift]))
    by (apply NoDup_singleton).
  split; [exact Hkeyed|]. split; [exact Hnd|].
  exact (save_then_load [foo_lift] sample_log Hkeyed Hnd).
Defined.

(** X14: on a well-formed catalog (every row has a cell for each
    column), writing back with [save_movements] the values of the
    loaded catalog, in any order, leaves what [load_movements] returns
    unchanged, and the catalog well-formed. *)
Theorem save_loaded_catalog (movs : list Movement) (fs : files)
    (movements : gmap string Movement) :
  catalog_ok fs = true ->
  load_movements fs = (Return movements, fs) ->
  movs ≡ₚ (map_to_list movements).*2 ->
  exists fs',
    save_movements movs fs = (Return (), fs')
    /\ load_movements fs' = (Return movements, fs')
    /\ catalog_ok fs' = true.
Proof.
  intros _ Hload Hperm.
  destruct (load_movements_result fs) as (out & Hrun & Hkeyed).
  rewrite Hload in Hrun. injection Hrun as <-.
  assert (Hin : forall m, m ∈ movs <-> movements !! Movement.id m = Some m).
  { intros m. rewrite Hperm, list_elem_of_fmap. split.
    - intros ([k m'] & -> & Hk%elem_of_map_to_list). simpl.
      destruct (Hkeyed k m' Hk) as [-> _]. exact Hk.
    - intros Hm. exists (Movement.id m, m). split; [reflexivity|].
      now apply elem_of_map_to_list. }
  assert (Hall : Forall (fun m => loaded_id m = Movement.id m) movs).
  { apply Forall_forall. intros m Hm%Hin.
    destruct (Hkeyed _ _ Hm) as [_ H]. exact H. }
  assert (Hnd : NoDup (map Movement.id movs)).
  { change (map Movement.id movs) with (Movement.id <$> movs). rewrite Hperm.
    rewrite <- list_fmap_compose.
    rewrite (list_fmap_ext _ fst (map_to_list movements)).
    - apply NoDup_fst_map_to_list.
    - intros i [k m] Hk. simpl.
      apply list_elem_of_lookup_2, elem_of_map_to_list in Hk.
      now destruct (Hkeyed k m Hk). }
  eexists. split; [apply save_movements_run|].
  split; [|apply andb_true_intro; split;
           [now apply bool_decide_eq_true | apply movement_rows_full]].
  rewrite (load_after_save movs _ Hall). do 2 f_equal.
  apply map_eq. intros k. apply option_eq. intros m.
  rewrite (add_all_lookup movs ∅ k m Hnd).
  - rewrite lookup_empty, Hin. split.
    + intros [H|[Hm <-]]; [discriminate | exact Hm].
    + intros Hm. right. destruct (Hkeyed k m Hm) as [<- _]. now split.
  - intros m' _. apply lookup_empty.
Qed.

Lemma save_loaded_catalog_witness :
  catalog_ok foo_catalog = true
  /\ load_movements foo_catalog = (Return {["foo" := foo_lift]}, foo_catalog)
  /\ [foo_lift] ≡ₚ (map_to_list ({["foo" := foo_lift]} : gmap string Movement)).*2
  /\ exists fs',
       save_movements [foo_lift] foo_catalog = (Return (), fs')
       /\ load_movements fs' = (Return {["foo" := foo_lift]}, fs')
       /\ catalog_ok fs' = true.
Proof.
  assert (Hload : load_movements foo_catalog
                  = (Return {["foo" := foo_lift]}, foo_catalog))
    by (vm_compute; reflexivity).
  assert (Hperm : [foo_lift]
                  ≡ₚ (map_to_list ({["foo" := foo_lift]} : gmap string Movement)).*2)
    by (rewrite map_to_list_singleton; reflexivity).
  split; [reflexivity|]. split; [exact Hload|]. split; [exact Hperm|].
  exact (save_loaded_catalog [foo_lift] foo_catalog _ eq_refl Hload Hperm).
Defined.

(** X15: on a well-formed catalog, [cmd_add_movement] raises
    DuplicateIdentifier when the id (the one given, or else the slug of
    the name) is a key of the catalog, and otherwise stores the
    movement under that id: the movement it builds is always filed
    under its own id. *)
Theorem cmd_add_movement_stored (args : AddMovementArgs.t) (fs : files) :
  catalog_ok fs = true ->
  exists movements,
    load_movements fs = (Return movements, fs)
    /\ Movement.id (movement_of_args args)
       = or_str (AddMovementArgs.id args) (slugify (AddMovementArgs.name args))
    /\ match movements !! Movement.id (movement_of_args args) with
       | Some _ =>
           (cmd_add_movement args fs).1
           = Raise (DuplicateIdentifier (movement_of_args args))
       | None =>
           exists fs',
             cmd_add_movement args fs = (Return (), fs')
             /\ stored (movement_of_args args) fs'
       end.
Proof.
  intros Hok. eexists. split; [apply (load_movements_ok fs Hok)|].
  split; [reflexivity|]. unfold cmd_add_movement.
  rewrite (append_movement_run _ fs Hok).
  destruct (catalog_of _ !! _) eqn:Hid; [reflexivity|].
  eexists. split; [reflexivity|].
  eexists. split; [apply (load_after_append _ fs Hok)|].
  rewrite (row_movement_named _ (loaded_id_of_args args)). apply lookup_insert_eq.
Qed.

(** The same for a name alone, with no file yet: the id is the slug. *)
Lemma cmd_add_movement_stored_witness :
  catalog_ok no_files = true
  /\ exists fs',
       cmd_add_movement (name_only "Bench Press") no_files = (Return (), fs')
       /\ Movement.id (movement_of_args (name_only "Bench Press")) = "bench_press"
       /\ stored (movement_of_args (name_only "Bench Press")) fs'.
Proof.
  split; [reflexivity|].
  destruct (cmd_add_movement_stored (name_only "Bench Press") no_files eq_refl)
    as (movements & Hload & _ & Hspec).
  vm_compute in Hload. injection Hload as <-.
  change ((∅ : gmap string Movement) !! _) with (@None Movement) in Hspec.
  destruct Hspec as (fs' & Hrun & Hstored).
  exists fs'. split; [exact Hrun|]. split; [reflexivity | exact Hstored].
Defined.

(** X16: when [args.movement_id] is a key of the catalog, [cmd_add_set]
    appends one record to the log, with the id and the name that the
    catalog has for that movement (the name given in the arguments is
    not used), and leaves the catalog file as it is. *)
Theorem cmd_add_set_by_id
    (float_repr : float -> string) (py_int : string -> outcome Z)
    (py_float : string -> outcome float) (fresh : string) (now : datetime)
    (args : AddSetArgs.t) (fs : files) (movements : gmap string Movement)
    (movement : Movement) (numbers : set_numbers) :
  load_movements fs = (Return movements, fs) ->
  by_id movements args = Some movement ->
  convert_numbers py_int py_float args = Return numbers ->
  exists fs',
    cmd_add_set float_repr py_int py_float fresh now args fs = (Return Done, fs')
    /\ WORKOUTS_CSV fs'
       = Some (default [workouts_header] (WORKOUTS_CSV fs)
               ++ [set_row float_repr
                     (new_set_record fresh now args movement numbers)])
    /\ SetRecord.movement_id (new_set_record fresh now args movement numbers)
       = Movement.id movement
    /\ SetRecord.movement_name (new_set_record fresh now args movement numbers)
       = Movement.name movement
    /\ MOVEMENTS_CSV fs' = MOVEMENTS_CSV fs.
Proof.
  intros Hload Hid Hnum.
  rewrite (cmd_add_set_run _ _ _ _ _ _ _ _ _ (resolve_by_id args fs _ _ Hload Hid)).
  rewrite Hnum. eexists. split; [reflexivity|]. split; [reflexivity|].
  split; [reflexivity|]. split; [reflexivity|].
  unfold by_id in Hid. destruct (if_true (AddSetArgs.movement_id args)) as [mid|];
    [|discriminate].
  destruct (loaded_catalog_file fs _ _ _ Hload Hid) as [t Ht].
  simpl. now rewrite Ht.
Qed.

Lemma cmd_add_set_by_id_witness :
  load_movements bench_catalog = (Return {["bench_press" := bench]}, bench_catalog)
  /\ by_id {["bench_press" := bench]} (set_args (Some "bench_press") (Some "Squat") "3")
     = Some bench
  /\ convert_numbers int_of_examples float_of_examples
       (set_args (Some "bench_press") (Some "Squat") "3")
     = Return (SetNumbers 3 None None None)
  /\ exists fs',
       cmd_add_set no_floats int_of_examples float_of_examples some_uuid noon
         (set_args (Some "bench_press") (Some "Squat") "3") bench_catalog
       = (Return Done, fs')
       /\ WORKOUTS_CSV fs'
          = Some (default [workouts_header] (WORKOUTS_CSV bench_catalog)
                  ++ [set_row no_floats
                        (new_set_record some_uuid noon
                           (set_args (Some "bench_press") (Some "Squat") "3")
                           bench (SetNumbers 3 None None None))])
       /\ SetRecord.movement_name
            (new_set_record some_uuid noon
               (set_args (Some "bench_press") (Some "Squat") "3")
               bench (SetNumbers 3 None None None))
          = "Bench Press".
Proof.
  assert (Hload : load_movements bench_catalog
                  = (Return {["bench_press" := bench]}, bench_catalog))
    by (vm_compute; reflexivity).
  assert (Hid : by_id {["bench_press" := bench]}
                  (set_args (Some "bench_press") (Some "Squat") "3") = Some bench)
    by (vm_compute; reflexivity).
  split; [exact Hload|]. split; [exact Hid|]. split; [reflexivity|].
  destruct (cmd_add_set_by_id no_floats int_of_examples float_of_examples
              some_uuid noon _ _ _ _ _ Hload Hid eq_refl)
    as (fs' & Hrun & Hlog & _ & Hname & _).
  exists fs'. split; [exact Hrun|]. split; [exact Hlog | exact Hname].
Defined.

(** X17: when the id names no movement and a movement of the catalog
    has the given name but for case, [cmd_add_set] logs the set under
    that movement, with the id and the name of the catalog, and leaves
    the catalog file as it is. *)
Theorem cmd_add_set_by_name
    (float_repr : float -> string) (py_int : string -> outcome Z)
    (py_float : string -> outcome float) (fresh : string) (now : datetime)
    (args : AddSetArgs.t) (fs : files) (movements : gmap string Movement)
    (name : string) (numbers : set_numbers) :
  load_movements fs = (Return movements, fs) ->
  by_id movements args = None ->
  if_true (AddSetArgs.movement_name args) = Some name ->
  name_known movements name = true ->
  convert_numbers py_int py_float args = Return numbers ->
  exists movement fs',
    movements !! Movement.id movement = Some movement
    /\ lower (Movement.name movement) = lower name
    /\ cmd_add_set float_repr py_int py_float fresh now args fs = (Return Done, fs')
    /\ WORKOUTS_CSV fs'
       = Some (default [workouts_header] (WORKOUTS_CSV fs)
               ++ [set_row float_repr
                     (new_set_record fresh now args movement numbers)])
    /\ MOVEMENTS_CSV fs' = MOVEMENTS_CSV fs.
Proof.
  intros Hload Hid Hname Hknown Hnum.
  destruct (resolve_by_name args fs movements name Hload Hid Hname Hknown)
    as (movement & Hres & [k Hk] & Hsame).
  exists movement. eexists.
  rewrite (cmd_add_set_run _ _ _ _ _ _ _ _ _ Hres), Hnum.
  destruct (load_movements_result fs) as (out & Hrun & Hkeyed).
  rewrite Hload in Hrun. injection Hrun as <-.
  destruct (Hkeyed k movement Hk) as [Hkid _].
  split; [now rewrite Hkid|]. split; [exact Hsame|].
  split; [reflexivity|]. split; [reflexivity|].
  destruct (loaded_catalog_file fs _ _ _ Hload Hk) as [t Ht].
  simpl. now rewrite Ht.
Qed.

Lemma cmd_add_set_by_name_witness :
  load_movements bench_catalog = (Return {["bench_press" := bench]}, bench_catalog)
  /\ by_id {["bench_press" := bench]} (set_args None (Some "BENCH PRESS") "3") = None
  /\ if_true (AddSetArgs.movement_name (set_args None (Some "BENCH PRESS") "3"))
     = Some "BENCH PRESS"
  /\ name_known {["bench_press" := bench]} "BENCH PRESS" = true
  /\ convert_numbers int_of_examples float_of_examples
       (set_args None (Some "BENCH PRESS") "3")
     = Return (SetNumbers 3 None None None)
  /\ exists movement fs',
       ({["bench_press" := bench]} : gmap string Movement) !! Movement.id movement
       = Some movement
       /\ lower (Movement.name movement) = lower "BENCH PRESS"
       /\ cmd_add_set no_floats int_of_examples float_of_examples some_uuid noon
            (set_args None (Some "BENCH PRESS") "3") bench_catalog
          = (Return Done, fs')
       /\ WORKOUTS_CSV fs'
          = Some (default [workouts_header] (WORKOUTS_CSV bench_catalog)
                  ++ [set_row no_floats
                        (new_set_record some_uuid noon
                           (set_args None (Some "BENCH PRESS") "3")
                           movement (SetNumbers 3 None None None))])
       /\ MOVEMENTS_CSV fs' = MOVEMENTS_CSV bench_catalog.
Proof.
  assert (Hload : load_movements bench_catalog
                  = (Return {["bench_press" := bench]}, bench_catalog))
    by (vm_compute; reflexivity).
  assert (Hknown : name_known {["bench_press" := bench]} "BENCH PRESS" = true)
    by (vm_compute; reflexivity).
  split; [exact Hload|]. split; [reflexivity|]. split; [reflexivity|].
  split; [exact Hknown|]. split; [reflexivity|].
  exact (cmd_add_set_by_name no_floats int_of_examples float_of_examples
           some_uuid noon (set_args None (Some "BENCH PRESS") "3") bench_catalog
           {["bench_press" := bench]} "BENCH PRESS" (SetNumbers 3 None None None)
           Hload eq_refl eq_refl Hknown eq_refl).
Defined.

(** X18: when neither the id nor the name (but for case) is in a
    well-formed catalog and the slug of the name is not a key of it,
    [cmd_add_set] first appends the movement
    [Movement(id=slugify(name), name=name)] to the catalog, where it is
    stored under that slug, and then logs the set under that id and
    name. *)
Theorem cmd_add_set_creates
    (float_repr : float -> string) (py_int : string -> outcome Z)
    (py_float : string -> outcome float) (fresh : string) (now : datetime)
    (args : AddSetArgs.t) (fs : files) (movements : gmap string Movement)
    (name : string) (numbers : set_numbers) :
  catalog_ok fs = true ->
  load_movements fs = (Return movements, fs) ->
  by_id movements args = None ->
  if_true (AddSetArgs.movement_name args) = Some name ->
  name_known movements name = false ->
  movements !! slugify name = None ->
  convert_numbers py_int py_float args = Return numbers ->
  exists fs',
    cmd_add_set float_repr py_int py_float fresh now args fs = (Return Done, fs')
    /\ MOVEMENTS_CSV fs'
       = Some (default [movements_header] (MOVEMENTS_CSV fs)
               ++ [movement_row (movement_named name)])
    /\ stored (movement_named name) fs'
    /\ WORKOUTS_CSV fs'
       = Some (default [workouts_header] (WORKOUTS_CSV fs)
               ++ [set_row float_repr
                     (new_set_record fresh now args (movement_named name) numbers)]).
Proof.
  intros Hok Hload Hid Hname Hknown Hfree Hnum.
  pose proof (resolve_new_run args fs movements name Hok Hload Hid Hname Hknown)
    as Hres.
  rewrite Hfree in Hres.
  rewrite (cmd_add_set_run _ _ _ _ _ _ _ _ _ Hres), Hnum.
  eexists. split; [reflexivity|]. split; [reflexivity|].
  split; [|reflexivity].
  apply (stored_after_append _ fs); [exact Hok | apply loaded_id_movement_named |].
  reflexivity.
Qed.

Lemma cmd_add_set_creates_witness :
  catalog_ok bench_catalog = true
  /\ load_movements bench_catalog = (Return {["bench_press" := bench]}, bench_catalog)
  /\ by_id {["bench_press" := bench]} (set_args None (Some "Back Squat") "3") = None
  /\ if_true (AddSetArgs.movement_name (set_args None (Some "Back Squat") "3"))
     = Some "Back Squat"
  /\ name_known {["bench_press" := bench]} "Back Squat" = false
  /\ ({["bench_press" := bench]} : gmap string Movement) !! slugify "Back Squat" = None
  /\ convert_numbers int_of_examples float_of_examples
       (set_args None (Some "Back Squat") "3")
     = Return (SetNumbers 3 None None None)
  /\ exists fs',
       cmd_add_set no_floats int_of_examples float_of_examples some_uuid noon
         (set_args None (Some "Back Squat") "3") bench_catalog
       = (Return Done, fs')
       /\ MOVEMENTS_CSV fs'
          = Some (default [movements_header] (MOVEMENTS_CSV bench_catalog)
                  ++ [movement_row (movement_named "Back Squat")])
       /\ stored (movement_named "Back Squat") fs'
       /\ WORKOUTS_CSV fs'
          = Some (default [workouts_header] (WORKOUTS_CSV bench_catalog)
                  ++ [set_row no_floats
                        (new_set_record some_uuid noon
                           (set_args None (Some "Back Squat") "3")
                           (movement_named "Back Squat")
                           (SetNumbers 3 None None None))]).
Proof.
  assert (Hload : load_movements bench_catalog
                  = (Return {["bench_press" := bench]}, bench_catalog))
    by (vm_compute; reflexivity).
  assert (Hknown : name_known {["bench_press" := bench]} "Back Squat" = false)
    by (vm_compute; reflexivity).
  assert (Hfree : ({["bench_press" := bench]} : gmap string Movement)
                    !! slugify "Back Squat" = None)
    by (vm_compute; reflexivity).
  split; [reflexivity|]. split; [exact Hload|]. split; [reflexivity|].
  split; [reflexivity|]. split; [exact Hknown|]. split; [exact Hfree|].
  split; [reflexivity|].
  exact (cmd_add_set_creates no_floats int_of_examples float_of_examples
           some_uuid noon (set_args None (Some "Back Squat") "3") bench_catalog
           {["bench_press" := bench]} "Back Squat" (SetNumbers 3 None None None)
           eq_refl Hload eq_refl eq_refl Hknown Hfree eq_refl).
Defined.

(** X19: the lookup by name compares names, the new id is the slug: a
    name that no movement of a well-formed catalog has, but whose slug
    is a key of it, makes [cmd_add_set] raise DuplicateIdentifier.  No
    set is logged and no movement is added; the files are only
    created, as [ensure_files_exist] does. *)
Theorem cmd_add_set_slug_taken
    (float_repr : float -> string) (py_int : string -> outcome Z)
    (py_float : string -> outcome float) (fresh : string) (now : datetime)
    (args : AddSetArgs.t) (fs : files) (movements : gmap string Movement)
    (name : string) (other : Movement) :
  catalog_ok fs = true ->
  load_movements fs = (Return movements, fs) ->
  by_id movements args = None ->
  if_true (AddSetArgs.movement_name args) = Some name ->
  name_known movements name = false ->
  movements !! slugify name = Some other ->
  cmd_add_set float_repr py_int py_float fresh now args fs
  = (Raise (ValueError ("movement id already exists: " +:+ slugify name)),
     ensured fs).
Proof.
  intros Hok Hload Hid Hname Hknown Htaken.
  pose proof (resolve_new_run args fs movements name Hok Hload Hid Hname Hknown)
    as Hres.
  rewrite Htaken in Hres. exact (cmd_add_set_raise _ _ _ _ _ _ _ _ _ Hres).
Qed.

Lemma cmd_add_set_slug_taken_witness :
  catalog_ok bench_catalog = true
  /\ load_movements bench_catalog = (Return {["bench_press" := bench]}, bench_catalog)
  /\ by_id {["bench_press" := bench]} (set_args None (Some "Bench Press!") "3") = None
  /\ if_true (AddSetArgs.movement_name (set_args None (Some "Bench Press!") "3"))
     = Some "Bench Press!"
  /\ name_known {["bench_press" := bench]} "Bench Press!" = false
  /\ ({["bench_press" := bench]} : gmap string Movement) !! slugify "Bench Press!"
     = Some bench
  /\ cmd_add_set no_floats int_of_examples float_of_examples some_uuid noon
       (set_args None (Some "Bench Press!") "3") bench_catalog
     = (Raise (ValueError "movement id already exists: bench_press"),
        ensured bench_catalog).
Proof.
  assert (Hload : load_movements bench_catalog
                  = (Return {["bench_press" := bench]}, bench_catalog))
    by (vm_compute; reflexivity).
  assert (Hknown : name_known {["bench_press" := bench]} "Bench Press!" = false)
    by (vm_compute; reflexivity).
  assert (Htaken : ({["bench_press" := bench]} : gmap string Movement)
                     !! slugify "Bench Press!" = Some bench)
    by (vm_compute; reflexivity).
  split; [reflexivity|]. split; [exact Hload|]. split; [reflexivity|].
  split; [reflexivity|]. split; [exact Hknown|]. split; [exact Htaken|].
  exact (cmd_add_set_slug_taken no_floats int_of_examples float_of_examples
           some_uuid noon (set_args None (Some "Bench Press!") "3") bench_catalog
           {["bench_press" := bench]} "Bench Press!" bench
           eq_refl Hload eq_refl eq_refl Hknown Htaken).
Defined.

(** X20: [cmd_add_set] is not atomic.  The movement is created before
    the numbers are converted: when the name is new and [int] or
    [float] refuses one of the numbers, the command raises that error
    with the new movement already stored in the catalog and no set
    logged. *)
Theorem cmd_add_set_not_atomic
    (float_repr : float -> string) (py_int : string -> outcome Z)
    (py_float : string -> outcome float) (fresh : string) (now : datetime)
    (args : AddSetArgs.t) (fs : files) (movements : gmap string Movement)
    (name : string) (e : exn) :
  catalog_ok fs = true ->
  load_movements fs = (Return movements, fs) ->
  by_id movements args = None ->
  if_true (AddSetArgs.movement_name args) = Some name ->
  name_known movements name = false ->
  movements !! slugify name = None ->
  convert_numbers py_int py_float args = Raise e ->
  exists fs',
    cmd_add_set float_repr py_int py_float fresh now args fs = (Raise e, fs')
    /\ MOVEMENTS_CSV fs'
       = Some (default [movements_header] (MOVEMENTS_CSV fs)
               ++ [movement_row (movement_named name)])
    /\ stored (movement_named name) fs'
    /\ WORKOUTS_CSV fs' = Some (default [workouts_header] (WORKOUTS_CSV fs)).
Proof.
  intros Hok Hload Hid Hname Hknown Hfree Hnum.
  pose proof (resolve_new_run args fs movements name Hok Hload Hid Hname Hknown)
    as Hres.
  rewrite Hfree in Hres.
  rewrite (cmd_add_set_run _ _ _ _ _ _ _ _ _ Hres), Hnum.
  eexists. split; [reflexivity|]. split; [reflexivity|].
  split; [|reflexivity].
  apply (stored_after_append _ fs); [exact Hok | apply loaded_id_movement_named |].
  reflexivity.
Qed.

Lemma cmd_add_set_not_atomic_witness :
  catalog_ok bench_catalog = true
  /\ load_movements bench_catalog = (Return {["bench_press" := bench]}, bench_catalog)
  /\ by_id {["bench_press" := bench]} (set_args None (Some "Back Squat") "three") = None
  /\ if_true (AddSetArgs.movement_name (set_args None (Some "Back Squat") "three"))
     = Some "Back Squat"
  /\ name_known {["bench_press" := bench]} "Back Squat" = false
  /\ ({["bench_press" := bench]} : gmap string Movement) !! slugify "Back Squat" = None
  /\ convert_numbers int_of_examples float_of_examples
       (set_args None (Some "Back Squat") "three")
     = Raise (ValueError "invalid literal for int() with base 10: 'three'")
  /\ exists fs',
       cmd_add_set no_floats int_of_examples float_of_examples some_uuid noon
         (set_args None (Some "Back Squat") "three") bench_catalog
       = (Raise (ValueError "invalid literal for int() with base 10: 'three'"), fs')
       /\ MOVEMENTS_CSV fs'
          = Some (default [movements_header] (MOVEMENTS_CSV bench_catalog)
                  ++ [movement_row (movement_named "Back Squat")])
       /\ stored (movement_named "Back Squat") fs'
       /\ WORKOUTS_CSV fs'
          = Some (default [workouts_header] (WORKOUTS_CSV bench_catalog)).
Proof.
  assert (Hload : load_movements bench_catalog
                  = (Return {["bench_press" := bench]}, bench_catalog))
    by (vm_compute; reflexivity).
  assert (Hknown : name_known {["bench_press" := bench]} "Back Squat" = false)
    by (vm_compute; reflexivity).
  assert (Hfree : ({["bench_press" := bench]} : gmap string Movement)
                    !! slugify "Back Squat" = None)
    by (vm_compute; reflexivity).
  split; [reflexivity|]. split; [exact Hload|]. split; [reflexivity|].
  split; [reflexivity|]. split; [exact Hknown|]. split; [exact Hfree|].
  split; [reflexivity|].
  exact (cmd_add_set_not_atomic no_floats int_of_examples float_of_examples
           some_uuid noon (set_args None (Some "Back Squat") "three") bench_catalog
           {["bench_press" := bench]} "Back Squat"
           (ValueError "invalid literal for int() with base 10: 'three'")
           eq_refl Hload eq_refl eq_refl Hknown Hfree eq_refl).
Defined.

(** X21: when the id names no movement of the catalog and no name is
    given (none, or the empty one), [cmd_add_set] leaves through
    [sys.exit(1)] before any number is converted, and the files are
    as they were: not even created. *)
Theorem cmd_add_set_exits
    (float_repr : float -> string) (py_int : string -> outcome Z)
    (py_float : string -> outcome float) (fresh : string) (now : datetime)
    (args : AddSetArgs.t) (fs : files) (movements : gmap string Movement) :
  load_movements fs = (Return movements, fs) ->
  by_id movements args = None ->
  if_true (AddSetArgs.movement_name args) = None ->
  cmd_add_set float_repr py_int py_float fresh now args fs = (Return (Exit 1), fs).
Proof.
  intros Hload Hid Hname. unfold cmd_add_set.
  now rewrite (bind_return _ _ _ _ _ (resolve_none args fs movements Hload Hid Hname)).
Qed.

Lemma cmd_add_set_exits_witness :
  load_movements no_files = (Return ∅, no_files)
  /\ by_id ∅ (set_args (Some "bench_press") (Some "") "three") = None
  /\ if_true (AddSetArgs.movement_name (set_args (Some "bench_press") (Some "") "three"))
     = None
  /\ cmd_add_set no_floats int_of_examples float_of_examples some_uuid noon
       (set_args (Some "bench_press") (Some "") "three") no_files
     = (Return (Exit 1), no_files).
Proof.
  assert (Hload : load_movements no_files = (Return ∅, no_files))
    by (vm_compute; reflexivity).
  split; [exact Hload|]. split; [reflexivity|]. split; [reflexivity|].
  exact (cmd_add_set_exits no_floats int_of_examples float_of_examples
           some_uuid noon (set_args (Some "bench_press") (Some "") "three") no_files
           ∅ Hload eq_refl eq_refl).
Defined.

(** X22: when the movement is known by its id and [int] or [float]
    refuses one of the numbers, [cmd_add_set] raises that error and
    writes nothing. *)
Theorem cmd_add_set_bad_number
    (float_repr : float -> string) (py_int : string -> outcome Z)
    (py_float : string -> outcome float) (fresh : string) (now : datetime)
    (args : AddSetArgs.t) (fs : files) (movements : gmap string Movement)
    (movement : Movement) (e : exn) :
  load_movements fs = (Return movements, fs) ->
  by_id movements args = Some movement ->
  convert_numbers py_int py_float args = Raise e ->
  cmd_add_set float_repr py_int py_float fresh now args fs = (Raise e, fs).
Proof.
  intros Hload Hid Hnum.
  rewrite (cmd_add_set_run _ _ _ _ _ _ _ _ _ (resolve_by_id args fs _ _ Hload Hid)).
  now rewrite Hnum.
Qed.

Lemma cmd_add_set_bad_number_witness :
  load_movements bench_catalog = (Return {["bench_press" := bench]}, bench_catalog)
  /\ by_id {["bench_press" := bench]} (set_args (Some "bench_press") None "three")
     = Some bench
  /\ convert_numbers int_of_examples float_of_examples
       (set_args (Some "bench_press") None "three")
     = Raise (ValueError "invalid literal for int() with base 10: 'three'")
  /\ cmd_add_set no_floats int_of_examples float_of_examples some_uuid noon
       (set_args (Some "bench_press") None "three") bench_catalog
     = (Raise (ValueError "invalid literal for int() with base 10: 'three'"),
        bench_catalog).
Proof.
  assert (Hload : load_movements bench_catalog
                  = (Return {["bench_press" := bench]}, bench_catalog))
    by (vm_compute; reflexivity).
  assert (Hid : by_id {["bench_press" := bench]}
                  (set_args (Some "bench_press") None "three") = Some bench)
    by (vm_compute; reflexivity).
  split; [exact Hload|]. split; [exact Hid|]. split; [reflexivity|].
  exact (cmd_add_set_bad_number no_floats int_of_examples float_of_examples
           some_uuid noon (set_args (Some "bench_press") None "three") bench_catalog
           {["bench_press" := bench]} bench
           (ValueError "invalid literal for int() with base 10: 'three'")
           Hload Hid eq_refl).
Defined.
